(** * Kismat analytics: the analytics router, embedded and verified

    A shallow embedding of [src/server/api/routers/analytics.ts] over the
    tables of [src/server/db/schema.ts].

    - Tables are lists of row records; the drizzle queries are written with
      the relational operators of the section "SQL operators" below
      ([leftJoin], [groupBy], [orderBy], [filter], [firstn]).
    - Integer-valued JavaScript numbers (row counts, sums of integer
      columns, array lengths, millisecond time values) are modelled as [Z];
      they are exact in binary64 below 2^53.
    - Fractional JavaScript arithmetic (the ratios, averages and the jitter
      factor) is modelled by the type [number]: the exact rational result of
      each operation followed by rounding to 53 significant bits, ties to
      even ([rnd]).  The exponent range of binary64 and the sign of zero are
      not modelled.
    - The wall clock and [Math.random] are inputs of the functions that read
      them.
    - The formatting functions of [src/lib/utils.ts] and the figures that the
      dashboard components derive from the results of the queries follow the
      router. *)

From Stdlib Require Import ZArith QArith Qround Qabs Qpower Lia Lqa.
From Stdlib Require Import List String Ascii Bool.
From Stdlib Require Import Sorting.Permutation Sorting.Sorted.
From Stdlib Require Import Numbers.DecimalString Numbers.DecimalN.
From Stdlib Require Import Uint63 Floats.PrimFloat Floats.FloatOps Floats.SpecFloat.
Import ListNotations.

Local Open Scope Z_scope.

(* ================================================================== *)
(** * JavaScript numbers *)
(* ================================================================== *)

Module JS.

(** [floor (log2 x)] for a positive rational [x]. *)
Definition ilog2 (x : Q) : Z :=
  let d := Z.log2 (Qnum x) - Z.log2 (Zpos (Qden x)) in
  if Qle_bool (2 ^ d) x then d else d - 1.

(** Nearest integer, ties to the even one. *)
Definition roundHalfEven (x : Q) : Z :=
  let f := Qfloor x in
  match Qcompare (x - inject_Z f) (1 # 2) with
  | Lt => f
  | Gt => f + 1
  | Eq => if Z.even f then f else f + 1
  end.

(** Rounding of a positive rational to a 53-bit significand. *)
Definition rndPos (x : Q) : Q :=
  let e := ilog2 x - 52 in
  (inject_Z (roundHalfEven (x / 2 ^ e)) * 2 ^ e)%Q.

(** Round to nearest, ties to even, the rounding of every binary64
    operation. *)
Definition rnd (x : Q) : Q :=
  match Qcompare x 0 with
  | Eq => 0%Q
  | Gt => rndPos x
  | Lt => (- rndPos (- x))%Q
  end.

(** A rational that is the value of a double. *)
Definition isDouble (x : Q) : Prop := (rnd x == x)%Q.

(** The Number type: finite values, the two infinities and NaN. *)
Inductive number : Type :=
| Fin (q : Q)
| Infinity (negative : bool)
| NaN.

(** An integer-valued number. *)
Definition ofZ (z : Z) : number := Fin (inject_Z z).

(** A decimal literal of the program text, such as [0.8]. *)
Definition lit (q : Q) : number := Fin (rnd q).

Definition Qneg (x : Q) : bool := negb (Qle_bool 0 x).
Definition Qzero (x : Q) : bool := Qeq_bool x 0.

(** [a / b] *)
Definition ndiv (a b : number) : number :=
  match a, b with
  | NaN, _ | _, NaN => NaN
  | Fin x, Fin y =>
      if Qzero y then (if Qzero x then NaN else Infinity (Qneg x))
      else Fin (rnd (x / y))
  | Fin _, Infinity _ => Fin 0
  | Infinity s, Fin y => Infinity (xorb s (Qneg y))
  | Infinity _, Infinity _ => NaN
  end.

(** [a * b] *)
Definition nmul (a b : number) : number :=
  match a, b with
  | NaN, _ | _, NaN => NaN
  | Fin x, Fin y => Fin (rnd (x * y))
  | Fin x, Infinity s | Infinity s, Fin x =>
      if Qzero x then NaN else Infinity (xorb s (Qneg x))
  | Infinity s, Infinity s' => Infinity (xorb s s')
  end.

(** [a + b] *)
Definition nadd (a b : number) : number :=
  match a, b with
  | NaN, _ | _, NaN => NaN
  | Fin x, Fin y => Fin (rnd (x + y))
  | Fin _, Infinity s | Infinity s, Fin _ => Infinity s
  | Infinity s, Infinity s' => if Bool.eqb s s' then Infinity s else NaN
  end.

(** [Math.floor] and [Math.ceil], for the finite arguments they receive in
    this program (every call site divides by a non-zero number); the
    result is an integer. *)
Definition Math_floor (x : number) : Z :=
  match x with Fin q => Qfloor q | _ => 0 end.

Definition Math_ceil (x : number) : Z :=
  match x with Fin q => Qceiling q | _ => 0 end.

(** ** Number.prototype.toFixed(2) *)

Definition showN (n : Z) : string :=
  NilZero.string_of_uint (N.to_uint (Z.to_N n)).

(** The integer [n] for which [n / 100 - x] is closest to zero, the larger
    one when there are two ([x >= 0]). *)
Definition hundredths (x : Q) : Z := Qfloor (x * 100 + (1 # 2)).

(** Steps 11.b and 11.c of toFixed for two fraction digits: the digits of
    [n], padded to three, with the point before the last two. *)
Definition showFixed2 (n : Z) : string :=
  let frac := n mod 100 in
  (showN (n / 100) ++ "." ++ showN (frac / 10) ++ showN (frac mod 10))%string.

(** Number::toString for a double [x >= 10^21]: the shortest digit string
    [s] of length [k] with [s * 10^(n-k)] rounding to [x], in exponent
    notation. *)
Definition digitsOf (x : Q) (n k : Z) : option Z :=
  let scale := inject_Z (10 ^ (n - k)) in
  let s := roundHalfEven (x / scale) in
  if (10 ^ (k - 1) <=? s) && (s <? 10 ^ k)
     && Qeq_bool (rnd (inject_Z s * scale)) x
  then Some s else None.

Fixpoint shortest (x : Q) (n : Z) (ks : list Z) : string :=
  match ks with
  | [] => ""
  | k :: ks' =>
      match digitsOf x n k with
      | Some s =>
          let ds := showN s in
          let mant :=
            match ds with
            | String d EmptyString => ds
            | String d rest => String d ("." ++ rest)
            | EmptyString => ds
            end in
          (mant ++ "e+" ++ showN (n - 1))%string
      | None => shortest x n ks'
      end
  end.

Definition toStringLarge (x : Q) : string :=
  let n := Z.of_nat (String.length (showN (Qfloor x))) in
  shortest x n (map Z.of_nat (seq 1 17)).

Definition toFixed2 (x : number) : string :=
  match x with
  | NaN => "NaN"
  | Infinity false => "Infinity"
  | Infinity true => "-Infinity"
  | Fin q =>
      let s := if Qneg q then "-"%string else ""%string in
      let a := Qabs q in
      if Qle_bool (inject_Z (10 ^ 21)) a then (s ++ toStringLarge a)%string
      else (s ++ showFixed2 (hundredths a))%string
  end.

(** ** Reading the fixed notation back

    [Number(s)] for a string of digits, a point and two digits, as a number
    of hundredths. *)

Definition readN (s : string) : option Z :=
  option_map (fun u => Z.of_N (N.of_uint u)) (NilEmpty.uint_of_string s).

Fixpoint splitDot (s : string) : option (string * string) :=
  match s with
  | EmptyString => None
  | String c rest =>
      if Ascii.eqb c "."%char then Some (EmptyString, rest)
      else option_map (fun '(a, b) => (String c a, b)) (splitDot rest)
  end.

Definition readFixed2 (s : string) : option Z :=
  match splitDot s with
  | Some (ip, fp) =>
      match readN ip, readN fp with
      | Some i, Some f =>
          if (String.length fp =? 2)%nat && negb (String.length ip =? 0)%nat
          then Some (i * 100 + f) else None
      | _, _ => None
      end
  | None => None
  end.

(** The same with a leading minus sign. *)
Definition readCents (s : string) : option Z :=
  match s with
  | EmptyString => None
  | String c rest =>
      if Ascii.eqb c "-"%char then option_map Z.opp (readFixed2 rest)
      else readFixed2 s
  end.

(** The value of a primitive binary64 float, used to compare [rnd] with
    the hardware arithmetic on concrete inputs. *)
Definition SF2Q (f : spec_float) : option Q :=
  match f with
  | S754_zero _ => Some 0%Q
  | S754_finite s m e =>
      Some ((if s then -(1) else 1) * inject_Z (Zpos m) * 2 ^ e)%Q
  | _ => None
  end.

Definition valueOf (f : float) : option Q := option_map Qred (SF2Q (Prim2SF f)).

(** ** Number.prototype.toFixed(1) *)

(** The integer [n] for which [n / 10 - x] is closest to zero, the larger
    one when there are two ([x >= 0]). *)
Definition tenths (x : Q) : Z := Qfloor (x * 10 + (1 # 2)).

Definition showFixed1 (n : Z) : string :=
  (showN (n / 10) ++ "." ++ showN (n mod 10))%string.

Definition toFixed1 (x : number) : string :=
  match x with
  | NaN => "NaN"
  | Infinity false => "Infinity"
  | Infinity true => "-Infinity"
  | Fin q =>
      let s := if Qneg q then "-"%string else ""%string in
      let a := Qabs q in
      if Qle_bool (inject_Z (10 ^ 21)) a then (s ++ toStringLarge a)%string
      else (s ++ showFixed1 (tenths a))%string
  end.

(** ** Negation, subtraction and comparison *)

Definition nneg (a : number) : number :=
  match a with
  | NaN => NaN
  | Fin x => Fin (- x)
  | Infinity s => Infinity (negb s)
  end.

(** [a - b] *)
Definition nsub (a b : number) : number := nadd a (nneg b).

(** [a < b]; a comparison with NaN is false. *)
Definition nlt (a b : number) : bool :=
  match a, b with
  | NaN, _ | _, NaN => false
  | Fin x, Fin y => negb (Qle_bool y x)
  | Fin _, Infinity s => negb s
  | Infinity s, Fin _ => s
  | Infinity s, Infinity s' => s && negb s'
  end.

(** [a > b], [a <= b] and [a >= b] *)
Definition ngt (a b : number) : bool := nlt b a.

Definition nle (a b : number) : bool :=
  match a, b with
  | NaN, _ | _, NaN => false
  | _, _ => negb (nlt b a)
  end.

Definition nge (a b : number) : bool := nle b a.

(** [a === b] on numbers *)
Definition nstrictEq (a b : number) : bool :=
  match a, b with
  | Fin x, Fin y => Qeq_bool x y
  | Infinity s, Infinity s' => Bool.eqb s s'
  | _, _ => false
  end.

(** ** parseFloat

    Strings are sequences of bytes; the white space of the language
    outside ASCII is recognised in its UTF-8 encoding.  A literal of more
    than 20 significant digits is rounded from its exact value, one of the
    two values the language allows and the one the engines return. *)

Definition isDigit (c : ascii) : bool :=
  match uint_of_char c (Some Decimal.Nil) with Some _ => true | None => false end.

(** The longest prefix of decimal digits and the rest. *)
Fixpoint spanDigits (s : string) : string * string :=
  match s with
  | EmptyString => (EmptyString, EmptyString)
  | String c rest =>
      if isDigit c
      then let '(d, r) := spanDigits rest in (String c d, r)
      else (EmptyString, s)
  end.

(** The mathematical value of a string of digits; 0 for none. *)
Definition digitsValue (s : string) : Z :=
  match readN s with Some v => v | None => 0 end.

(** One WhiteSpace or LineTerminator code point at the head of [s]: TAB,
    LF, VT, FF, CR, SP, NBSP, U+1680, U+2000 to U+200A, LS, PS, U+202F,
    U+205F, U+3000 and ZWNBSP. *)
Definition dropWhiteSpace (s : string) : option string :=
  match s with
  | String c rest =>
      let n := nat_of_ascii c in
      if ((9 <=? n) && (n <=? 13) || (n =? 32))%nat then Some rest
      else if (n <? 128)%nat then None
      else
        match map nat_of_ascii (list_ascii_of_string (substring 0 3 s)) with
        | 194%nat :: 160%nat :: _ => Some (substring 2 (String.length s - 2) s)
        | 225%nat :: 154%nat :: 128%nat :: _
        | 226%nat :: 128%nat :: 168%nat :: _
        | 226%nat :: 128%nat :: 169%nat :: _
        | 226%nat :: 128%nat :: 175%nat :: _
        | 226%nat :: 129%nat :: 159%nat :: _
        | 227%nat :: 128%nat :: 128%nat :: _
        | 239%nat :: 187%nat :: 191%nat :: _ =>
            Some (substring 3 (String.length s - 3) s)
        | 226%nat :: 128%nat :: b :: _ =>
            if ((128 <=? b) && (b <=? 138))%nat
            then Some (substring 3 (String.length s - 3) s) else None
        | _ => None
        end
  | EmptyString => None
  end.

(** [TrimString(s, start)]; the fuel is the length of the string. *)
Fixpoint trimStartFuel (fuel : nat) (s : string) : string :=
  match fuel with
  | O => s
  | S fuel' =>
      match dropWhiteSpace s with
      | Some rest => trimStartFuel fuel' rest
      | None => s
      end
  end.

Definition trimStart (s : string) : string := trimStartFuel (String.length s) s.

(** The exponent of the ExponentPart that [s] starts with, 0 when it
    starts with none. *)
Definition exponentPart (s : string) : Z :=
  match s with
  | String c rest =>
      if (Ascii.eqb c "e" || Ascii.eqb c "E")%bool
      then
        let '(sign, digits) :=
          match rest with
          | String c' rest' =>
              if Ascii.eqb c' "+" then (1, rest')
              else if Ascii.eqb c' "-" then (-1, rest')
              else (1, rest)
          | EmptyString => (1, rest)
          end in
        let '(d, _) := spanDigits digits in
        match d with
        | EmptyString => 0
        | _ => sign * digitsValue d
        end
      else 0
  | EmptyString => 0
  end.

(** The value of the longest prefix of [s] that is a
    StrUnsignedDecimalLiteral, if there is one. *)
Definition strUnsignedDecimalLiteral (s : string) : option number :=
  if String.prefix "Infinity" s then Some (Infinity false)
  else
    let '(ip, r1) := spanDigits s in
    match r1 with
    | String "."%char r2 =>
        let '(fp, r3) := spanDigits r2 in
        match ip, fp with
        | EmptyString, EmptyString => None
        | _, EmptyString =>
            Some (Fin (rnd (inject_Z (digitsValue ip) * 10 ^ exponentPart r3)))
        | _, _ =>
            Some (Fin (rnd ((inject_Z (digitsValue ip)
                             + inject_Z (digitsValue fp)
                               / inject_Z (10 ^ Z.of_nat (String.length fp)))
                            * 10 ^ exponentPart r3)))
        end
    | _ =>
        match ip with
        | EmptyString => None
        | _ => Some (Fin (rnd (inject_Z (digitsValue ip) * 10 ^ exponentPart r1)))
        end
    end.

Definition parseFloat (s : string) : number :=
  let t := trimStart s in
  let signed :=
    match t with
    | String c rest =>
        if Ascii.eqb c "-" then (true, rest)
        else if Ascii.eqb c "+" then (false, rest)
        else (false, t)
    | EmptyString => (false, t)
    end in
  match strUnsignedDecimalLiteral (snd signed) with
  | Some v => if fst signed then nneg v else v
  | None => NaN
  end.

(** ** Number(string)

    The value of a string where a number is wanted: the string without
    the white space at its ends must be empty (the value is 0) or a
    StrNumericLiteral, a signed decimal literal or an unsigned literal of
    base 16, 8 or 2; the value of any other string is NaN. *)

(** The exponent of the ExponentPart that [s] starts with and the rest of
    [s]; exponent 0 and [s] itself when it starts with none. *)
Definition scanExponent (s : string) : Z * string :=
  match s with
  | String c rest =>
      if (Ascii.eqb c "e" || Ascii.eqb c "E")%bool
      then
        let '(sign, digits) :=
          match rest with
          | String c' rest' =>
              if Ascii.eqb c' "+" then (1, rest')
              else if Ascii.eqb c' "-" then (-1, rest')
              else (1, rest)
          | EmptyString => (1, rest)
          end in
        let '(d, r) := spanDigits digits in
        match d with
        | EmptyString => (0, s)
        | _ => (sign * digitsValue d, r)
        end
      else (0, s)
  | EmptyString => (0, s)
  end.

(** The value of the longest prefix of [s] that is a
    StrUnsignedDecimalLiteral, and the rest of [s]. *)
Definition scanUnsignedDecimalLiteral (s : string) : option (number * string) :=
  if String.prefix "Infinity" s
  then Some (Infinity false, substring 8 (String.length s - 8) s)
  else
    let '(ip, r1) := spanDigits s in
    match r1 with
    | String "."%char r2 =>
        let '(fp, r3) := spanDigits r2 in
        match ip, fp with
        | EmptyString, EmptyString => None
        | _, _ =>
            let '(e, r4) := scanExponent r3 in
            Some (Fin (rnd ((inject_Z (digitsValue ip)
                             + inject_Z (digitsValue fp)
                               / inject_Z (10 ^ Z.of_nat (String.length fp)))
                            * 10 ^ e)), r4)
        end
    | _ =>
        match ip with
        | EmptyString => None
        | _ =>
            let '(e, r2) := scanExponent r1 in
            Some (Fin (rnd (inject_Z (digitsValue ip) * 10 ^ e)), r2)
        end
    end.

(** The value of the digit [c] in base [radix]. *)
Definition digitOfRadix (radix : Z) (c : ascii) : option Z :=
  let n := Z.of_nat (nat_of_ascii c) in
  let d :=
    if (48 <=? n) && (n <=? 57) then Some (n - 48)
    else if (97 <=? n) && (n <=? 102) then Some (n - 87)
    else if (65 <=? n) && (n <=? 70) then Some (n - 55)
    else None in
  match d with
  | Some v => if v <? radix then Some v else None
  | None => None
  end.

Fixpoint scanRadix (radix acc : Z) (s : string) : Z * string :=
  match s with
  | String c rest =>
      match digitOfRadix radix c with
      | Some d => scanRadix radix (acc * radix + d) rest
      | None => (acc, s)
      end
  | EmptyString => (acc, s)
  end.

(** A NonDecimalIntegerLiteral at the head of [s]: [0x], [0o] or [0b] (in
    either case) and at least one digit of the base. *)
Definition scanNonDecimalIntegerLiteral (s : string) : option (number * string) :=
  match s with
  | String "0"%char (String c rest) =>
      let radix :=
        if (Ascii.eqb c "x" || Ascii.eqb c "X")%bool then 16
        else if (Ascii.eqb c "o" || Ascii.eqb c "O")%bool then 8
        else if (Ascii.eqb c "b" || Ascii.eqb c "B")%bool then 2
        else 0 in
      let '(v, r) := scanRadix radix 0 rest in
      if (String.length r <? String.length rest)%nat
      then Some (Fin (rnd (inject_Z v)), r) else None
  | _ => None
  end.

Definition isEmpty (s : string) : bool :=
  match s with EmptyString => true | String _ _ => false end.

(** [StringToNumber]: the literal must be the whole string but for white
    space at its ends. *)
Definition StringToNumber (s : string) : number :=
  let t := trimStart s in
  if isEmpty t then ofZ 0
  else
    match scanNonDecimalIntegerLiteral t with
    | Some (v, rest) => if isEmpty (trimStart rest) then v else NaN
    | None =>
        let signed :=
          match t with
          | String c rest =>
              if Ascii.eqb c "-" then (true, rest)
              else if Ascii.eqb c "+" then (false, rest)
              else (false, t)
          | EmptyString => (false, t)
          end in
        match scanUnsignedDecimalLiteral (snd signed) with
        | Some (v, rest) =>
            if isEmpty (trimStart rest)
            then (if fst signed then nneg v else v) else NaN
        | None => NaN
        end
    end.

(** ** The operator + on a number or a string

    A value of type [number | string] whose numbers are integers (the
    literal 0 and sums of it), modelled as [Z] like the other integers of
    the program: Number::toString writes such a number with its decimal
    digits.  With a string operand [+] concatenates the strings of the
    operands, otherwise it adds the numbers. *)
Definition showInt (z : Z) : string :=
  if z <? 0 then ("-" ++ showN (- z))%string else showN z.

Definition toStr (v : Z + string) : string :=
  match v with inl z => showInt z | inr s => s end.

Definition plusOp (a b : Z + string) : Z + string :=
  match a, b with
  | inl x, inl y => inl (x + y)
  | _, _ => inr (toStr a ++ toStr b)%string
  end.

(** The number that an arithmetic operator other than [+] reads from the
    value. *)
Definition toNumber (v : Z + string) : number :=
  match v with inl z => ofZ z | inr s => StringToNumber s end.

End JS.

Import JS.

(* ================================================================== *)
(** * The tables of schema.ts *)
(* ================================================================== *)

(** Only the columns the analytics router reads are kept.  Timestamps are
    milliseconds since the epoch, the resolution of the [Date] bounds they
    are compared with. *)

Module User.
Record t := mk { id : string; name : option string; email : string }.
End User.

Module Account.
Record t := mk { userId : string; provider : string; providerAccountId : string }.
End Account.

Module MessageLog.
Record t := mk { id : Z; userId : string; createdAt : Z }.
End MessageLog.

Module RequestLog.
Record t := mk {
    id : Z; userId : string; action : string; statusCode : Z;
    success : bool; error : option string; createdAt : Z }.
End RequestLog.

Module UserCredit.
Record t := mk { userId : string; balance : Z }.
End UserCredit.

Module PaymentIntent.
Record t := mk {
    id : Z; userId : string; tier : string; status : string;
    providerPaymentId : option string; createdAt : Z; completedAt : option Z }.
End PaymentIntent.

Module PaymentRecord.
Record t := mk {
    id : Z; userId : string; providerPaymentId : string; status : string;
    amountCents : Z; createdAt : Z }.
End PaymentRecord.

Record Db := mkDb {
  users : list User.t;
  accounts : list Account.t;
  messageLogs : list MessageLog.t;
  requestLogs : list RequestLog.t;
  userCredits : list UserCredit.t;
  paymentIntents : list PaymentIntent.t;
  paymentRecords : list PaymentRecord.t }.

(** The primary keys the segmentation query relies on. *)
Record wellFormed (db : Db) : Prop := {
  users_pk : NoDup (map User.id (users db));
  userCredits_pk : NoDup (map UserCredit.userId (userCredits db));
  paymentRecords_pk : NoDup (map PaymentRecord.id (paymentRecords db)) }.

(* ================================================================== *)
(** * SQL operators *)
(* ================================================================== *)

Class EqDec (A : Type) := eq_dec : forall x y : A, {x = y} + {x <> y}.

#[export] Instance string_EqDec : EqDec string := string_dec.
#[export] Instance Z_EqDec : EqDec Z := Z.eq_dec.
#[export] Instance bool_EqDec : EqDec bool := bool_dec.

#[export] Instance option_EqDec {A} `{EqDec A} : EqDec (option A).
Proof. intros [x|] [y|]; try (right; discriminate); [|left; reflexivity].
  destruct (eq_dec x y); [left; congruence | right; congruence]. Defined.

#[export] Instance prod_EqDec {A B} `{EqDec A} `{EqDec B} : EqDec (A * B).
Proof. intros [a b] [a' b'].
  destruct (eq_dec a a'); [|right; congruence].
  destruct (eq_dec b b'); [left; congruence | right; congruence]. Defined.

Definition eqb {A} `{EqDec A} (x y : A) : bool :=
  if eq_dec x y then true else false.

(** [l LEFT JOIN r ON on]: every row of [l] with each matching row of [r],
    or with NULL when none matches. *)
Definition leftJoin {A B} (l : list A) (r : list B) (on : A -> B -> bool)
  : list (A * option B) :=
  flat_map (fun a =>
    match filter (on a) r with
    | [] => [(a, None)]
    | bs => map (fun b => (a, Some b)) bs
    end) l.

(** The distinct values of a list, in order of first occurrence. *)
Fixpoint distinct {K} `{EqDec K} (l : list K) : list K :=
  match l with
  | [] => []
  | k :: l' => k :: filter (fun k' => negb (eqb k' k)) (distinct l')
  end.

(** [GROUP BY key]: one group per distinct key, holding its rows. *)
Definition groupBy {A K} `{EqDec K} (key : A -> K) (rows : list A)
  : list (K * list A) :=
  map (fun k => (k, filter (fun a => eqb (key a) k) rows))
      (distinct (map key rows)).

(** [COUNT( * )] and [COUNT(CASE WHEN p THEN 1 END)] over a group. *)
Definition count {A} (rows : list A) : Z := Z.of_nat (List.length rows).
Definition countIf {A} (p : A -> bool) (rows : list A) : Z :=
  Z.of_nat (List.length (filter p rows)).

(** [SUM(col)]: NULL over no rows. *)
Definition sum {A} (col : A -> Z) (rows : list A) : option Z :=
  match rows with
  | [] => None
  | _ => Some (fold_left (fun acc a => acc + col a) rows 0)
  end.

(** [ORDER BY]: a stable sort by [le]. *)
Fixpoint insertBy {A} (le : A -> A -> bool) (x : A) (l : list A) : list A :=
  match l with
  | [] => [x]
  | y :: l' => if le x y then x :: l else y :: insertBy le x l'
  end.

Definition orderBy {A} (le : A -> A -> bool) (l : list A) : list A :=
  fold_right (insertBy le) [] l.

(** [gte(col, startDate) AND lte(col, endDate)] *)
Definition between (startDate endDate t : Z) : bool :=
  (startDate <=? t) && (t <=? endDate).

Definition isSome {A} (o : option A) : bool :=
  match o with Some _ => true | None => false end.

(** [array.reduce((sum, x) => sum + f(x), 0)] on integer-valued fields. *)
Definition reduceSum {A} (f : A -> Z) (l : list A) : Z :=
  fold_left (fun sum x => sum + f x) l 0.

(* ================================================================== *)
(** * analytics.ts *)
(* ================================================================== *)

(** The period tokens of [z.enum]. *)
Inductive Period : Type := P7d | P30d | P90d | P1y.

Definition periodToken (p : Period) : string :=
  match p with P7d => "7d" | P30d => "30d" | P90d => "90d" | P1y => "1y" end.

Record DateRange := { startDate : Z; endDate : Z }.

(** [getDateRange]; [now] is the value of [new Date()]. *)
Definition getDateRange (now : Z) (period : Period) : DateRange :=
  let daysBack :=
    match period with P7d => 7 | P30d => 30 | P90d => 90 | P1y => 365 end in
  {| startDate := now - daysBack * 24 * 60 * 60 * 1000; endDate := now |}.

(** A ratio guarded the way the router guards every percentage:
    [den > 0 ? ((num / den) * 100).toFixed(2) : "0"]. *)
Definition percentOf (num den : Z) : string :=
  if den >? 0
  then toFixed2 (nmul (ndiv (ofZ num) (ofZ den)) (ofZ 100))
  else "0"%string.

(** ** Result shapes

    An object built with a spread, [{ ...row, extra }], is the record of the
    row and of the added field. *)

Module UserGrowth.
Record DailySignup := { date : string; count : Z }.
Record t := {
  dailySignups : list DailySignup; totalUsers : Z;
  newUsersInPeriod : Z; growthRate : string }.
End UserGrowth.

Module UserRetention.
Record Row := {
  day : Z; retentionRate : string; retainedCount : Z; totalNewUsers : Z }.
End UserRetention.

Module UserEngagement.
Record PerUser := { userId : string; messageCount : Z; userName : option string }.
Record Daily := { date : Z; activeUsers : Z }.
Record t := {
  messagesPerUser : list PerUser; dailyActiveUsers : list Daily;
  avgMessagesPerUser : string; totalActiveUsers : Z }.
End UserEngagement.

Module AuthenticationPatterns.
Record Row := { provider : string; count : Z }.
Record Stat := { row : Row; percentage : string }.
Record t := { providerStats : list Stat; totalAccounts : Z }.
End AuthenticationPatterns.

Module MessageVolume.
Module Hourly.
Record t := { hour : Z; count : Z }.
End Hourly.
Record Daily := { date : Z; count : Z; hour : Z }.
Record t := {
  dailyMessages : list Daily; hourlyStats : list Hourly.t; totalMessages : Z }.
End MessageVolume.

Module UserSegmentation.
Record Row := {
  userId : string; userName : option string; email : string;
  credits : option Z; totalMessages : Z; hasPaid : bool }.
Record Segments := {
  free : list Row; paid : list Row; heavy : list Row; light : list Row }.
Record t := {
  freeUsers : Z; paidUsers : Z; heavyUsers : Z; lightUsers : Z;
  segments : Segments }.
End UserSegmentation.

Module ConversionFunnel.
Record Rates := {
  registrationToFirstMessage : string; firstMessageToPaymentIntent : string;
  paymentIntentToCompletion : string; overallConversion : string }.
Record t := {
  registrations : Z; firstMessage : Z; paymentIntent : Z;
  completedPayment : Z; conversionRates : Rates }.
End ConversionFunnel.

Module RevenueMetrics.
Record Row := { month : string; revenue : option Z; transactions : Z }.
Record Month := { row : Row; revenueInCurrency : string }.
Record t := {
  monthlyRevenue : list Month; totalRevenue : string; arpu : string;
  uniquePayingUsers : Z }.
End RevenueMetrics.

Module PaymentAnalysis.
Record Tier := { tier : string; totalAttempts : Z; successful : Z }.
Record TierStat := { row : Tier; successRate : string }.
Record Sample := {
  paymentIntentId : Z; sampleTier : string; timeToComplete : option string }.
Record t := {
  tierStats : list TierStat; averageProcessingTime : string;
  processingTimes : list Sample }.
End PaymentAnalysis.

Module SystemHealth.
Module Api.
Record t := {
  action : string; totalRequests : Z; successfulRequests : Z;
  avgResponseTime : Q }.
End Api.
Record ApiStat := { row : Api.t; successRate : string }.
Record ErrorPattern := { error : option string; statusCode : Z; count : Z }.
Record t := {
  apiStats : list ApiStat; errorPatterns : list ErrorPattern;
  totalRequests : Z }.
End SystemHealth.

Module RateLimitingImpact.
Record Day := { userId : string; date : Z; messageCount : Z }.
Record t := {
  totalDaysWithLimitHits : Z; uniqueUsersAffected : Z;
  averageMessagesOnLimitDays : string; dailyLimitHits : list Day }.
End RateLimitingImpact.

(** ** The queries *)

Section Router.

(** [DATE(ts)] of the database session, as a day number;
    [TO_CHAR(ts, 'YYYY-MM')]; and [date.toISOString().split('T')[0]]. *)
Variable DATE : Z -> Z.
Variable TO_CHAR_YYYY_MM : Z -> string.
Variable isoDate : Z -> string.

(** [EXTRACT(HOUR FROM ts)] of the database session. *)
Variable HOUR : Z -> Z.

(** [EXTRACT(EPOCH FROM interval)] for an interval of the given number of
    milliseconds, as the database driver hands it to the program: the text
    of a numeric, a string. *)
Variable EXTRACT_EPOCH : Z -> string.

(** The clock reading [now] of [getDateRange]. *)
Variable now : Z.

(** *** userGrowth

    [now'] is the second clock reading (line 35) and [random i] the value
    of the call of [Math.random] for bucket [i]. *)

Definition elapsedDays (now' : Z) (period : Period) : Z :=
  let startDate := startDate (getDateRange now period) in
  Math_ceil (ndiv (ofZ (now' - startDate)) (ofZ (1000 * 60 * 60 * 24))).

Definition avgDailySignups (db : Db) (now' : Z) (period : Period) : Z :=
  let totalUsers := count (users db) in
  Math_floor (ndiv (ofZ totalUsers) (ofZ (Z.max (elapsedDays now' period) 1))).

(** The jitter factor [0.8 + Math.random() * 0.4]. *)
Definition jitter (r : Q) : number :=
  nadd (lit (8 # 10)) (nmul (Fin r) (lit (4 # 10))).

Definition userGrowth (db : Db) (now' : Z) (random : nat -> Q)
    (period : Period) : UserGrowth.t :=
  let totalUsers := count (users db) in
  let startDate := startDate (getDateRange now period) in
  let days := elapsedDays now' period in
  let avgDailySignups := avgDailySignups db now' period in
  let dailySignups :=
    map (fun i =>
      let date := startDate + Z.of_nat i * 24 * 60 * 60 * 1000 in
      {| UserGrowth.date := isoDate date;
         UserGrowth.count :=
           Math_floor (nmul (ofZ avgDailySignups) (jitter (random i))) |})
      (seq 0 (Z.to_nat (Z.min days 30))) in
  let newUsersInPeriod := reduceSum UserGrowth.count dailySignups in
  {| UserGrowth.dailySignups := dailySignups;
     UserGrowth.totalUsers := totalUsers;
     UserGrowth.newUsersInPeriod := newUsersInPeriod;
     UserGrowth.growthRate :=
       if totalUsers =? 0 then "0"%string
       else toFixed2 (nmul (ndiv (ofZ newUsersInPeriod)
                                 (ofZ (Z.max (totalUsers - newUsersInPeriod) 1)))
                           (ofZ 100)) |}.

(** *** userRetention

    [totalUsers] is the result of the count query, of which the first row
    is read: [totalUsers[0]?.count ?? 100].  The period of the input is not
    used. *)

Definition userRetentionOf (totalUsers : list Z) : list UserRetention.Row :=
  let userCount := match totalUsers with c :: _ => c | [] => 100 end in
  map (fun days =>
         let retentionRate :=
           if days =? 1 then 85 else if days =? 7 then 45 else 25 in
         let retainedCount :=
           Math_floor (nmul (ofZ userCount) (ndiv (ofZ retentionRate) (ofZ 100))) in
         {| UserRetention.day := days;
            UserRetention.retentionRate := toFixed2 (ofZ retentionRate);
            UserRetention.retainedCount := retainedCount;
            UserRetention.totalNewUsers := userCount |})
      [1; 7; 30].

Definition userRetention (db : Db) : list UserRetention.Row :=
  userRetentionOf [count (users db)].

(** *** userEngagement *)

(** A guarded mean: [n > 0 ? (total / n).toFixed(2) : "0"]. *)
Definition average (total : Z) (n : Z) : string :=
  if n >? 0 then toFixed2 (ndiv (ofZ total) (ofZ n)) else "0"%string.

Definition messagesPerUserRows (db : Db) (period : Period)
  : list UserEngagement.PerUser :=
  let r := getDateRange now period in
  let joined :=
    filter (fun '(m, _) => between (startDate r) (endDate r) (MessageLog.createdAt m))
      (leftJoin (messageLogs db) (users db)
         (fun m u => eqb (MessageLog.userId m) (User.id u))) in
  let groups :=
    groupBy (fun '(m, u) =>
               (MessageLog.userId m,
                match u with Some u => User.name u | None => None end))
            joined in
  orderBy (fun a b => UserEngagement.messageCount b <=? UserEngagement.messageCount a)
    (map (fun '((userId, userName), g) =>
            {| UserEngagement.userId := userId;
               UserEngagement.messageCount := count g;
               UserEngagement.userName := userName |}) groups).

Definition dailyActiveUsersRows (db : Db) (period : Period)
  : list UserEngagement.Daily :=
  let r := getDateRange now period in
  let rows :=
    filter (fun m => between (startDate r) (endDate r) (MessageLog.createdAt m))
      (messageLogs db) in
  orderBy (fun a b => UserEngagement.date a <=? UserEngagement.date b)
    (map (fun '(d, g) =>
            {| UserEngagement.date := d;
               UserEngagement.activeUsers :=
                 count (distinct (map MessageLog.userId g)) |})
         (groupBy (fun m => DATE (MessageLog.createdAt m)) rows)).

Definition userEngagement (db : Db) (period : Period) : UserEngagement.t :=
  let messagesPerUser := messagesPerUserRows db period in
  let avgMessages :=
    average (reduceSum UserEngagement.messageCount messagesPerUser)
            (count messagesPerUser) in
  {| UserEngagement.messagesPerUser := firstn 20 messagesPerUser;
     UserEngagement.dailyActiveUsers := dailyActiveUsersRows db period;
     UserEngagement.avgMessagesPerUser := avgMessages;
     UserEngagement.totalActiveUsers := count messagesPerUser |}.

(** *** authenticationPatterns *)

Definition providerStatsRows (db : Db) : list AuthenticationPatterns.Row :=
  orderBy (fun a b => AuthenticationPatterns.count b <=? AuthenticationPatterns.count a)
    (map (fun '(p, g) =>
            {| AuthenticationPatterns.provider := p;
               AuthenticationPatterns.count := count g |})
         (groupBy Account.provider (accounts db))).

Definition authenticationPatternsOf (providerStats : list AuthenticationPatterns.Row)
  : AuthenticationPatterns.t :=
  let totalAccounts := reduceSum AuthenticationPatterns.count providerStats in
  {| AuthenticationPatterns.providerStats :=
       map (fun provider =>
              {| AuthenticationPatterns.row := provider;
                 AuthenticationPatterns.percentage :=
                   percentOf (AuthenticationPatterns.count provider) totalAccounts |})
           providerStats;
     AuthenticationPatterns.totalAccounts := totalAccounts |}.

Definition authenticationPatterns (db : Db) : AuthenticationPatterns.t :=
  authenticationPatternsOf (providerStatsRows db).

(** *** messageVolume *)

Definition messagesInRange (db : Db) (period : Period) : list MessageLog.t :=
  let r := getDateRange now period in
  filter (fun m => between (startDate r) (endDate r) (MessageLog.createdAt m))
         (messageLogs db).

(** [ORDER BY DATE(createdAt), EXTRACT(HOUR FROM createdAt)] *)
Definition dailyMessagesRows (db : Db) (period : Period)
  : list MessageVolume.Daily :=
  orderBy (fun a b =>
             (MessageVolume.date a <? MessageVolume.date b)
             || ((MessageVolume.date a =? MessageVolume.date b)
                 && (MessageVolume.hour a <=? MessageVolume.hour b)))
    (map (fun '((d, h), g) =>
            {| MessageVolume.date := d;
               MessageVolume.count := count g;
               MessageVolume.hour := h |})
         (groupBy (fun m => (DATE (MessageLog.createdAt m),
                             HOUR (MessageLog.createdAt m)))
                  (messagesInRange db period))).

Definition hourlyStatsRows (db : Db) (period : Period)
  : list MessageVolume.Hourly.t :=
  orderBy (fun a b => MessageVolume.Hourly.hour a <=? MessageVolume.Hourly.hour b)
    (map (fun '(h, g) =>
            {| MessageVolume.Hourly.hour := h;
               MessageVolume.Hourly.count := count g |})
         (groupBy (fun m => HOUR (MessageLog.createdAt m))
                  (messagesInRange db period))).

Definition messageVolumeOf (dailyMessages : list MessageVolume.Daily)
    (hourlyStats : list MessageVolume.Hourly.t) : MessageVolume.t :=
  {| MessageVolume.dailyMessages := dailyMessages;
     MessageVolume.hourlyStats := hourlyStats;
     MessageVolume.totalMessages := reduceSum MessageVolume.count dailyMessages |}.

Definition messageVolume (db : Db) (period : Period) : MessageVolume.t :=
  messageVolumeOf (dailyMessagesRows db period) (hourlyStatsRows db period).

(** *** userSegmentation *)

Definition SegmentJoin : Type :=
  ((User.t * option UserCredit.t) * option MessageLog.t) * option PaymentRecord.t.

Definition segmentJoin (db : Db) : list SegmentJoin :=
  leftJoin
    (leftJoin
       (leftJoin (users db) (userCredits db)
          (fun u c => eqb (User.id u) (UserCredit.userId c)))
       (messageLogs db)
       (fun '(u, _) m => eqb (User.id u) (MessageLog.userId m)))
    (paymentRecords db)
    (fun '((u, _), _) p => eqb (User.id u) (PaymentRecord.userId p)).

(** The grouping columns [users.id, users.name, users.email,
    userCredits.balance, paymentRecords.id]. *)
Definition segmentKey (r : SegmentJoin)
  : string * option string * string * option Z * option Z :=
  let '(((u, c), _), p) := r in
  (User.id u, User.name u, User.email u,
   option_map UserCredit.balance c, option_map PaymentRecord.id p).

Definition userSegments (db : Db) : list UserSegmentation.Row :=
  map (fun '((id, name, email, balance, paymentId), g) =>
         {| UserSegmentation.userId := id;
            UserSegmentation.userName := name;
            UserSegmentation.email := email;
            UserSegmentation.credits := balance;
            UserSegmentation.totalMessages :=
              countIf (fun '((_, m), _) => isSome m) g;
            UserSegmentation.hasPaid := isSome paymentId |})
      (groupBy segmentKey (segmentJoin db)).

Definition freeUsers (userSegments : list UserSegmentation.Row) :=
  filter (fun user => negb (UserSegmentation.hasPaid user)) userSegments.
Definition paidUsers (userSegments : list UserSegmentation.Row) :=
  filter (fun user => UserSegmentation.hasPaid user) userSegments.
Definition heavyUsers (userSegments : list UserSegmentation.Row) :=
  filter (fun user => UserSegmentation.totalMessages user >? 10) userSegments.
Definition lightUsers (userSegments : list UserSegmentation.Row) :=
  filter (fun user => UserSegmentation.totalMessages user <=? 10) userSegments.

Definition userSegmentationOf (userSegments : list UserSegmentation.Row)
  : UserSegmentation.t :=
  {| UserSegmentation.freeUsers := count (freeUsers userSegments);
     UserSegmentation.paidUsers := count (paidUsers userSegments);
     UserSegmentation.heavyUsers := count (heavyUsers userSegments);
     UserSegmentation.lightUsers := count (lightUsers userSegments);
     UserSegmentation.segments :=
       {| UserSegmentation.free := firstn 10 (freeUsers userSegments);
          UserSegmentation.paid := firstn 10 (paidUsers userSegments);
          UserSegmentation.heavy := firstn 10 (heavyUsers userSegments);
          UserSegmentation.light := firstn 10 (lightUsers userSegments) |} |}.

Definition userSegmentation (db : Db) : UserSegmentation.t :=
  userSegmentationOf (userSegments db).

(** *** conversionFunnel *)

Definition succeededInRange (db : Db) (period : Period) : list PaymentRecord.t :=
  let r := getDateRange now period in
  filter (fun p => between (startDate r) (endDate r) (PaymentRecord.createdAt p)
                   && eqb (PaymentRecord.status p) "succeeded"%string)
         (paymentRecords db).

Definition conversionFunnelOf (totalRegistrations firstMessageUsers
    paymentIntentUsers completedPaymentUsers : Z) : ConversionFunnel.t :=
  {| ConversionFunnel.registrations := totalRegistrations;
     ConversionFunnel.firstMessage := firstMessageUsers;
     ConversionFunnel.paymentIntent := paymentIntentUsers;
     ConversionFunnel.completedPayment := completedPaymentUsers;
     ConversionFunnel.conversionRates :=
       {| ConversionFunnel.registrationToFirstMessage :=
            percentOf firstMessageUsers totalRegistrations;
          ConversionFunnel.firstMessageToPaymentIntent :=
            percentOf paymentIntentUsers firstMessageUsers;
          ConversionFunnel.paymentIntentToCompletion :=
            percentOf completedPaymentUsers paymentIntentUsers;
          ConversionFunnel.overallConversion :=
            percentOf completedPaymentUsers totalRegistrations |} |}.

Definition conversionFunnel (db : Db) (period : Period) : ConversionFunnel.t :=
  let r := getDateRange now period in
  let firstMessageUsers :=
    distinct (map MessageLog.userId
      (filter (fun m => between (startDate r) (endDate r) (MessageLog.createdAt m))
              (messageLogs db))) in
  let paymentIntentUsers :=
    distinct (map PaymentIntent.userId
      (filter (fun p => between (startDate r) (endDate r) (PaymentIntent.createdAt p))
              (paymentIntents db))) in
  let completedPaymentUsers :=
    distinct (map PaymentRecord.userId (succeededInRange db period)) in
  conversionFunnelOf (count (users db)) (count firstMessageUsers)
    (count paymentIntentUsers) (count completedPaymentUsers).

(** *** revenueMetrics *)

Definition monthlyRevenueRows (db : Db) (period : Period)
  : list RevenueMetrics.Row :=
  orderBy (fun a b => String.leb (RevenueMetrics.month a) (RevenueMetrics.month b))
    (map (fun '(m, g) =>
            {| RevenueMetrics.month := m;
               RevenueMetrics.revenue := sum PaymentRecord.amountCents g;
               RevenueMetrics.transactions := count g |})
         (groupBy (fun p => TO_CHAR_YYYY_MM (PaymentRecord.createdAt p))
                  (succeededInRange db period))).

(** [Number(month.revenue ?? 0)]; [revenue] is the decimal string of the
    sum, or null. *)
Definition revenueCents (month : RevenueMetrics.Row) : Z :=
  match RevenueMetrics.revenue month with Some v => v | None => 0 end.

Definition revenueMetricsOf (monthlyRevenue : list RevenueMetrics.Row)
    (uniquePayingUsers : Z) : RevenueMetrics.t :=
  let totalRevenue := reduceSum revenueCents monthlyRevenue in
  let arpu :=
    if uniquePayingUsers >? 0
    then toFixed2 (ndiv (ndiv (ofZ totalRevenue) (ofZ uniquePayingUsers)) (ofZ 100))
    else "0"%string in
  {| RevenueMetrics.monthlyRevenue :=
       map (fun month =>
              {| RevenueMetrics.row := month;
                 RevenueMetrics.revenueInCurrency :=
                   match RevenueMetrics.revenue month with
                   | Some v => toFixed2 (ndiv (ofZ v) (ofZ 100))
                   | None => "0"%string
                   end |}) monthlyRevenue;
     RevenueMetrics.totalRevenue := toFixed2 (ndiv (ofZ totalRevenue) (ofZ 100));
     RevenueMetrics.arpu := arpu;
     RevenueMetrics.uniquePayingUsers := uniquePayingUsers |}.

Definition revenueMetrics (db : Db) (period : Period) : RevenueMetrics.t :=
  revenueMetricsOf (monthlyRevenueRows db period)
    (count (distinct (map PaymentRecord.userId (succeededInRange db period)))).

(** *** paymentAnalysis *)

Definition tierStatsRows (db : Db) (period : Period) : list PaymentAnalysis.Tier :=
  let r := getDateRange now period in
  let joined :=
    filter (fun '(i, _) => between (startDate r) (endDate r) (PaymentIntent.createdAt i))
      (leftJoin (paymentIntents db) (paymentRecords db)
         (fun i p => match PaymentIntent.providerPaymentId i with
                     | Some id => eqb id (PaymentRecord.providerPaymentId p)
                     | None => false
                     end)) in
  map (fun '(t, g) =>
         {| PaymentAnalysis.tier := t;
            PaymentAnalysis.totalAttempts := count g;
            PaymentAnalysis.successful :=
              countIf (fun '(_, p) =>
                         match p with
                         | Some p => eqb (PaymentRecord.status p) "succeeded"%string
                         | None => false
                         end) g |})
      (groupBy (fun '(i, _) => PaymentIntent.tier i) joined).

(** [timeToComplete] is [EXTRACT(EPOCH FROM (completedAt - createdAt))],
    a string at run time (the type argument of [sql<number>] converts
    nothing), or null without [completedAt]. *)
Definition processingTimesRows (db : Db) (period : Period)
  : list PaymentAnalysis.Sample :=
  let r := getDateRange now period in
  map (fun i =>
         {| PaymentAnalysis.paymentIntentId := PaymentIntent.id i;
            PaymentAnalysis.sampleTier := PaymentIntent.tier i;
            PaymentAnalysis.timeToComplete :=
              option_map (fun c => EXTRACT_EPOCH (c - PaymentIntent.createdAt i))
                         (PaymentIntent.completedAt i) |})
      (filter (fun i => between (startDate r) (endDate r) (PaymentIntent.createdAt i)
                        && eqb (PaymentIntent.status i) "completed"%string)
              (paymentIntents db)).

Definition paymentAnalysisOf (tierStats : list PaymentAnalysis.Tier)
    (processingTimes : list PaymentAnalysis.Sample) : PaymentAnalysis.t :=
  {| PaymentAnalysis.tierStats :=
       map (fun tier =>
              {| PaymentAnalysis.row := tier;
                 PaymentAnalysis.successRate :=
                   percentOf (PaymentAnalysis.successful tier)
                             (PaymentAnalysis.totalAttempts tier) |}) tierStats;
     PaymentAnalysis.averageProcessingTime :=
       if count processingTimes >? 0
       then toFixed2
              (ndiv (ndiv (toNumber
                             (fold_left
                                (fun sum payment =>
                                   plusOp sum
                                     match PaymentAnalysis.timeToComplete payment with
                                     | Some t => inr t
                                     | None => inl 0
                                     end)
                                processingTimes (inl 0)))
                          (ofZ (count processingTimes)))
                    (ofZ 60))
       else "0"%string;
     PaymentAnalysis.processingTimes := firstn 100 processingTimes |}.

Definition paymentAnalysis (db : Db) (period : Period) : PaymentAnalysis.t :=
  paymentAnalysisOf (tierStatsRows db period) (processingTimesRows db period).

(** *** systemHealth *)

Definition requestsInRange (db : Db) (period : Period) : list RequestLog.t :=
  let r := getDateRange now period in
  filter (fun l => between (startDate r) (endDate r) (RequestLog.createdAt l))
         (requestLogs db).

Definition apiStatsRows (db : Db) (period : Period) : list SystemHealth.Api.t :=
  map (fun '(a, g) =>
         {| SystemHealth.Api.action := a;
            SystemHealth.Api.totalRequests := count g;
            SystemHealth.Api.successfulRequests := countIf RequestLog.success g;
            SystemHealth.Api.avgResponseTime :=
              Qred (inject_Z (countIf (fun l => RequestLog.statusCode l <? 400) g)
                    / inject_Z (count g)) |})
      (groupBy RequestLog.action (requestsInRange db period)).

Definition errorPatternsRows (db : Db) (period : Period)
  : list SystemHealth.ErrorPattern :=
  firstn 10
    (orderBy (fun a b => SystemHealth.count b <=? SystemHealth.count a)
       (map (fun '((e, c), g) =>
               {| SystemHealth.error := e;
                  SystemHealth.statusCode := c;
                  SystemHealth.count := count g |})
            (groupBy (fun l => (RequestLog.error l, RequestLog.statusCode l))
               (filter (fun l => eqb (RequestLog.success l) false)
                       (requestsInRange db period))))).

Definition systemHealthOf (apiStats : list SystemHealth.Api.t)
    (errorPatterns : list SystemHealth.ErrorPattern) : SystemHealth.t :=
  {| SystemHealth.apiStats :=
       map (fun stat =>
              {| SystemHealth.row := stat;
                 SystemHealth.successRate :=
                   percentOf (SystemHealth.Api.successfulRequests stat)
                             (SystemHealth.Api.totalRequests stat) |}) apiStats;
     SystemHealth.errorPatterns := errorPatterns;
     SystemHealth.totalRequests :=
       reduceSum SystemHealth.Api.totalRequests apiStats |}.

Definition systemHealth (db : Db) (period : Period) : SystemHealth.t :=
  systemHealthOf (apiStatsRows db period) (errorPatternsRows db period).

(** *** rateLimitingImpact *)

Definition dailyMessageCounts (db : Db) (period : Period)
  : list RateLimitingImpact.Day :=
  let r := getDateRange now period in
  map (fun '((u, d), g) =>
         {| RateLimitingImpact.userId := u;
            RateLimitingImpact.date := d;
            RateLimitingImpact.messageCount := count g |})
      (groupBy (fun m => (MessageLog.userId m, DATE (MessageLog.createdAt m)))
         (filter (fun m => between (startDate r) (endDate r) (MessageLog.createdAt m))
                 (messageLogs db))).

Definition usersHittingLimits (dailyMessageCounts : list RateLimitingImpact.Day) :=
  filter (fun day => RateLimitingImpact.messageCount day >=? 5) dailyMessageCounts.

Definition rateLimitingImpactOf (dailyMessageCounts : list RateLimitingImpact.Day)
  : RateLimitingImpact.t :=
  let usersHittingLimits := usersHittingLimits dailyMessageCounts in
  let uniqueUsersHittingLimits :=
    distinct (map RateLimitingImpact.userId usersHittingLimits) in
  {| RateLimitingImpact.totalDaysWithLimitHits := count usersHittingLimits;
     RateLimitingImpact.uniqueUsersAffected := count uniqueUsersHittingLimits;
     RateLimitingImpact.averageMessagesOnLimitDays :=
       average (reduceSum RateLimitingImpact.messageCount usersHittingLimits)
               (count usersHittingLimits);
     RateLimitingImpact.dailyLimitHits := firstn 50 usersHittingLimits |}.

Definition rateLimitingImpact (db : Db) (period : Period) : RateLimitingImpact.t :=
  rateLimitingImpactOf (dailyMessageCounts db period).

End Router.

(* ================================================================== *)
(** * utils.ts *)
(* ================================================================== *)

(** [typeof v === "string" ? parseFloat(v) : v] *)
Definition numberOf (v : number + string) : number :=
  match v with inl n => n | inr s => parseFloat s end.

Section Utils.

(** [Number.prototype.toString] *)
Variable Number_toString : number -> string.

Definition formatNumber (num : number + string) : string :=
  let numValue := numberOf num in
  if nge numValue (ofZ 1000000)
  then (toFixed1 (ndiv numValue (ofZ 1000000)) ++ "M")%string
  else if nge numValue (ofZ 1000)
  then (toFixed1 (ndiv numValue (ofZ 1000)) ++ "K")%string
  else Number_toString numValue.

End Utils.

Definition formatPercentage (percentage : number + string) : string :=
  let numPercentage := numberOf percentage in
  (toFixed1 numPercentage ++ "%")%string.

Definition getGrowthDirection (current previous : number) : string :=
  if ngt current previous then "up"%string
  else if nlt current previous then "down"%string
  else "neutral"%string.

Definition calculateGrowth (current previous : number) : number :=
  if nstrictEq previous (ofZ 0)
  then (if ngt current (ofZ 0) then ofZ 100 else ofZ 0)
  else nmul (ndiv (nsub current previous) previous) (ofZ 100).

(* ================================================================== *)
(** * The dashboard components *)
(* ================================================================== *)

(** The values that user-analytics.tsx and analytics-dashboard.tsx compute
    from the results of the queries; a result that has not arrived is
    [None]. *)

(** ** OperationalAnalytics *)

Definition overallSuccessRate (systemHealth : option SystemHealth.t) : number :=
  match systemHealth with
  | Some h =>
      if count (SystemHealth.apiStats h) >? 0
      then ndiv (fold_left (fun acc stat =>
                              nadd acc (parseFloat (SystemHealth.successRate stat)))
                           (SystemHealth.apiStats h) (ofZ 0))
                (ofZ (count (SystemHealth.apiStats h)))
      else ofZ 0
  | None => ofZ 0
  end.

Definition totalErrors (systemHealth : option SystemHealth.t) : Z :=
  match systemHealth with
  | Some h => reduceSum SystemHealth.count (SystemHealth.errorPatterns h)
  | None => 0
  end.

Definition getHealthStatus (successRate : number) : string :=
  if nge successRate (ofZ 99) then "good"%string
  else if nge successRate (ofZ 95) then "warning"%string
  else "error"%string.

(** The counts of the cards "Healthy Endpoints", "Warning Endpoints" and
    "Critical Endpoints". *)
Definition healthyEndpoints (systemHealth : option SystemHealth.t) : Z :=
  match systemHealth with
  | Some h =>
      count (filter (fun stat => nge (parseFloat (SystemHealth.successRate stat)) (ofZ 99))
                    (SystemHealth.apiStats h))
  | None => 0
  end.

Definition warningEndpoints (systemHealth : option SystemHealth.t) : Z :=
  match systemHealth with
  | Some h =>
      count (filter (fun stat =>
                       let rate := parseFloat (SystemHealth.successRate stat) in
                       nge rate (ofZ 95) && nlt rate (ofZ 99))
                    (SystemHealth.apiStats h))
  | None => 0
  end.

Definition criticalEndpoints (systemHealth : option SystemHealth.t) : Z :=
  match systemHealth with
  | Some h =>
      count (filter (fun stat => nlt (parseFloat (SystemHealth.successRate stat)) (ofZ 95))
                    (SystemHealth.apiStats h))
  | None => 0
  end.

(** ** UsageAnalytics *)

Module DailyMessageData.
Record t := { date : Z; count : Z }.
End DailyMessageData.

(** One step of the reduction: the first entry of the date of [curr] is
    increased in place, or a new entry is pushed. *)
Fixpoint addMessages (acc : list DailyMessageData.t) (curr : MessageVolume.Daily)
  : list DailyMessageData.t :=
  match acc with
  | [] => [{| DailyMessageData.date := MessageVolume.date curr;
              DailyMessageData.count := MessageVolume.count curr |}]
  | item :: rest =>
      if DailyMessageData.date item =? MessageVolume.date curr
      then {| DailyMessageData.date := DailyMessageData.date item;
              DailyMessageData.count :=
                DailyMessageData.count item + MessageVolume.count curr |} :: rest
      else item :: addMessages rest curr
  end.

Definition dailyMessageData (messageVolume : option MessageVolume.t)
  : list DailyMessageData.t :=
  match messageVolume with
  | Some v => fold_left addMessages (MessageVolume.dailyMessages v) []
  | None => []
  end.

(** ** RevenueAnalytics *)

(** The card "Total transactions". *)
Definition totalTransactions (revenueMetrics : option RevenueMetrics.t) : Z :=
  match revenueMetrics with
  | Some r =>
      reduceSum (fun month => RevenueMetrics.transactions (RevenueMetrics.row month))
                (RevenueMetrics.monthlyRevenue r)
  | None => 0
  end.

(* ================================================================== *)
(** * Vocabulary of the statements *)
(* ================================================================== *)

Definition msPerDay : Z := 86400000.

(** The table [daysFor] of the specification, by period token. *)
Definition daysFor (token : string) : option Z :=
  if eqb token "7d"%string then Some 7
  else if eqb token "30d"%string then Some 30
  else if eqb token "90d"%string then Some 90
  else if eqb token "1y"%string then Some 365
  else None.

Definition sumZ (l : list Z) : Z := fold_right Z.add 0 l.

(** The unit in the last place of a positive rational and the unit
    roundoff of binary64. *)
Definition ulp (x : Q) : Q := (2 ^ (ilog2 x - 52))%Q.
Definition eps : Q := 1 # 9007199254740992.

(** The two-decimal notation of [n] hundredths. *)
Definition showCents (n : Z) : string :=
  ((if (n <? 0)%Z then "-" else "") ++ showFixed2 (Z.abs n))%string.

(** The rows of a table that belong to one user. *)
Definition creditsOf (db : Db) (u : User.t) : list UserCredit.t :=
  filter (fun c => eqb (User.id u) (UserCredit.userId c)) (userCredits db).
Definition messagesOf (db : Db) (u : User.t) : list MessageLog.t :=
  filter (fun m => eqb (User.id u) (MessageLog.userId m)) (messageLogs db).
Definition paymentsOf (db : Db) (u : User.t) : list PaymentRecord.t :=
  filter (fun p => eqb (User.id u) (PaymentRecord.userId p)) (paymentRecords db).

(** The right side of a left join for one left row. *)
Definition orNull {B} (l : list B) : list (option B) :=
  match l with [] => [None] | _ => map Some l end.

(** The joined rows of one user: a row per (credit, message, payment)
    combination, NULL standing for an empty side. *)
Definition rowsOf (db : Db) (u : User.t) : list SegmentJoin :=
  flat_map (fun c =>
    flat_map (fun m => map (fun p => (((u, c), m), p)) (orNull (paymentsOf db u)))
             (orNull (messagesOf db u)))
    (orNull (creditsOf db u)).

Definition segmentRow (db : Db) (u : User.t) (c : option UserCredit.t)
    (p : option PaymentRecord.t) : UserSegmentation.Row :=
  {| UserSegmentation.userId := User.id u;
     UserSegmentation.userName := User.name u;
     UserSegmentation.email := User.email u;
     UserSegmentation.credits := option_map UserCredit.balance c;
     UserSegmentation.totalMessages := count (messagesOf db u);
     UserSegmentation.hasPaid := isSome p |}.

(** A user appears in a segment when one of its rows is the user's. *)
Definition appearsIn (u : User.t) (segment : list UserSegmentation.Row) : Prop :=
  exists row, In row segment /\ UserSegmentation.userId row = User.id u.

Definition exactlyOne (P Q : Prop) : Prop := (P \/ Q) /\ ~ (P /\ Q).

(** A PaymentRecord row of user [u] exists, whatever its status. *)
Definition hasPaymentRecord (db : Db) (u : User.t) : Prop :=
  exists p, In p (paymentRecords db) /\ PaymentRecord.userId p = User.id u.

(** The succeeded payment records of the interval of the period, read off
    the table, and the users they belong to. *)
Definition succeededPayment (now : Z) (period : Period) (p : PaymentRecord.t) : Prop :=
  PaymentRecord.status p = "succeeded"%string /\
  startDate (getDateRange now period) <= PaymentRecord.createdAt p <= now.

Definition payingUser (now : Z) (db : Db) (period : Period) (u : string) : Prop :=
  exists p, In p (paymentRecords db) /\ PaymentRecord.userId p = u /\
            succeededPayment now period p.

(** The messages of user [u] on day [d] within the interval of the
    period. *)
Definition messagesOn (DATE : Z -> Z) (now : Z) (db : Db) (period : Period)
    (u : string) (d : Z) : list MessageLog.t :=
  let r := getDateRange now period in
  filter (fun m => eqb (MessageLog.userId m, DATE (MessageLog.createdAt m)) (u, d))
    (filter (fun m => between (startDate r) (endDate r) (MessageLog.createdAt m))
            (messageLogs db)).

(** The requests of action [a] within the interval of the period. *)
Definition requestsFor (now : Z) (db : Db) (period : Period) (a : string)
  : list RequestLog.t :=
  filter (fun l => eqb (RequestLog.action l) a) (requestsInRange now db period).

(** The two digits after the point. *)
Definition twoDigits (k : Z) : string := (showN (k / 10) ++ showN (k mod 10))%string.

(** Below [10^21] toFixed writes fixed notation. *)
Definition fixedLimit : Q := inject_Z (10 ^ 21).

(** The value of [(c / T) * 100]. *)
Definition pctValue (c T : Z) : Q := rnd (rnd (inject_Z c / inject_Z T) * 100).

Definition Qsum (l : list Q) : Q := fold_right Qplus 0%Q l.

(** The doubles of the literals [0.8] and [0.4], and the double nearest
    to 1.2. *)
Definition c8 : Q := rnd (8 # 10).
Definition c4 : Q := rnd (4 # 10).
Definition c12 : Q := rnd (12 # 10).

(** The value of [0.8 + r * 0.4]. *)
Definition jitterValue (r : Q) : Q := rnd (c8 + rnd (r * c4)).

(** ** Rows and figures that the further properties speak of *)

(** The order of a comparison function. *)
Definition leRel {A} (le : A -> A -> bool) (a b : A) : Prop := le a b = true.

Definition isPercentage (s : string) (part whole : Z) : Prop :=
  exists n, s = showFixed2 n /\ readFixed2 s = Some n /\ 0 <= n <= 10000 /\
            (whole <= 10 ^ 11 -> 2 * Z.abs (n * whole - 10000 * part) <= whole).

Definition failuresOf (now : Z) (db : Db) (period : Period) (e : option string)
    (c : Z) : list RequestLog.t :=
  filter (fun l => eqb (RequestLog.error l, RequestLog.statusCode l) (e, c))
    (filter (fun l => eqb (RequestLog.success l) false) (requestsInRange now db period)).

Definition accountsOf (db : Db) (p : string) : list Account.t :=
  filter (fun a => eqb (Account.provider a) p) (accounts db).

(** The messages of the interval sent on day [d] in hour [h], and in hour
    [h] of any day. *)
Definition messagesAt (DATE HOUR : Z -> Z) (now : Z) (db : Db) (period : Period)
    (d h : Z) : list MessageLog.t :=
  filter (fun m => eqb (DATE (MessageLog.createdAt m), HOUR (MessageLog.createdAt m)) (d, h))
         (messagesInRange now db period).

Definition messagesInHour (HOUR : Z -> Z) (now : Z) (db : Db) (period : Period)
    (h : Z) : list MessageLog.t :=
  filter (fun m => eqb (HOUR (MessageLog.createdAt m)) h) (messagesInRange now db period).

(** The foreign keys [userId -> users.id] of schema.ts that the funnel
    relies on. *)
Record referential (db : Db) : Prop := {
  messageLogs_fk : forall m, In m (messageLogs db) ->
    In (MessageLog.userId m) (map User.id (users db));
  paymentIntents_fk : forall i, In i (paymentIntents db) ->
    In (PaymentIntent.userId i) (map User.id (users db));
  paymentRecords_fk : forall p, In p (paymentRecords db) ->
    In (PaymentRecord.userId p) (map User.id (users db)) }.

(** The succeeded payments of the interval in month [m]. *)
Definition paymentsInMonth (TO_CHAR_YYYY_MM : Z -> string) (now : Z) (db : Db)
    (period : Period) (m : string) : list PaymentRecord.t :=
  filter (fun p => eqb (TO_CHAR_YYYY_MM (PaymentRecord.createdAt p)) m)
         (succeededInRange now db period).

(** The user row that a message joins with, and its name. *)
Definition userOf (db : Db) (uid : string) : option User.t :=
  hd_error (filter (fun u => eqb uid (User.id u)) (users db)).

Definition nameOf (db : Db) (uid : string) : option string :=
  match userOf db uid with Some u => User.name u | None => None end.

(** The messages of the interval sent by user [uid]. *)
Definition messagesBy (now : Z) (db : Db) (period : Period) (uid : string)
  : list MessageLog.t :=
  filter (fun m => eqb (MessageLog.userId m) uid) (messagesInRange now db period).

(** The messages of the interval sent on day [d]. *)
Definition messagesOnDate (DATE : Z -> Z) (now : Z) (db : Db) (period : Period) (d : Z)
  : list MessageLog.t :=
  filter (fun m => eqb (DATE (MessageLog.createdAt m)) d) (messagesInRange now db period).

(** The payment intents created in the interval, and those of tier [t]. *)
Definition intentsInRange (now : Z) (db : Db) (period : Period) : list PaymentIntent.t :=
  let r := getDateRange now period in
  filter (fun i => between (startDate r) (endDate r) (PaymentIntent.createdAt i))
         (paymentIntents db).

Definition intentsOfTier (now : Z) (db : Db) (period : Period) (t : string)
  : list PaymentIntent.t :=
  filter (fun i => eqb (PaymentIntent.tier i) t) (intentsInRange now db period).

(** The payment records that an intent joins with. *)
Definition recordsOf (db : Db) (i : PaymentIntent.t) : list PaymentRecord.t :=
  filter (fun p => match PaymentIntent.providerPaymentId i with
                   | Some id => eqb id (PaymentRecord.providerPaymentId p)
                   | None => false
                   end) (paymentRecords db).

Definition succeeded (p : PaymentRecord.t) : bool :=
  eqb (PaymentRecord.status p) "succeeded"%string.

(** The users without a payment record. *)
Definition withoutPayments (db : Db) : list User.t :=
  filter (fun u => match paymentsOf db u with [] => true | _ :: _ => false end) (users db).

(** A number that is a percentage: finite and between 0 and 100. *)
Definition isRate (x : number) : Prop :=
  exists q, x = Fin q /\ (0 <= q <= 100)%Q.

(** The count that the daily rows [rows] give to day [d], and the same for
    the merged entries. *)
Definition rowsOn (d : Z) (rows : list MessageVolume.Daily) : Z :=
  sumZ (map MessageVolume.count (filter (fun row => MessageVolume.date row =? d) rows)).

Definition entriesOn (d : Z) (data : list DailyMessageData.t) : Z :=
  sumZ (map DailyMessageData.count
            (filter (fun item => DailyMessageData.date item =? d) data)).

(** ** Comparison with hardware binary64 *)

Definition ofInt (z : Z) : float := PrimFloat.of_uint63 (Uint63.of_Z z).

Definition agrees (f : float) (q : Q) : bool :=
  match valueOf f with Some v => Qeq_bool v q | None => false end.

(** Pseudo-random pairs of positive integers up to [m]. *)
Fixpoint lcg (n : nat) (s : Z) : list Z :=
  match n with
  | O => []
  | S n' =>
      let s' := (s * 6364136223846793005 + 1442695040888963407) mod 2 ^ 62 in
      s' :: lcg n' s'
  end.

Definition samplePairs (n : nat) (seed m : Z) : list (Z * Z) :=
  let l := lcg (2 * n) seed in
  combine (map (fun x => 1 + x mod m) (firstn n l))
          (map (fun x => 1 + (x / 7) mod m) (skipn n l)).

(** [a / b], [(a / b) * 100] and [a / b + b / a] in both arithmetics. *)
Definition agreeOn '(a, b) : bool :=
  let qa := inject_Z a in
  let qb := inject_Z b in
  agrees (ofInt a / ofInt b)%float (rnd (qa / qb))
  && agrees ((ofInt a / ofInt b) * 100)%float (rnd (rnd (qa / qb) * 100))
  && agrees ((ofInt a / ofInt b) + (ofInt b / ofInt a))%float
            (rnd (rnd (qa / qb) + rnd (qb / qa))).

(** ** Sample inputs *)

(** The largest value of [Math.random] in V8, [1 - 2^-52]. *)
Definition randomMax : Q := 4503599627370495 # 4503599627370496.

Definition thirtyFiveUsers : Db :=
  mkDb (map (fun i => User.mk (showN (Z.of_nat i)) None ""%string) (seq 0 35))
       [] [] [] [] [] [].

(** Two users with five messages each on the same day. *)
Definition sharedDay : Db :=
  mkDb [] []
    (map (fun i => MessageLog.mk i (if i <? 5 then "a"%string else "b"%string) 0)
         [0; 1; 2; 3; 4; 5; 6; 7; 8; 9])
    [] [] [] [].

(** 100 successful and 5 failed requests of the action "chat". *)
Definition chatLogs : Db :=
  mkDb [] [] []
    (map (fun i => RequestLog.mk (Z.of_nat i) "u"%string "chat"%string
                     (if (i <? 100)%nat then 200 else 500) (i <? 100)%nat
                     (if (i <? 100)%nat then None else Some "failed"%string) 0)
         (seq 0 105))
    [] [] [].

(** Three users: [alice] sent 11 messages, [bob] sent 10 and has one
    succeeded payment, [carol] has neither. *)
Definition alice : User.t := User.mk "alice" (Some "Alice"%string) "alice@example.org".
Definition bob : User.t := User.mk "bob" None "bob@example.org".
Definition carol : User.t := User.mk "carol" (Some "Carol"%string) "carol@example.org".

Definition threeUsers : Db :=
  mkDb [alice; bob; carol]
       [Account.mk "alice" "google" "g-1"; Account.mk "bob" "google" "g-2";
        Account.mk "carol" "github" "h-1"]
       (map (fun i => MessageLog.mk (Z.of_nat i)
                        (if (i <? 11)%nat then "alice"%string else "bob"%string) 0)
            (seq 0 21))
       []
       [UserCredit.mk "alice" 5]
       []
       [PaymentRecord.mk 1 "bob" "pay_1" "succeeded" 49900 0].

(** Eleven users without messages or payments, with the ids 0 to 10. *)
Definition elevenUsers : Db :=
  mkDb (map (fun i => User.mk (showN (Z.of_nat i)) None ""%string) (seq 0 11))
       [] [] [] [] [] [].

(** Payments at clock reading 0: [alice] and [bob] each have a succeeded
    payment in the last 30 days; besides there are a failed payment of
    [alice], a succeeded one of [carol] from 40 days ago and a succeeded
    one of [carol] dated after the clock reading. *)
Definition mixedPayments : Db :=
  mkDb [alice; bob; carol] [] [] [] [] []
       [PaymentRecord.mk 1 "alice" "pay_1" "succeeded" 25000 (-86400000);
        PaymentRecord.mk 2 "bob" "pay_2" "succeeded" 50000 0;
        PaymentRecord.mk 3 "alice" "pay_3" "failed" 9900 (-1000);
        PaymentRecord.mk 4 "carol" "pay_4" "succeeded" 70000 (-3456000000);
        PaymentRecord.mk 5 "carol" "pay_5" "succeeded" 80000 1].

(** Two users: [bob] paid twice, the first attempt failed. *)
Definition repeatBuyer : Db :=
  mkDb [alice; bob] [] [] [] [] []
       [PaymentRecord.mk 1 "bob" "pay_1" "failed" 49900 0;
        PaymentRecord.mk 2 "bob" "pay_2" "succeeded" 49900 0].

(* ================================================================== *)
(** * Rounding to binary64 *)
(* ================================================================== *)

Local Open Scope Q_scope.

Lemma pow2_pos (e : Z) : 0 < 2 ^ e.
Proof. apply Qpower_0_lt. reflexivity. Qed.

Lemma pow2_add (a b : Z) : 2 ^ (a + b) == 2 ^ a * 2 ^ b.
Proof. apply Qpower_plus. discriminate. Qed.

Lemma pow2_succ (a : Z) : 2 ^ (a + 1) == 2 * 2 ^ a.
Proof. rewrite pow2_add. change (2 ^ 1) with 2. ring. Qed.

Lemma pow2_le (a b : Z) : (a <= b)%Z -> 2 ^ a <= 2 ^ b.
Proof. intros H. apply Qpower_le_compat_l; [exact H | discriminate]. Qed.

Lemma pow2_lt_inv (a b : Z) : 2 ^ a < 2 ^ b -> (a < b)%Z.
Proof. intros H. apply (Qpower_lt_compat_l_inv 2); [exact H | reflexivity]. Qed.

Lemma pow2_Z (n : Z) : (0 <= n)%Z -> inject_Z (2 ^ n) == 2 ^ n.
Proof. intros H. rewrite Zpower_Qpower by exact H. reflexivity. Qed.

Lemma Q_num_den (x : Q) : x * inject_Z (Zpos (Qden x)) == inject_Z (Qnum x).
Proof.
  destruct x as [p q]. unfold Qeq, Qmult, inject_Z. simpl. lia.
Qed.

Lemma ilog2_spec (x : Q) : 0 < x -> 2 ^ ilog2 x <= x /\ x < 2 ^ (ilog2 x + 1).
Proof.
  intros Hx. unfold ilog2.
  set (p := Qnum x). set (q := Zpos (Qden x)).
  assert (Hp : (0 < p)%Z).
  { unfold p. destruct x as [n d]. unfold Qlt in Hx. simpl in *. lia. }
  assert (Hq : (0 < q)%Z) by (unfold q; lia).
  pose proof (Z.log2_spec p Hp) as [Hp1 Hp2].
  pose proof (Z.log2_spec q Hq) as [Hq1 Hq2].
  pose proof (Z.log2_nonneg p) as Lp. pose proof (Z.log2_nonneg q) as Lq.
  set (lp := Z.log2 p) in *. set (lq := Z.log2 q) in *.
  pose proof (Q_num_den x) as Hxq. fold p q in Hxq.
  assert (A1 : 2 ^ lp <= inject_Z p).
  { rewrite <- pow2_Z by lia. rewrite <- Zle_Qle. exact Hp1. }
  assert (A2 : inject_Z p < 2 * 2 ^ lp).
  { rewrite <- pow2_succ, <- pow2_Z by lia. rewrite <- Zlt_Qlt.
    unfold Z.succ in Hp2. exact Hp2. }
  assert (B1 : 2 ^ lq <= inject_Z q).
  { rewrite <- pow2_Z by lia. rewrite <- Zle_Qle. exact Hq1. }
  assert (B2 : inject_Z q < 2 * 2 ^ lq).
  { rewrite <- pow2_succ, <- pow2_Z by lia. rewrite <- Zlt_Qlt.
    unfold Z.succ in Hq2. exact Hq2. }
  assert (D : 2 ^ (lp - lq) * 2 ^ lq == 2 ^ lp).
  { rewrite <- pow2_add. replace (lp - lq + lq)%Z with lp by ring. reflexivity. }
  pose proof (pow2_pos (lp - lq)) as Pd. pose proof (pow2_pos lq) as Pq.
  pose proof (pow2_pos lp) as Pp.
  destruct (Qle_bool (2 ^ (lp - lq)) x) eqn:T.
  - apply Qle_bool_iff in T. split; [exact T|].
    rewrite pow2_succ. nra.
  - assert (T' : x < 2 ^ (lp - lq)).
    { apply Qnot_le_lt. intros C. apply Qle_bool_iff in C. congruence. }
    split; [|replace (lp - lq - 1 + 1)%Z with (lp - lq)%Z by ring; exact T'].
    assert (E : 2 * 2 ^ (lp - lq - 1) == 2 ^ (lp - lq)).
    { rewrite <- pow2_succ. replace (lp - lq - 1 + 1)%Z with (lp - lq)%Z by ring.
      reflexivity. }
    pose proof (pow2_pos (lp - lq - 1)). nra.
Qed.

Lemma ilog2_unique (x : Q) (a : Z) : 2 ^ a <= x -> x < 2 ^ (a + 1) -> ilog2 x = a.
Proof.
  intros H1 H2.
  assert (Hx : 0 < x) by (pose proof (pow2_pos a); lra).
  destruct (ilog2_spec x Hx) as [S1 S2].
  assert ((ilog2 x < a + 1)%Z) by (apply pow2_lt_inv; lra).
  assert ((a < ilog2 x + 1)%Z) by (apply pow2_lt_inv; lra).
  lia.
Qed.

Lemma ilog2_comp (x y : Q) : 0 < x -> x == y -> ilog2 x = ilog2 y.
Proof.
  intros Hx E. symmetry. destruct (ilog2_spec x Hx).
  apply ilog2_unique; rewrite <- E; assumption.
Qed.

Lemma ilog2_mono (x y : Q) : 0 < x -> x <= y -> (ilog2 x <= ilog2 y)%Z.
Proof.
  intros Hx Hxy.
  destruct (ilog2_spec x Hx) as [S1 _].
  destruct (ilog2_spec y) as [_ S2]; [lra|].
  assert ((ilog2 x < ilog2 y + 1)%Z) by (apply pow2_lt_inv; lra).
  lia.
Qed.

(** roundHalfEven *)

Lemma rhe_cases (x : Q) :
  let f := Qfloor x in
  (roundHalfEven x = f /\ x - inject_Z f <= 1 # 2) \/
  (roundHalfEven x = (f + 1)%Z /\ 1 # 2 <= x - inject_Z f).
Proof.
  intros f. unfold roundHalfEven. fold f.
  destruct (Qcompare_spec (x - inject_Z f) (1 # 2)) as [E|L|G].
  - destruct (Z.even f); [left | right]; split; try reflexivity; lra.
  - left. split; [reflexivity | lra].
  - right. split; [reflexivity | lra].
Qed.

Lemma floor_bounds (x : Q) : inject_Z (Qfloor x) <= x /\ x < inject_Z (Qfloor x) + 1.
Proof.
  split; [apply Qfloor_le|].
  pose proof (Qlt_floor x) as H. rewrite inject_Z_plus in H. exact H.
Qed.

Lemma rhe_bounds (x : Q) :
  x - (1 # 2) <= inject_Z (roundHalfEven x) /\ inject_Z (roundHalfEven x) <= x + (1 # 2).
Proof.
  pose proof (floor_bounds x) as [F1 F2].
  destruct (rhe_cases x) as [[E H]|[E H]]; rewrite E; try rewrite inject_Z_plus;
    change (inject_Z 1) with 1; lra.
Qed.

Lemma rhe_comp (x y : Q) : x == y -> roundHalfEven x = roundHalfEven y.
Proof.
  intros E. unfold roundHalfEven.
  rewrite (Qfloor_comp _ _ E).
  assert (C : Qcompare (x - inject_Z (Qfloor y)) (1 # 2)
            = Qcompare (y - inject_Z (Qfloor y)) (1 # 2)).
  { apply Qcompare_comp; [rewrite E; reflexivity | reflexivity]. }
  rewrite C. reflexivity.
Qed.

Lemma rhe_int (n : Z) : roundHalfEven (inject_Z n) = n.
Proof.
  unfold roundHalfEven. rewrite Qfloor_Z.
  destruct (Qcompare_spec (inject_Z n - inject_Z n) (1 # 2)) as [E|L|G];
    try reflexivity; lra.
Qed.

Lemma rhe_mono (x y : Q) : x <= y -> (roundHalfEven x <= roundHalfEven y)%Z.
Proof.
  intros Hxy.
  pose proof (Qfloor_resp_le _ _ Hxy) as Hf.
  pose proof (floor_bounds x) as [X1 X2]. pose proof (floor_bounds y) as [Y1 Y2].
  destruct (Z.eq_dec (Qfloor x) (Qfloor y)) as [E|NE].
  - unfold roundHalfEven. rewrite <- E.
    destruct (Qcompare_spec (x - inject_Z (Qfloor x)) (1 # 2)) as [Ex|Lx|Gx];
    destruct (Qcompare_spec (y - inject_Z (Qfloor x)) (1 # 2)) as [Ey|Ly|Gy];
      try lia; try lra; destruct (Z.even (Qfloor x)); lia.
  - destruct (rhe_cases x) as [[Ex _]|[Ex _]]; destruct (rhe_cases y) as [[Ey _]|[Ey _]];
      rewrite Ex, Ey; lia.
Qed.

(** rndPos *)


Lemma scaled_range (x : Q) : 0 < x ->
  2 ^ 52 <= x / ulp x /\ x / ulp x < 2 ^ 53.
Proof.
  intros Hx. unfold ulp. destruct (ilog2_spec x Hx) as [S1 S2].
  set (L := ilog2 x) in *.
  pose proof (pow2_pos (L - 52)) as Pe.
  assert (E1 : 2 ^ L == 2 ^ 52 * 2 ^ (L - 52)).
  { rewrite <- pow2_add. replace (52 + (L - 52))%Z with L by ring. reflexivity. }
  assert (E2 : 2 ^ (L + 1) == 2 ^ 53 * 2 ^ (L - 52)).
  { rewrite <- pow2_add. replace (53 + (L - 52))%Z with (L + 1)%Z by ring. reflexivity. }
  split.
  - apply Qle_shift_div_l; [exact Pe | lra].
  - apply Qlt_shift_div_r; [exact Pe | lra].
Qed.

Lemma rndPos_eq (x : Q) : rndPos x = inject_Z (roundHalfEven (x / ulp x)) * ulp x.
Proof. reflexivity. Qed.

Lemma mant_range (x : Q) : 0 < x ->
  (2 ^ 52 <= roundHalfEven (x / ulp x) <= 2 ^ 53)%Z.
Proof.
  intros Hx. destruct (scaled_range x Hx) as [S1 S2].
  split.
  - rewrite <- (rhe_int (2 ^ 52)). apply rhe_mono.
    rewrite pow2_Z by lia. exact S1.
  - rewrite <- (rhe_int (2 ^ 53)). apply rhe_mono.
    rewrite pow2_Z by lia. lra.
Qed.

Lemma rndPos_err (x : Q) : 0 < x ->
  Qabs (rndPos x - x) <= x * (1 # 2 ^ 53).
Proof.
  intros Hx. rewrite rndPos_eq.
  pose proof (rhe_bounds (x / ulp x)) as [B1 B2].
  destruct (scaled_range x Hx) as [S1 S2].
  assert (Pu : 0 < ulp x) by apply pow2_pos.
  set (m := inject_Z (roundHalfEven (x / ulp x))) in *.
  assert (Es : x / ulp x * ulp x == x) by (field; lra).
  set (s := x / ulp x) in *.
  apply Qabs_Qle_condition.
  change (2 ^ 52) with (4503599627370496 # 1) in S1.
  change (1 # 2 ^ 53) with (1 # 9007199254740992).
  split; nra.
Qed.

Lemma ulp_comp (x y : Q) : 0 < x -> x == y -> ulp x = ulp y.
Proof. intros Hx E. unfold ulp. rewrite (ilog2_comp x y Hx E). reflexivity. Qed.

Lemma rndPos_comp (x y : Q) : 0 < x -> x == y -> rndPos x == rndPos y.
Proof.
  intros Hx E. rewrite !rndPos_eq. rewrite (ulp_comp x y Hx E).
  rewrite (rhe_comp (x / ulp y) (y / ulp y)); [reflexivity|].
  rewrite E. reflexivity.
Qed.

Lemma rndPos_lower (x : Q) : 0 < x -> 2 ^ ilog2 x <= rndPos x.
Proof.
  intros Hx. rewrite rndPos_eq.
  pose proof (mant_range x Hx) as [M1 _].
  assert (Pu : 0 < ulp x) by apply pow2_pos.
  assert (E : 2 ^ ilog2 x == 2 ^ 52 * ulp x).
  { unfold ulp. rewrite <- pow2_add.
    replace (52 + (ilog2 x - 52))%Z with (ilog2 x) by ring. reflexivity. }
  rewrite E. apply Qmult_le_compat_r; [|lra].
  rewrite <- pow2_Z by lia. rewrite <- Zle_Qle. exact M1.
Qed.

Lemma rndPos_upper (x : Q) : 0 < x -> rndPos x <= 2 ^ (ilog2 x + 1).
Proof.
  intros Hx. rewrite rndPos_eq.
  pose proof (mant_range x Hx) as [_ M2].
  assert (Pu : 0 < ulp x) by apply pow2_pos.
  assert (E : 2 ^ (ilog2 x + 1) == 2 ^ 53 * ulp x).
  { unfold ulp. rewrite <- pow2_add.
    replace (53 + (ilog2 x - 52))%Z with (ilog2 x + 1)%Z by ring. reflexivity. }
  rewrite E. apply Qmult_le_compat_r; [|lra].
  rewrite <- pow2_Z by lia. rewrite <- Zle_Qle. exact M2.
Qed.

Lemma rndPos_pos (x : Q) : 0 < x -> 0 < rndPos x.
Proof.
  intros Hx. pose proof (rndPos_lower x Hx). pose proof (pow2_pos (ilog2 x)). lra.
Qed.

Lemma rndPos_mono (x y : Q) : 0 < x -> x <= y -> rndPos x <= rndPos y.
Proof.
  intros Hx Hxy. assert (Hy : 0 < y) by lra.
  pose proof (ilog2_mono x y Hx Hxy) as HL.
  destruct (Z.eq_dec (ilog2 x) (ilog2 y)) as [E|NE].
  - rewrite !rndPos_eq. assert (U : ulp x = ulp y) by (unfold ulp; rewrite E; reflexivity).
    rewrite U. assert (Pu : 0 < ulp y) by apply pow2_pos.
    apply Qmult_le_compat_r; [|lra].
    rewrite <- Zle_Qle. apply rhe_mono.
    apply Qmult_le_compat_r; [exact Hxy|].
    apply Qlt_le_weak, Qinv_lt_0_compat, Pu.
  - apply Qle_trans with (2 ^ (ilog2 x + 1)); [apply rndPos_upper, Hx|].
    apply Qle_trans with (2 ^ ilog2 y); [apply pow2_le; lia | apply rndPos_lower, Hy].
Qed.

(** rnd *)

Lemma rnd_pos_eq (x : Q) : 0 < x -> rnd x = rndPos x.
Proof.
  intros Hx. unfold rnd. destruct (Qcompare_spec x 0) as [E|L|G]; try lra. reflexivity.
Qed.

Lemma rnd_neg_eq (x : Q) : x < 0 -> rnd x = - rndPos (- x).
Proof.
  intros Hx. unfold rnd. destruct (Qcompare_spec x 0) as [E|L|G]; try lra. reflexivity.
Qed.

Lemma rnd_zero_eq (x : Q) : x == 0 -> rnd x = 0.
Proof.
  intros Hx. unfold rnd. destruct (Qcompare_spec x 0) as [E|L|G]; try lra. reflexivity.
Qed.

Lemma rnd_comp (x y : Q) : x == y -> rnd x == rnd y.
Proof.
  intros E. destruct (Qlt_le_dec 0 x) as [P|NP].
  - rewrite !rnd_pos_eq by lra. apply rndPos_comp; assumption.
  - destruct (Qlt_le_dec x 0) as [N|Z0].
    + rewrite !rnd_neg_eq by lra.
      rewrite (rndPos_comp (- x) (- y)); [reflexivity | lra | lra].
    + rewrite !rnd_zero_eq by lra. reflexivity.
Qed.

#[export] Instance rnd_Proper : Proper (Qeq ==> Qeq) rnd.
Proof. intros x y E. apply rnd_comp, E. Qed.

Lemma rnd_nonneg (x : Q) : 0 <= x -> 0 <= rnd x.
Proof.
  intros Hx. destruct (Qlt_le_dec 0 x) as [P|NP].
  - rewrite rnd_pos_eq by exact P. apply Qlt_le_weak, rndPos_pos, P.
  - rewrite rnd_zero_eq by lra. lra.
Qed.

Lemma rnd_mono (x y : Q) : x <= y -> rnd x <= rnd y.
Proof.
  intros Hxy.
  destruct (Qlt_le_dec 0 x) as [Px|NPx].
  - rewrite !rnd_pos_eq by lra. apply rndPos_mono; assumption.
  - destruct (Qlt_le_dec x 0) as [Nx|Zx].
    + rewrite (rnd_neg_eq x Nx).
      destruct (Qlt_le_dec y 0) as [Ny|NNy].
      * rewrite (rnd_neg_eq y Ny).
        pose proof (rndPos_mono (- y) (- x)). lra.
      * pose proof (rnd_nonneg y NNy). pose proof (rndPos_pos (- x)). lra.
    + rewrite (rnd_zero_eq x) by lra. apply rnd_nonneg. lra.
Qed.


Lemma rnd_err (x : Q) : Qabs (rnd x - x) <= Qabs x * eps.
Proof.
  change eps with (1 # 2 ^ 53). destruct (Qlt_le_dec 0 x) as [P|NP].
  - rewrite rnd_pos_eq by exact P. rewrite (Qabs_pos x) by lra. apply rndPos_err, P.
  - destruct (Qlt_le_dec x 0) as [N|Z0].
    + rewrite rnd_neg_eq by exact N. rewrite (Qabs_neg x) by lra.
      pose proof (rndPos_err (- x)) as H.
      assert (E : - rndPos (- x) - x == - (rndPos (- x) - - x)) by ring.
      rewrite E, Qabs_opp. apply H. lra.
    + rewrite rnd_zero_eq by lra.
      assert (E : 0 - x == 0) by lra. rewrite E.
      assert (E' : x == 0) by lra. rewrite E'. discriminate.
Qed.

(** Values with an integer significand are doubles. *)
Lemma rndPos_exact (x : Q) (k : Z) : 0 < x -> x / ulp x == inject_Z k -> rndPos x == x.
Proof.
  intros Hx E. rewrite rndPos_eq.
  rewrite (rhe_comp _ _ E), rhe_int, <- E.
  assert (Pu : 0 < ulp x) by apply pow2_pos. field. lra.
Qed.

Lemma rnd_int (n : Z) : (Z.abs n <= 2 ^ 53)%Z -> rnd (inject_Z n) == inject_Z n.
Proof.
  assert (P : forall m, (0 < m <= 2 ^ 53)%Z -> rndPos (inject_Z m) == inject_Z m).
  { intros m [M1 M2].
    assert (Hm : 0 < inject_Z m) by (rewrite Zlt_Qlt in M1; exact M1).
    destruct (ilog2_spec _ Hm) as [S1 S2].
    set (L := ilog2 (inject_Z m)) in *.
    assert (HL : (L <= 53)%Z).
    { assert (2 ^ L < 2 ^ 54); [|apply pow2_lt_inv in H; lia].
      rewrite Zle_Qle in M2.
      apply Qle_lt_trans with (inject_Z m); [exact S1|].
      apply Qle_lt_trans with (inject_Z (2 ^ 53)); [exact M2 | reflexivity]. }
    destruct (Z.eq_dec L 53) as [E53|N53].
    - assert (Em : inject_Z m == 2 ^ 53).
      { rewrite Zle_Qle in M2. rewrite pow2_Z in M2 by lia. rewrite E53 in S1. lra. }
      apply (rndPos_exact _ (2 ^ 52)); [exact Hm|].
      unfold ulp. fold L. rewrite E53, Em. reflexivity.
    - apply (rndPos_exact _ (m * 2 ^ (52 - L))); [exact Hm|].
      unfold ulp. fold L. rewrite inject_Z_mult, pow2_Z by lia.
      replace (L - 52)%Z with (- (52 - L))%Z by ring.
      rewrite Qpower_opp. pose proof (pow2_pos (52 - L)). field. lra. }
  intros Hn. destruct (Z.lt_trichotomy n 0) as [N|[Z0|Pn]].
  - assert (Hq : inject_Z n < 0) by (rewrite Zlt_Qlt in N; exact N).
    rewrite rnd_neg_eq by exact Hq. rewrite <- inject_Z_opp, P by lia.
    rewrite inject_Z_opp. ring.
  - subst n. reflexivity.
  - assert (Hq : 0 < inject_Z n) by (rewrite Zlt_Qlt in Pn; exact Pn).
    rewrite rnd_pos_eq by exact Hq. apply P. lia.
Qed.


(** The doubles below 1 stop at [1 - 2^-53]. *)
Lemma double_below_one (r : Q) : isDouble r -> 0 <= r -> r < 1 -> r <= 1 - eps.
Proof.
  unfold isDouble, eps. intros D H0 H1.
  destruct (Qlt_le_dec 0 r) as [P|NP]; [|lra].
  rewrite rnd_pos_eq in D by exact P.
  destruct (ilog2_spec r P) as [S1 S2]. set (L := ilog2 r) in *.
  assert (HL : (L < 0)%Z) by (apply pow2_lt_inv; change (2 ^ 0) with 1; lra).
  destruct (Z.eq_dec L (-1)) as [E|NE].
  - rewrite rndPos_eq in D. unfold ulp in D. fold L in D. rewrite E in D.
    change (2 ^ (-1 - 52)) with (1 # 9007199254740992) in D.
    set (m := roundHalfEven (r / (1 # 9007199254740992))) in *.
    assert (Hm : (m < 9007199254740992)%Z).
    { rewrite Zlt_Qlt.
      assert (Em : inject_Z m == r * inject_Z 9007199254740992).
      { rewrite <- D. unfold Qeq, Qmult, inject_Z; simpl. lia. }
      rewrite Em. change (inject_Z 9007199254740992) with (9007199254740992 # 1). lra. }
    assert (Hm' : (m <= 9007199254740991)%Z) by lia.
    rewrite Zle_Qle in Hm'. rewrite <- D.
    change (inject_Z 9007199254740991) with (9007199254740991 # 1) in Hm'. lra.
  - assert (H : 2 ^ (L + 1) <= 2 ^ (-1)) by (apply pow2_le; lia).
    change (2 ^ (-1)) with (1 # 2) in H. lra.
Qed.

Local Open Scope Z_scope.

(* ================================================================== *)
(** * Lists, groups and joins *)
(* ================================================================== *)

Lemma eqb_eq {T} `{EqDec T} (x y : T) : eqb x y = true <-> x = y.
Proof. unfold eqb. destruct (eq_dec x y); split; congruence. Qed.

Lemma eqb_refl {T} `{EqDec T} (x : T) : eqb x x = true.
Proof. apply eqb_eq. reflexivity. Qed.

Lemma eqb_neq {T} `{EqDec T} (x y : T) : eqb x y = false <-> x <> y.
Proof. unfold eqb. destruct (eq_dec x y); split; congruence. Qed.

Lemma In_distinct {K} `{EqDec K} (l : list K) (k : K) : In k (distinct l) <-> In k l.
Proof.
  induction l as [|a l IH]; simpl; [tauto|].
  rewrite filter_In, IH. split.
  - intros [E|[I _]]; auto.
  - intros [E|I]; [auto|].
    destruct (eq_dec k a) as [E|NE]; [left; congruence|].
    right. split; [exact I|]. apply negb_true_iff, eqb_neq, NE.
Qed.

Lemma NoDup_filter {A} (p : A -> bool) (l : list A) : NoDup l -> NoDup (filter p l).
Proof.
  induction 1 as [|a l NI ND IH]; simpl; [constructor|].
  destruct (p a); [constructor|]; auto.
  rewrite filter_In. tauto.
Qed.

Lemma NoDup_distinct {K} `{EqDec K} (l : list K) : NoDup (distinct l).
Proof.
  induction l as [|a l IH]; simpl; constructor.
  - rewrite filter_In, eqb_refl. simpl. intros [_ C]. discriminate.
  - apply NoDup_filter, IH.
Qed.

Lemma In_groupBy {A K} `{EqDec K} (key : A -> K) (rows : list A) (k : K) (g : list A) :
  In (k, g) (groupBy key rows) <->
  In k (map key rows) /\ g = filter (fun a => eqb (key a) k) rows.
Proof.
  unfold groupBy. rewrite in_map_iff. split.
  - intros [k' [E I]]. inversion E; subst. rewrite In_distinct in I. auto.
  - intros [I E]. exists k. rewrite In_distinct. subst g. auto.
Qed.

Lemma groupBy_nonempty {A K} `{EqDec K} (key : A -> K) (rows : list A) (k : K) (g : list A) :
  In (k, g) (groupBy key rows) -> g <> [].
Proof.
  rewrite In_groupBy, in_map_iff. intros [[a [E I]] G] C.
  assert (In a g) by (subst g; rewrite filter_In, E, eqb_refl; auto).
  rewrite C in *. contradiction.
Qed.

Lemma groupBy_keys {A K} `{EqDec K} (key : A -> K) (rows : list A) :
  map fst (groupBy key rows) = distinct (map key rows).
Proof. unfold groupBy. rewrite map_map. simpl. apply map_id. Qed.

Lemma filter_partition_length {A} (p : A -> bool) (l : list A) :
  (List.length (filter p l) + List.length (filter (fun a => negb (p a)) l))%nat
  = List.length l.
Proof.
  induction l as [|a l IH]; simpl; [reflexivity|].
  destruct (p a); simpl; lia.
Qed.

Lemma insertBy_perm {A} (le : A -> A -> bool) (x : A) (l : list A) :
  Permutation (insertBy le x l) (x :: l).
Proof.
  induction l as [|y l IH]; simpl; [reflexivity|].
  destruct (le x y); [reflexivity|].
  rewrite IH. apply perm_swap.
Qed.

Lemma orderBy_perm {A} (le : A -> A -> bool) (l : list A) : Permutation (orderBy le l) l.
Proof.
  induction l as [|x l IH]; simpl; [reflexivity|].
  rewrite insertBy_perm. constructor. exact IH.
Qed.

Lemma reduceSum_acc {A} (f : A -> Z) (l : list A) (z : Z) :
  fold_left (fun sum x => sum + f x) l z = z + reduceSum f l.
Proof.
  unfold reduceSum. revert z. induction l as [|a l IH]; intros z; simpl; [lia|].
  rewrite IH, (IH (f a)). lia.
Qed.

Lemma reduceSum_cons {A} (f : A -> Z) (a : A) (l : list A) :
  reduceSum f (a :: l) = f a + reduceSum f l.
Proof. unfold reduceSum at 1. simpl. rewrite reduceSum_acc. lia. Qed.

Lemma reduceSum_nil {A} (f : A -> Z) : reduceSum f [] = 0.
Proof. reflexivity. Qed.

Lemma firstn_length_le {A} (n : nat) (l : list A) : (List.length (firstn n l) <= n)%nat.
Proof. rewrite length_firstn. lia. Qed.

Lemma leftJoin_orNull {A B} (l : list A) (r : list B) (on : A -> B -> bool) :
  leftJoin l r on = flat_map (fun a => map (pair a) (orNull (filter (on a) r))) l.
Proof.
  unfold leftJoin. apply flat_map_ext. intros a.
  destruct (filter (on a) r); simpl; [reflexivity|].
  rewrite map_map. reflexivity.
Qed.

Lemma flat_map_flat_map {A B C} (f : A -> list B) (g : B -> list C) (l : list A) :
  flat_map g (flat_map f l) = flat_map (fun a => flat_map g (f a)) l.
Proof.
  induction l as [|a l IH]; simpl; [reflexivity|].
  rewrite flat_map_app, IH. reflexivity.
Qed.

Lemma flat_map_map {A B C} (f : A -> B) (g : B -> list C) (l : list A) :
  flat_map g (map f l) = flat_map (fun a => g (f a)) l.
Proof. induction l as [|a l IH]; simpl; [reflexivity|]. rewrite IH. reflexivity. Qed.

Lemma filter_flat_map {A B} (p : B -> bool) (f : A -> list B) (l : list A) :
  filter p (flat_map f l) = flat_map (fun a => filter p (f a)) l.
Proof.
  induction l as [|a l IH]; simpl; [reflexivity|].
  rewrite filter_app, IH. reflexivity.
Qed.

Lemma filter_map_comm {A B} (p : B -> bool) (f : A -> B) (l : list A) :
  filter p (map f l) = map f (filter (fun a => p (f a)) l).
Proof.
  induction l as [|a l IH]; simpl; [reflexivity|].
  destruct (p (f a)); simpl; rewrite IH; reflexivity.
Qed.

Lemma flat_map_nil {A B} (f : A -> list B) (l : list A) :
  (forall a, In a l -> f a = []) -> flat_map f l = [].
Proof.
  induction l as [|a l IH]; simpl; intros Hf; [reflexivity|].
  rewrite (Hf a), IH; auto.
Qed.

Lemma filter_none {A} (p : A -> bool) (l : list A) :
  (forall a, In a l -> p a = false) -> filter p l = [].
Proof.
  induction l as [|a l IH]; simpl; intros Hp; [reflexivity|].
  rewrite (Hp a), IH; auto.
Qed.

(** With a key on [f], the rows of [l] equal to [a] on [f] are [a] alone. *)
Lemma filter_key_single {A K} `{EqDec K} (f : A -> K) (l : list A) (a : A) :
  NoDup (map f l) -> In a l -> filter (fun b => eqb (f b) (f a)) l = [a].
Proof.
  induction l as [|b l IH]; simpl; intros ND I; [contradiction|].
  inversion ND as [|? ? NI ND']; subst.
  destruct I as [E|I].
  - subst b. rewrite eqb_refl. f_equal.
    apply filter_none. intros x Hx. apply eqb_neq. intros C.
    apply NI. rewrite <- C. apply in_map, Hx.
  - destruct (eqb (f b) (f a)) eqn:E.
    + apply (proj1 (eqb_eq _ _)) in E. exfalso. apply NI. rewrite E. apply in_map, I.
    + apply IH; assumption.
Qed.

Lemma NoDup_map_filter {A K} (f : A -> K) (p : A -> bool) (l : list A) :
  NoDup (map f l) -> NoDup (map f (filter p l)).
Proof.
  induction l as [|a l IH]; simpl; intros ND; [constructor|].
  inversion ND as [|? ? NI ND']; subst.
  destruct (p a); simpl; [constructor|]; auto.
  intros C. apply NI. apply in_map_iff in C as [x [E I]].
  apply filter_In in I as [I _]. rewrite <- E. apply in_map, I.
Qed.

Lemma NoDup_map_inj {A K} (f : A -> K) (l : list A) (a b : A) :
  NoDup (map f l) -> In a l -> In b l -> f a = f b -> a = b.
Proof.
  induction l as [|c l IH]; simpl; intros ND Ia Ib E; [contradiction|].
  inversion ND as [|? ? NI ND']; subst.
  destruct Ia as [Ea|Ia]; destruct Ib as [Eb|Ib]; subst.
  - reflexivity.
  - exfalso. apply NI. rewrite E. apply in_map, Ib.
  - exfalso. apply NI. rewrite <- E. apply in_map, Ia.
  - apply IH; assumption.
Qed.

(** Rows that agree on a key column of [l] are at most one. *)
Lemma same_key_at_most_one {A K} (f : A -> K) (k : K) (l : list A) :
  NoDup (map f l) -> (forall a, In a l -> f a = k) -> (List.length l <= 1)%nat.
Proof.
  destruct l as [|a [|b l]]; simpl; intros ND Hk; try lia.
  exfalso. inversion ND as [|? ? NI _]; subst. apply NI.
  rewrite (Hk a), <- (Hk b); simpl; auto.
Qed.

Lemma orNull_single {B} (l : list B) :
  (List.length l <= 1)%nat -> exists c, orNull l = [c].
Proof.
  destruct l as [|b [|b' l]]; simpl; intros Hl; try lia; eauto.
Qed.

Lemma In_orNull_Some {B} (l : list B) (b : B) : In (Some b) (orNull l) <-> In b l.
Proof.
  destruct l as [|b' l]; simpl; [split; [intros [C|[]]; discriminate | tauto]|].
  split.
  - intros [E|I]; [left; congruence|]. right.
    apply in_map_iff in I as [x [E I]]. congruence.
  - intros [E|I]; [left; congruence|]. right. apply in_map, I.
Qed.

Lemma In_orNull_None {B} (l : list B) : In None (orNull l) <-> l = [].
Proof.
  destruct l as [|b' l]; simpl; [tauto|]. split; [|discriminate].
  intros [C|I]; [discriminate|]. apply in_map_iff in I as [x [C _]]. discriminate.
Qed.

Lemma orNull_nonempty {B} (l : list B) : exists o, In o (orNull l).
Proof. destruct l as [|b l]; simpl; eauto. Qed.

Lemma NoDup_orNull {B K} (f : B -> K) (l : list B) :
  NoDup (map f l) -> NoDup (map (option_map f) (orNull l)).
Proof.
  destruct l as [|b l]; [intros _; simpl; constructor; [tauto | constructor]|].
  intros ND. unfold orNull. rewrite map_map.
  change (fun x => option_map f (Some x)) with (fun x => Some (f x)).
  remember (b :: l) as l' eqn:El. clear El b l.
  induction l' as [|a l IH]; simpl in *; [constructor|].
  inversion ND as [|? ? NI ND']; subst. constructor; [|apply IH, ND'].
  intros C. apply NI. apply in_map_iff in C as [x [E I]].
  injection E as E'. rewrite <- E'. apply in_map, I.
Qed.

Lemma filter_isSome_orNull {B} (l : list B) :
  List.length (filter isSome (orNull l)) = List.length l.
Proof.
  destruct l as [|b l]; [reflexivity|]. unfold orNull.
  rewrite filter_map_comm. simpl. rewrite length_map.
  f_equal. induction l as [|c l IH]; simpl; congruence.
Qed.

Section Segmentation.
Variable db : Db.


Lemma segmentJoin_rows : segmentJoin db = flat_map (rowsOf db) (users db).
Proof.
  unfold segmentJoin. rewrite !leftJoin_orNull.
  rewrite !flat_map_flat_map. apply flat_map_ext. intros u.
  rewrite !flat_map_map. unfold rowsOf. apply flat_map_ext. intros c.
  rewrite flat_map_map. apply flat_map_ext. intros m. reflexivity.
Qed.

Hypothesis wf : wellFormed db.

Lemma eqb_pair_l {X Y} `{EqDec X} `{EqDec Y} (a : X) (x y : Y) :
  eqb (a, x) (a, y) = eqb x y.
Proof.
  destruct (eqb x y) eqn:E.
  - apply (proj1 (eqb_eq _ _)) in E. subst. apply eqb_refl.
  - apply eqb_neq. apply (proj1 (eqb_neq _ _)) in E. congruence.
Qed.

Lemma flat_map_singleton {X Y} (f : X -> Y) (l : list X) :
  flat_map (fun x => [f x]) l = map f l.
Proof. induction l as [|x l IH]; simpl; congruence. Qed.

Lemma flat_map_only {X Y} (f : X -> list Y) (l : list X) (a : X) :
  NoDup l -> In a l -> (forall b, In b l -> b <> a -> f b = []) ->
  flat_map f l = f a.
Proof.
  induction l as [|x l IH]; simpl; intros ND I Hf; [contradiction|].
  inversion ND as [|? ? NI ND']; subst.
  destruct I as [E|I].
  - subst x. rewrite (flat_map_nil f l); [apply app_nil_r|].
    intros b Hb. apply Hf; [auto|]. intros C. subst. contradiction.
  - rewrite (Hf x); [|auto|intros C; subst; contradiction].
    simpl. apply IH; auto.
Qed.

Lemma In_rowsOf (u : User.t) (r : SegmentJoin) :
  In r (rowsOf db u) <->
  exists c m p, r = (((u, c), m), p) /\ In c (orNull (creditsOf db u)) /\
                In m (orNull (messagesOf db u)) /\ In p (orNull (paymentsOf db u)).
Proof.
  unfold rowsOf. rewrite in_flat_map. split.
  - intros [c [Ic I]]. apply in_flat_map in I as [m [Im I]].
    apply in_map_iff in I as [p [E Ip]]. exists c, m, p. auto.
  - intros [c [m [p [E [Ic [Im Ip]]]]]]. exists c. split; [exact Ic|].
    apply in_flat_map. exists m. split; [exact Im|].
    apply in_map_iff. exists p. auto.
Qed.

Lemma credits_single (u : User.t) : exists c, orNull (creditsOf db u) = [c].
Proof.
  apply orNull_single.
  apply (same_key_at_most_one UserCredit.userId (User.id u)).
  - apply NoDup_map_filter, (userCredits_pk db wf).
  - intros c Hc. apply filter_In in Hc as [_ E].
    apply (proj1 (eqb_eq _ _)) in E. auto.
Qed.

(** The group of a joined row: the same user, credit and payment, once
    per message (or once with NULL). *)
Lemma segment_group (u : User.t) (c : option UserCredit.t)
    (m : option MessageLog.t) (p : option PaymentRecord.t) :
  In u (users db) -> In c (orNull (creditsOf db u)) -> In p (orNull (paymentsOf db u)) ->
  filter (fun r => eqb (segmentKey r) (segmentKey (((u, c), m), p))) (segmentJoin db)
  = map (fun m' => (((u, c), m'), p)) (orNull (messagesOf db u)).
Proof.
  intros Iu Ic Ip. rewrite segmentJoin_rows, filter_flat_map.
  rewrite (flat_map_only _ (users db) u).
  - destruct (credits_single u) as [c0 Ec]. unfold rowsOf. rewrite Ec in *.
    destruct Ic as [Ec0|[]]. subst c0. simpl. rewrite app_nil_r.
    rewrite filter_flat_map. rewrite <- flat_map_singleton.
    apply flat_map_ext. intros m'. rewrite filter_map_comm.
    unfold segmentKey. 
    rewrite (filter_ext _ (fun p' => eqb (option_map PaymentRecord.id p')
                                        (option_map PaymentRecord.id p)))
      by (intros p'; apply eqb_pair_l).
    rewrite filter_key_single; [reflexivity | | exact Ip].
    apply NoDup_orNull, NoDup_map_filter, (paymentRecords_pk db wf).
  - apply (NoDup_map_inv User.id), (users_pk db wf).
  - exact Iu.
  - intros u' Iu' NE. apply filter_none. intros r Hr.
    apply In_rowsOf in Hr as [c' [m' [p' [E _]]]]. subst r.
    apply eqb_neq. unfold segmentKey. intros C. apply NE.
    apply (NoDup_map_inj User.id (users db)); [apply (users_pk db wf) | | | congruence];
      assumption.
Qed.


(** The rows of the grouped query: one per user and payment record (one
    with NULL for a user without payment records). *)
Lemma In_userSegments (R : UserSegmentation.Row) :
  In R (userSegments db) <->
  exists u c p, In u (users db) /\ In c (orNull (creditsOf db u)) /\
                In p (orNull (paymentsOf db u)) /\ R = segmentRow db u c p.
Proof.
  unfold userSegments. rewrite in_map_iff. split.
  - intros [[k g] [E I]]. apply In_groupBy in I as [Ik Eg].
    apply in_map_iff in Ik as [r [Ek Ir]].
    rewrite segmentJoin_rows in Ir. apply in_flat_map in Ir as [u [Iu Ir]].
    apply In_rowsOf in Ir as [c [m [p [Er [Ic [Im Ip]]]]]]. subst r.
    exists u, c, p. repeat split; try assumption.
    subst k. assert (Eg' := eq_trans Eg (segment_group u c m p Iu Ic Ip)). clear Eg. subst g R.
    unfold segmentKey, segmentRow. f_equal.
    + unfold countIf, count. rewrite filter_map_comm, length_map.
      f_equal. exact (filter_isSome_orNull (messagesOf db u)).
    + destruct p; reflexivity.
  - intros [u [c [p [Iu [Ic [Ip E]]]]]].
    destruct (orNull_nonempty (messagesOf db u)) as [m Im].
    exists (segmentKey (((u, c), m), p),
            filter (fun r => eqb (segmentKey r) (segmentKey (((u, c), m), p)))
                   (segmentJoin db)).
    split.
    + replace (filter (fun r => eqb (segmentKey r) (segmentKey (((u, c), m), p)))
                      (segmentJoin db))
        with (map (fun m' => (((u, c), m'), p)) (orNull (messagesOf db u)))
        by (symmetry; exact (segment_group u c m p Iu Ic Ip)).
      subst R.
      unfold segmentKey, segmentRow. f_equal.
      * unfold countIf, count. rewrite filter_map_comm, length_map.
        f_equal. exact (filter_isSome_orNull (messagesOf db u)).
      * destruct p; reflexivity.
    + apply In_groupBy. split; [|reflexivity].
      apply in_map. rewrite segmentJoin_rows. apply in_flat_map. exists u.
      split; [exact Iu|]. apply In_rowsOf. exists c, m, p. auto.
Qed.


Lemma rows_of_user (u : User.t) (R : UserSegmentation.Row) :
  In u (users db) ->
  (In R (userSegments db) /\ UserSegmentation.userId R = User.id u) <->
  exists c p, In c (orNull (creditsOf db u)) /\ In p (orNull (paymentsOf db u)) /\
              R = segmentRow db u c p.
Proof.
  intros Iu. rewrite In_userSegments. split.
  - intros [[u' [c [p [Iu' [Ic [Ip E]]]]]] Eid]. subst R. simpl in Eid.
    assert (u' = u).
    { apply (NoDup_map_inj User.id (users db)); auto. apply (users_pk db wf). }
    subst u'. eauto.
  - intros [c [p [Ic [Ip E]]]]. subst R. split; [|reflexivity]. eauto 7.
Qed.

Lemma appears_heavy (u : User.t) : In u (users db) ->
  appearsIn u (heavyUsers (userSegments db)) <-> 10 < count (messagesOf db u).
Proof.
  intros Iu. unfold appearsIn, heavyUsers. split.
  - intros [R [I E]]. apply filter_In in I as [I T].
    destruct (proj1 (rows_of_user u R Iu) (conj I E)) as [c [p [_ [_ ER]]]].
    subst R. simpl in T. lia.
  - intros H. destruct (orNull_nonempty (creditsOf db u)) as [c Ic].
    destruct (orNull_nonempty (paymentsOf db u)) as [p Ip].
    destruct (proj2 (rows_of_user u (segmentRow db u c p) Iu)) as [I E]; [eauto|].
    exists (segmentRow db u c p). rewrite filter_In. simpl. repeat split; auto. lia.
Qed.

Lemma appears_light (u : User.t) : In u (users db) ->
  appearsIn u (lightUsers (userSegments db)) <-> count (messagesOf db u) <= 10.
Proof.
  intros Iu. unfold appearsIn, lightUsers. split.
  - intros [R [I E]]. apply filter_In in I as [I T].
    destruct (proj1 (rows_of_user u R Iu) (conj I E)) as [c [p [_ [_ ER]]]].
    subst R. simpl in T. lia.
  - intros H. destruct (orNull_nonempty (creditsOf db u)) as [c Ic].
    destruct (orNull_nonempty (paymentsOf db u)) as [p Ip].
    destruct (proj2 (rows_of_user u (segmentRow db u c p) Iu)) as [I E]; [eauto|].
    exists (segmentRow db u c p). rewrite filter_In. simpl. repeat split; auto. lia.
Qed.

Lemma appears_paid (u : User.t) : In u (users db) ->
  appearsIn u (paidUsers (userSegments db)) <-> paymentsOf db u <> [].
Proof.
  intros Iu. unfold appearsIn, paidUsers. split.
  - intros [R [I E]]. apply filter_In in I as [I T].
    destruct (proj1 (rows_of_user u R Iu) (conj I E)) as [c [p [_ [Ip ER]]]].
    subst R. simpl in T. destruct p as [p|]; [|discriminate].
    apply (proj1 (In_orNull_Some _ _)) in Ip. intros C. rewrite C in Ip. destruct Ip.
  - intros H. destruct (orNull_nonempty (creditsOf db u)) as [c Ic].
    destruct (paymentsOf db u) as [|p ps] eqn:Eps; [congruence|].
    assert (Ip : In (Some p) (orNull (paymentsOf db u))).
    { apply In_orNull_Some. rewrite Eps. simpl. auto. }
    destruct (proj2 (rows_of_user u (segmentRow db u c (Some p)) Iu)) as [I E]; [eauto|].
    exists (segmentRow db u c (Some p)). rewrite filter_In. simpl. repeat split; auto.
Qed.

Lemma appears_free (u : User.t) : In u (users db) ->
  appearsIn u (freeUsers (userSegments db)) <-> paymentsOf db u = [].
Proof.
  intros Iu. unfold appearsIn, freeUsers. split.
  - intros [R [I E]]. apply filter_In in I as [I T].
    destruct (proj1 (rows_of_user u R Iu) (conj I E)) as [c [p [_ [Ip ER]]]].
    subst R. simpl in T. destruct p as [p|]; [discriminate|].
    apply (proj1 (In_orNull_None _)) in Ip. exact Ip.
  - intros H. destruct (orNull_nonempty (creditsOf db u)) as [c Ic].
    assert (Ip : In None (orNull (paymentsOf db u))) by (apply In_orNull_None, H).
    destruct (proj2 (rows_of_user u (segmentRow db u c None) Iu)) as [I E]; [eauto|].
    exists (segmentRow db u c None). rewrite filter_In. simpl. repeat split; auto.
Qed.

Lemma paymentsOf_nonempty (u : User.t) :
  paymentsOf db u <> [] <->
  exists p, In p (paymentRecords db) /\ PaymentRecord.userId p = User.id u.
Proof.
  unfold paymentsOf. split.
  - intros H. destruct (filter _ _) as [|p ps] eqn:E; [congruence|].
    assert (I : In p (p :: ps)) by (simpl; auto). rewrite <- E in I.
    apply filter_In in I as [I T]. apply (proj1 (eqb_eq _ _)) in T. eauto.
  - intros [p [I E]] C.
    assert (I' : In p (filter (fun p => eqb (User.id u) (PaymentRecord.userId p))
                              (paymentRecords db))).
    { apply filter_In. split; [exact I|]. apply eqb_eq. auto. }
    rewrite C in I'. destruct I'.
Qed.

End Segmentation.

(** A row of the first [n] of a segment is a row of the segment, and a
    segment of at most 10 rows is returned whole. *)
Lemma appearsIn_firstn (u : User.t) (n : nat) (segment : list UserSegmentation.Row) :
  appearsIn u (firstn n segment) -> appearsIn u segment.
Proof.
  intros [row [I E]]. exists row. split; [|exact E].
  rewrite <- (firstn_skipn n segment). apply in_or_app. left. exact I.
Qed.

Lemma firstn_whole {A} (l : list A) : count l <= 10 -> firstn 10 l = l.
Proof. unfold count. intros H. apply firstn_all2. lia. Qed.

Lemma threeUsers_wellFormed : wellFormed threeUsers.
Proof.
  split; vm_compute; repeat constructor; simpl; intuition discriminate.
Qed.


Lemma elevenUsers_wellFormed : wellFormed elevenUsers.
Proof.
  split; vm_compute; repeat constructor; simpl; intuition discriminate.
Qed.

(** Claim C1.  In the result of the userSegmentation query, under the
    primary keys of schema.ts, no user appears in both the free and the
    paid segment or in both the heavy and the light segment; a user who
    appears in the heavy segment has strictly more than 10 messages, in the
    light segment at most 10, in the paid segment a PaymentRecord row of
    any status, in the free segment none.  A segment whose count in the
    result is at most 10 is not cut by slice(0, 10), and a user appears in
    it exactly when the condition holds; when the counts of both segments
    of a pair are at most 10 every user appears in exactly one of the
    two. *)
Theorem userSegmentation_partition (db : Db) (u : User.t) :
  wellFormed db -> In u (users db) ->
  let r := userSegmentation db in
  let s := UserSegmentation.segments r in
  ~ (appearsIn u (UserSegmentation.free s) /\ appearsIn u (UserSegmentation.paid s)) /\
  ~ (appearsIn u (UserSegmentation.heavy s) /\ appearsIn u (UserSegmentation.light s)) /\
  (appearsIn u (UserSegmentation.heavy s) -> 10 < count (messagesOf db u)) /\
  (appearsIn u (UserSegmentation.light s) -> count (messagesOf db u) <= 10) /\
  (appearsIn u (UserSegmentation.paid s) -> hasPaymentRecord db u) /\
  (appearsIn u (UserSegmentation.free s) -> ~ hasPaymentRecord db u) /\
  (UserSegmentation.heavyUsers r <= 10 ->
   (appearsIn u (UserSegmentation.heavy s) <-> 10 < count (messagesOf db u))) /\
  (UserSegmentation.lightUsers r <= 10 ->
   (appearsIn u (UserSegmentation.light s) <-> count (messagesOf db u) <= 10)) /\
  (UserSegmentation.paidUsers r <= 10 ->
   (appearsIn u (UserSegmentation.paid s) <-> hasPaymentRecord db u)) /\
  (UserSegmentation.freeUsers r <= 10 ->
   (appearsIn u (UserSegmentation.free s) <-> ~ hasPaymentRecord db u)) /\
  (UserSegmentation.freeUsers r <= 10 -> UserSegmentation.paidUsers r <= 10 ->
   exactlyOne (appearsIn u (UserSegmentation.free s))
              (appearsIn u (UserSegmentation.paid s))) /\
  (UserSegmentation.heavyUsers r <= 10 -> UserSegmentation.lightUsers r <= 10 ->
   exactlyOne (appearsIn u (UserSegmentation.heavy s))
              (appearsIn u (UserSegmentation.light s))).
Proof.
  intros wf Iu r s. subst s r. unfold userSegmentation, userSegmentationOf.
  cbn [UserSegmentation.segments UserSegmentation.free UserSegmentation.paid
       UserSegmentation.heavy UserSegmentation.light UserSegmentation.freeUsers
       UserSegmentation.paidUsers UserSegmentation.heavyUsers
       UserSegmentation.lightUsers].
  set (rows := userSegments db).
  pose proof (appears_heavy db wf u Iu) as Hh.
  pose proof (appears_light db wf u Iu) as Hl.
  pose proof (appears_paid db wf u Iu) as Hp.
  pose proof (appears_free db wf u Iu) as Hf.
  pose proof (paymentsOf_nonempty db u) as Hn.
  fold rows in Hh, Hl, Hp, Hf. fold (hasPaymentRecord db u) in Hn.
  pose proof (appearsIn_firstn u 10 (freeUsers rows)) as Cf.
  pose proof (appearsIn_firstn u 10 (paidUsers rows)) as Cp.
  pose proof (appearsIn_firstn u 10 (heavyUsers rows)) as Ch.
  pose proof (appearsIn_firstn u 10 (lightUsers rows)) as Cl.
  assert (Dp : paymentsOf db u = [] \/ paymentsOf db u <> [])
    by (destruct (paymentsOf db u); [left | right]; congruence).
  assert (Dm : 10 < count (messagesOf db u) \/ count (messagesOf db u) <= 10) by lia.
  assert (Nm : ~ (10 < count (messagesOf db u) /\ count (messagesOf db u) <= 10)) by lia.
  unfold exactlyOne.
  repeat match goal with |- _ /\ _ => split end;
    try (intros L1 L2; rewrite !firstn_whole by assumption);
    try (intros L1; rewrite !firstn_whole by assumption);
    tauto.
Qed.

Lemma userSegmentation_partition_witness :
  let r := userSegmentation threeUsers in
  let s := UserSegmentation.segments r in
  wellFormed threeUsers /\ In bob (users threeUsers) /\
  UserSegmentation.lightUsers r <= 10 /\ UserSegmentation.paidUsers r <= 10 /\
  appearsIn bob (UserSegmentation.paid s) /\
  appearsIn bob (UserSegmentation.light s) /\
  ~ appearsIn bob (UserSegmentation.free s) /\
  ~ appearsIn bob (UserSegmentation.heavy s).
Proof.
  assert (I : In bob (users threeUsers)) by (simpl; auto).
  assert (Ll : UserSegmentation.lightUsers (userSegmentation threeUsers) <= 10)
    by (vm_compute; discriminate).
  assert (Lp : UserSegmentation.paidUsers (userSegmentation threeUsers) <= 10)
    by (vm_compute; discriminate).
  split; [exact threeUsers_wellFormed|]. split; [exact I|].
  split; [exact Ll|]. split; [exact Lp|].
  destruct (userSegmentation_partition threeUsers bob threeUsers_wellFormed I)
    as [N1 [N2 [_ [_ [_ [_ [_ [Hl [Hp _]]]]]]]]].
  assert (P : appearsIn bob (UserSegmentation.paid
                               (UserSegmentation.segments (userSegmentation threeUsers)))).
  { apply (Hp Lp). exists (PaymentRecord.mk 1 "bob" "pay_1" "succeeded" 49900 0).
    split; [simpl; auto | reflexivity]. }
  assert (L : appearsIn bob (UserSegmentation.light
                               (UserSegmentation.segments (userSegmentation threeUsers)))).
  { apply (Hl Ll). vm_compute. discriminate. }
  split; [exact P|]. split; [exact L|]. split.
  - intros F. apply N1. split; assumption.
  - intros H. apply N2. split; assumption.
Defined.

(** With eleven users and no payment record the free segment is cut to
    its first ten rows: freeUsers is 11 and the user with id 10 appears in
    neither the free nor the paid segment, and in neither the heavy nor
    the light one. *)
Lemma userSegmentation_partition_counterexample :
  let r := userSegmentation elevenUsers in
  let s := UserSegmentation.segments r in
  let u := User.mk "10" None ""%string in
  wellFormed elevenUsers /\ In u (users elevenUsers) /\
  UserSegmentation.freeUsers r = 11 /\
  List.length (UserSegmentation.free s) = 10%nat /\
  ~ exactlyOne (appearsIn u (UserSegmentation.free s))
               (appearsIn u (UserSegmentation.paid s)) /\
  ~ exactlyOne (appearsIn u (UserSegmentation.heavy s))
               (appearsIn u (UserSegmentation.light s)).
Proof.
  split; [exact elevenUsers_wellFormed|].
  split; [vm_compute; tauto|].
  split; [vm_compute; reflexivity|]. split; [vm_compute; reflexivity|].
  assert (N : forall segment,
             (forall row, In row segment ->
                          UserSegmentation.userId row <> "10"%string) ->
             ~ appearsIn (User.mk "10" None ""%string) segment).
  { intros segment H [row [I E]]. exact (H row I E). }
  split; intros [[H|H] _]; revert H; apply N; intros row I; vm_compute in I;
    repeat (destruct I as [<-|I]; [vm_compute; discriminate|]); contradiction.
Qed.

(* ================================================================== *)
(** * Period resolution, segment counts and limit days *)
(* ================================================================== *)

(** Claim C2.  For every period token in {7d, 30d, 90d, 1y} period
    resolution returns the interval whose startDate is now minus exactly
    daysFor(period) days, daysFor being 7, 30, 90 and 365, and whose
    endDate is now. *)
Theorem getDateRange_interval (now : Z) (period : Period) :
  exists days,
    daysFor (periodToken period) = Some days /\
    In days [7; 30; 90; 365] /\
    startDate (getDateRange now period) = now - days * msPerDay /\
    endDate (getDateRange now period) = now.
Proof.
  destruct period; [exists 7 | exists 30 | exists 90 | exists 365];
    unfold getDateRange, msPerDay; simpl; repeat split; auto; lia.
Qed.

Lemma filter_complement_count {A} (p q : A -> bool) (l : list A) :
  (forall a, q a = negb (p a)) ->
  count (filter p l) + count (filter q l) = count l.
Proof.
  intros Hq. unfold count. rewrite (filter_ext q (fun a => negb (p a)) Hq).
  pose proof (filter_partition_length p l). lia.
Qed.

(** Claim C10.  In the userSegmentation query freeUsers + paidUsers and
    heavyUsers + lightUsers both equal the number of rows of the grouped
    segmentation query, and each of segments.free, segments.paid,
    segments.heavy and segments.light holds at most 10 entries. *)
Theorem userSegmentation_counts (db : Db) :
  let r := userSegmentation db in
  let segments := UserSegmentation.segments r in
  UserSegmentation.freeUsers r + UserSegmentation.paidUsers r
    = count (userSegments db) /\
  UserSegmentation.heavyUsers r + UserSegmentation.lightUsers r
    = count (userSegments db) /\
  (List.length (UserSegmentation.free segments) <= 10)%nat /\
  (List.length (UserSegmentation.paid segments) <= 10)%nat /\
  (List.length (UserSegmentation.heavy segments) <= 10)%nat /\
  (List.length (UserSegmentation.light segments) <= 10)%nat.
Proof.
  intros r segments. subst segments r. unfold userSegmentation, userSegmentationOf.
  cbn [UserSegmentation.freeUsers UserSegmentation.paidUsers
       UserSegmentation.heavyUsers UserSegmentation.lightUsers
       UserSegmentation.segments UserSegmentation.free UserSegmentation.paid
       UserSegmentation.heavy UserSegmentation.light].
  repeat split; try apply firstn_length_le.
  - rewrite Z.add_comm. apply filter_complement_count. reflexivity.
  - apply filter_complement_count. intros a.
    rewrite Z.gtb_ltb. apply Z.leb_antisym.
Qed.

Lemma In_dailyMessageCounts DATE now db period (day : RateLimitingImpact.Day) :
  In day (dailyMessageCounts DATE now db period) <->
  messagesOn DATE now db period (RateLimitingImpact.userId day)
    (RateLimitingImpact.date day) <> [] /\
  RateLimitingImpact.messageCount day
  = count (messagesOn DATE now db period (RateLimitingImpact.userId day)
             (RateLimitingImpact.date day)).
Proof.
  unfold dailyMessageCounts, messagesOn. rewrite in_map_iff. split.
  - intros [[[u d] g] [E I]]. subst day. simpl.
    pose proof (groupBy_nonempty _ _ _ _ I) as NE.
    apply In_groupBy in I as [_ Eg]. subst g. auto.
  - intros [NE E]. destruct day as [u d c]. simpl in *. subst c.
    match goal with |- context [groupBy ?k ?rows] =>
      exists ((u, d), filter (fun m => eqb (k m) (u, d)) rows) end.
    split; [reflexivity|]. apply In_groupBy. split; [|reflexivity].
    match type of NE with ?lst <> [] => destruct lst as [|m ms] eqn:El; [congruence|] end.
    assert (I : In m (m :: ms)) by (simpl; auto). rewrite <- El in I.
    apply filter_In in I as [I T]. apply (proj1 (eqb_eq _ _)) in T.
    rewrite <- T. apply (in_map (fun m => (MessageLog.userId m, DATE (MessageLog.createdAt m)))), I.
Qed.


(** Claim C7.  In the rateLimitingImpact query every row of the grouped
    query carries the number of messages of its (user, date) pair in the
    interval; a (user, date) pair is a limit-hit day iff that number is at
    least 5; totalDaysWithLimitHits is the number of limit-hit rows, which
    differs from the number of distinct dates when two users hit the limit
    on one day; and dailyLimitHits is the first 50 such rows. *)
Theorem rateLimitingImpact_limit_days :
  (forall DATE now db period,
     let days := dailyMessageCounts DATE now db period in
     let r := rateLimitingImpact DATE now db period in
     (forall day, In day days ->
        RateLimitingImpact.messageCount day
        = count (messagesOn DATE now db period (RateLimitingImpact.userId day)
                   (RateLimitingImpact.date day)) /\
        (In day (usersHittingLimits days) <-> 5 <= RateLimitingImpact.messageCount day)) /\
     (forall u d,
        (exists day, In day (usersHittingLimits days) /\
                     RateLimitingImpact.userId day = u /\
                     RateLimitingImpact.date day = d)
        <-> 5 <= count (messagesOn DATE now db period u d)) /\
     RateLimitingImpact.totalDaysWithLimitHits r = count (usersHittingLimits days) /\
     RateLimitingImpact.dailyLimitHits r = firstn 50 (usersHittingLimits days)) /\
  (let r := rateLimitingImpact (fun t => t / msPerDay) 0 sharedDay P7d in
   RateLimitingImpact.totalDaysWithLimitHits r = 2 /\
   count (distinct (map RateLimitingImpact.date (RateLimitingImpact.dailyLimitHits r))) = 1).
Proof.
  split; [|vm_compute; auto].
  intros DATE now db period days r. subst days r.
  split; [|split; [|split; reflexivity]].
  - intros day I. pose proof (proj1 (In_dailyMessageCounts _ _ _ _ _) I) as [_ E].
    split; [exact E|]. unfold usersHittingLimits. rewrite filter_In. split.
    + intros [_ T]. lia.
    + intros T. split; [exact I | lia].
  - intros u d. unfold usersHittingLimits. split.
    + intros [day [I [Eu Ed]]]. apply filter_In in I as [I T].
      apply In_dailyMessageCounts in I as [_ E]. subst u d. lia.
    + intros H.
      exists {| RateLimitingImpact.userId := u; RateLimitingImpact.date := d;
                RateLimitingImpact.messageCount :=
                  count (messagesOn DATE now db period u d) |}.
      rewrite filter_In, In_dailyMessageCounts. simpl. repeat split; try lia.
      intros C. rewrite C in H. unfold count in H. simpl in H. lia.
Qed.

Lemma rateLimitingImpact_limit_days_witness :
  5 <= count (messagesOn (fun t => t / msPerDay) 0 sharedDay P7d "a" 0) /\
  exists day,
    In day (usersHittingLimits
              (dailyMessageCounts (fun t => t / msPerDay) 0 sharedDay P7d)) /\
    RateLimitingImpact.userId day = "a"%string /\
    RateLimitingImpact.date day = 0.
Proof.
  assert (H : 5 <= count (messagesOn (fun t => t / msPerDay) 0 sharedDay P7d "a" 0))
    by (vm_compute; discriminate).
  split; [exact H|].
  destruct (proj1 rateLimitingImpact_limit_days (fun t => t / msPerDay) 0 sharedDay P7d)
    as [_ [Hiff _]].
  apply (proj2 (Hiff "a"%string 0)). exact H.
Defined.

(* ================================================================== *)
(** * Request success rates *)
(* ================================================================== *)

Lemma percentOf_zero (num : Z) : percentOf num 0 = "0"%string.
Proof. reflexivity. Qed.

Lemma percentOf_pos (num den : Z) : 0 < den ->
  percentOf num den = toFixed2 (nmul (ndiv (ofZ num) (ofZ den)) (ofZ 100)).
Proof.
  intros H. unfold percentOf. destruct (Z.gtb_spec den 0); [reflexivity | lia].
Qed.

Lemma average_zero (total : Z) : average total 0 = "0"%string.
Proof. reflexivity. Qed.

Lemma reduceSum_map {A B} (f : B -> Z) (g : A -> B) (l : list A) :
  reduceSum f (map g l) = reduceSum (fun a => f (g a)) l.
Proof.
  induction l as [|a l IH]; [reflexivity|].
  simpl map. rewrite !reduceSum_cons, IH. reflexivity.
Qed.

Lemma filter_nonempty_In {A} (p : A -> bool) (l : list A) :
  filter p l <> [] -> exists a, In a l /\ p a = true.
Proof.
  intros NE. destruct (filter p l) as [|a l'] eqn:E; [congruence|].
  assert (I : In a (a :: l')) by (simpl; auto). rewrite <- E in I.
  apply filter_In in I. eauto.
Qed.

Lemma In_apiStatsRows now db period (row : SystemHealth.Api.t) :
  In row (apiStatsRows now db period) ->
  let rows := requestsFor now db period (SystemHealth.Api.action row) in
  SystemHealth.Api.totalRequests row = count rows /\
  SystemHealth.Api.successfulRequests row = countIf RequestLog.success rows /\
  0 < SystemHealth.Api.totalRequests row.
Proof.
  unfold apiStatsRows, requestsFor. rewrite in_map_iff.
  intros [[a g] [E I]]. subst row. simpl.
  pose proof (groupBy_nonempty _ _ _ _ I) as NE.
  apply In_groupBy in I as [_ Eg]. subst g. repeat split.
  unfold count. destruct (filter _ _); [congruence | simpl; lia].
Qed.

Lemma apiStatsRows_action now db period (a : string) :
  requestsFor now db period a <> [] ->
  exists row, In row (apiStatsRows now db period) /\ SystemHealth.Api.action row = a.
Proof.
  intros NE. unfold apiStatsRows.
  exists {| SystemHealth.Api.action := a;
            SystemHealth.Api.totalRequests := count (requestsFor now db period a);
            SystemHealth.Api.successfulRequests :=
              countIf RequestLog.success (requestsFor now db period a);
            SystemHealth.Api.avgResponseTime :=
              Qred (inject_Z (countIf (fun l => RequestLog.statusCode l <? 400)
                                (requestsFor now db period a))
                    / inject_Z (count (requestsFor now db period a))) |}.
  split; [|reflexivity]. apply in_map_iff.
  exists (a, requestsFor now db period a). split; [reflexivity|].
  apply In_groupBy. split; [|reflexivity].
  apply filter_nonempty_In in NE as [l [I T]].
  apply (proj1 (eqb_eq _ _)) in T. rewrite <- T. apply in_map, I.
Qed.

Lemma countIf_split {A} (p : A -> bool) (l : list A) :
  countIf p l + countIf (fun a => negb (p a)) l = count l.
Proof. unfold countIf, count. pose proof (filter_partition_length p l). lia. Qed.

(** Claim C6.  In the systemHealth query every apiStats entry counts the
    requests of its action in the interval and the successful ones among
    them, and its successRate is successfulRequests / totalRequests * 100
    written with two decimals; the top-level totalRequests is the sum of
    totalRequests over the entries; and an action with 100 successful and
    5 failed rows yields the entry with totalRequests 105,
    successfulRequests 100 and successRate "95.24". *)
Theorem systemHealth_success_rates (now : Z) (db : Db) (period : Period) :
  let r := systemHealth now db period in
  (forall stat, In stat (SystemHealth.apiStats r) ->
     let row := SystemHealth.row stat in
     let rows := requestsFor now db period (SystemHealth.Api.action row) in
     SystemHealth.Api.totalRequests row = count rows /\
     SystemHealth.Api.successfulRequests row = countIf RequestLog.success rows /\
     SystemHealth.successRate stat
     = toFixed2 (nmul (ndiv (ofZ (SystemHealth.Api.successfulRequests row))
                            (ofZ (SystemHealth.Api.totalRequests row)))
                      (ofZ 100))) /\
  SystemHealth.totalRequests r
  = reduceSum (fun stat => SystemHealth.Api.totalRequests (SystemHealth.row stat))
              (SystemHealth.apiStats r) /\
  (forall a,
     countIf RequestLog.success (requestsFor now db period a) = 100 ->
     countIf (fun l => negb (RequestLog.success l)) (requestsFor now db period a) = 5 ->
     exists stat, In stat (SystemHealth.apiStats r) /\
       SystemHealth.Api.action (SystemHealth.row stat) = a /\
       SystemHealth.Api.totalRequests (SystemHealth.row stat) = 105 /\
       SystemHealth.Api.successfulRequests (SystemHealth.row stat) = 100 /\
       SystemHealth.successRate stat = "95.24"%string).
Proof.
  intros r. subst r. unfold systemHealth, systemHealthOf.
  cbn [SystemHealth.apiStats SystemHealth.totalRequests]. split; [|split].
  - intros stat I. apply in_map_iff in I as [row [E I]]. subst stat.
    cbn [SystemHealth.row SystemHealth.successRate].
    destruct (In_apiStatsRows now db period row I) as [E1 [E2 P]].
    repeat split; try assumption. apply percentOf_pos, P.
  - rewrite reduceSum_map. reflexivity.
  - intros a H100 H5.
    pose proof (countIf_split RequestLog.success (requestsFor now db period a)) as HS.
    destruct (apiStatsRows_action now db period a) as [row [I Ea]].
    { intros C. rewrite C in H100. unfold countIf in H100. simpl in H100. lia. }
    destruct (In_apiStatsRows now db period row I) as [E1 [E2 P]].
    rewrite Ea in E1, E2.
    exists {| SystemHealth.row := row;
              SystemHealth.successRate :=
                percentOf (SystemHealth.Api.successfulRequests row)
                          (SystemHealth.Api.totalRequests row) |}.
    cbn [SystemHealth.row SystemHealth.successRate].
    split; [apply in_map_iff; exists row; auto|].
    rewrite E1, E2, H100. split; [exact Ea|]. split; [lia|]. split; [reflexivity|].
    replace (count (requestsFor now db period a)) with 105 by lia.
    vm_compute. reflexivity.
Qed.


Lemma systemHealth_success_rates_witness :
  exists stat, In stat (SystemHealth.apiStats (systemHealth 0 chatLogs P7d)) /\
    SystemHealth.Api.action (SystemHealth.row stat) = "chat"%string /\
    SystemHealth.Api.totalRequests (SystemHealth.row stat) = 105 /\
    SystemHealth.Api.successfulRequests (SystemHealth.row stat) = 100 /\
    SystemHealth.successRate stat = "95.24"%string.
Proof.
  apply (proj2 (proj2 (systemHealth_success_rates 0 chatLogs P7d)) "chat"%string);
    vm_compute; reflexivity.
Defined.

(* ================================================================== *)
(** * Division by zero *)
(* ================================================================== *)

Lemma ndiv_finite (a b : Z) : b <> 0 ->
  ndiv (ofZ a) (ofZ b) = Fin (rnd (inject_Z a / inject_Z b)).
Proof.
  intros Hb. unfold ndiv, ofZ, Qzero.
  destruct (Qeq_bool (inject_Z b) 0) eqn:E; [|reflexivity].
  apply Qeq_bool_iff in E. unfold Qeq in E. simpl in E. lia.
Qed.

(** Claim C3.  Every derived ratio or average of the metric bundles is the
    string "0" when its denominator is zero: the four funnel conversion
    rates, the tier successRate, averageProcessingTime, the provider
    percentage, avgMessagesPerUser, averageMessagesOnLimitDays, the api
    successRate and arpu.  The denominator of growthRate is
    [max (totalUsers - newUsersInPeriod) 1] and never zero: growthRate is
    "0" when totalUsers is zero and the notation of a finite number
    otherwise.  The string "0" is neither "NaN" nor an infinity. *)
Theorem ratios_guard_zero_denominator :
  (forall registrations firstMessage paymentIntent completedPayment,
     let rates := ConversionFunnel.conversionRates
       (conversionFunnelOf registrations firstMessage paymentIntent completedPayment) in
     (registrations = 0 ->
        ConversionFunnel.registrationToFirstMessage rates = "0"%string /\
        ConversionFunnel.overallConversion rates = "0"%string) /\
     (firstMessage = 0 ->
        ConversionFunnel.firstMessageToPaymentIntent rates = "0"%string) /\
     (paymentIntent = 0 ->
        ConversionFunnel.paymentIntentToCompletion rates = "0"%string)) /\
  (forall tierStats processingTimes stat,
     In stat (PaymentAnalysis.tierStats (paymentAnalysisOf tierStats processingTimes)) ->
     PaymentAnalysis.totalAttempts (PaymentAnalysis.row stat) = 0 ->
     PaymentAnalysis.successRate stat = "0"%string) /\
  (forall tierStats processingTimes,
     count processingTimes = 0 ->
     PaymentAnalysis.averageProcessingTime (paymentAnalysisOf tierStats processingTimes)
     = "0"%string) /\
  (forall providerStats stat,
     let r := authenticationPatternsOf providerStats in
     In stat (AuthenticationPatterns.providerStats r) ->
     AuthenticationPatterns.totalAccounts r = 0 ->
     AuthenticationPatterns.percentage stat = "0"%string) /\
  (forall DATE now db period,
     let r := userEngagement DATE now db period in
     UserEngagement.totalActiveUsers r = 0 ->
     UserEngagement.avgMessagesPerUser r = "0"%string) /\
  (forall dailyMessageCounts,
     let r := rateLimitingImpactOf dailyMessageCounts in
     RateLimitingImpact.totalDaysWithLimitHits r = 0 ->
     RateLimitingImpact.averageMessagesOnLimitDays r = "0"%string) /\
  (forall apiStats errorPatterns stat,
     In stat (SystemHealth.apiStats (systemHealthOf apiStats errorPatterns)) ->
     SystemHealth.Api.totalRequests (SystemHealth.row stat) = 0 ->
     SystemHealth.successRate stat = "0"%string) /\
  (forall monthlyRevenue uniquePayingUsers,
     uniquePayingUsers = 0 ->
     RevenueMetrics.arpu (revenueMetricsOf monthlyRevenue uniquePayingUsers) = "0"%string) /\
  (forall isoDate now db now' random period,
     let r := userGrowth isoDate now db now' random period in
     (UserGrowth.totalUsers r = 0 -> UserGrowth.growthRate r = "0"%string) /\
     (UserGrowth.totalUsers r <> 0 ->
      exists q, UserGrowth.growthRate r = toFixed2 (Fin q))) /\
  "0"%string <> toFixed2 NaN /\
  (forall negative, "0"%string <> toFixed2 (Infinity negative)).
Proof.
  repeat match goal with |- _ /\ _ => split end.
  - intros reg fm pi cp rates. subst rates. unfold conversionFunnelOf.
    cbn [ConversionFunnel.conversionRates ConversionFunnel.registrationToFirstMessage
         ConversionFunnel.firstMessageToPaymentIntent
         ConversionFunnel.paymentIntentToCompletion ConversionFunnel.overallConversion].
    repeat split; intros; subst; reflexivity.
  - intros tiers samples stat I Z0. unfold paymentAnalysisOf in I.
    cbn [PaymentAnalysis.tierStats] in I. apply in_map_iff in I as [row [E I]].
    subst stat. cbn [PaymentAnalysis.row PaymentAnalysis.successRate] in *.
    rewrite Z0. reflexivity.
  - intros tiers samples Z0. unfold paymentAnalysisOf.
    cbn [PaymentAnalysis.averageProcessingTime]. rewrite Z0. reflexivity.
  - intros rows stat r I Z0. subst r. unfold authenticationPatternsOf in *.
    cbn [AuthenticationPatterns.providerStats AuthenticationPatterns.totalAccounts] in *.
    apply in_map_iff in I as [row [E I]]. subst stat.
    cbn [AuthenticationPatterns.percentage]. rewrite Z0. reflexivity.
  - intros DATE now db period r. subst r. unfold userEngagement.
    cbn [UserEngagement.totalActiveUsers UserEngagement.avgMessagesPerUser].
    intros Z0. rewrite Z0. reflexivity.
  - intros days r. subst r. unfold rateLimitingImpactOf.
    cbn [RateLimitingImpact.totalDaysWithLimitHits
         RateLimitingImpact.averageMessagesOnLimitDays].
    intros Z0. rewrite Z0. reflexivity.
  - intros apis errs stat I Z0. unfold systemHealthOf in I.
    cbn [SystemHealth.apiStats] in I. apply in_map_iff in I as [row [E I]].
    subst stat. cbn [SystemHealth.row SystemHealth.successRate] in *.
    rewrite Z0. reflexivity.
  - intros months n Z0. subst n. reflexivity.
  - intros isoDate now db now' random period r. subst r. unfold userGrowth.
    cbn [UserGrowth.totalUsers UserGrowth.growthRate]. split.
    + intros Z0. rewrite Z0. reflexivity.
    + intros NZ. destruct (Z.eqb_spec (count (users db)) 0) as [E|_]; [contradiction|].
      rewrite ndiv_finite by lia. unfold nmul, ofZ. eauto.
  - discriminate.
  - intros []; discriminate.
Qed.

Lemma ratios_guard_zero_denominator_witness :
  ConversionFunnel.registrationToFirstMessage
    (ConversionFunnel.conversionRates (conversionFunnelOf 0 3 2 1)) = "0"%string /\
  RevenueMetrics.arpu (revenueMetricsOf [] 0) = "0"%string.
Proof.
  split.
  - apply (proj1 (proj1 ratios_guard_zero_denominator 0 3 2 1)). reflexivity.
  - apply (proj1 (proj2 (proj2 (proj2 (proj2 (proj2 (proj2 (proj2
             ratios_guard_zero_denominator))))))) [] 0). reflexivity.
Defined.

(* ================================================================== *)
(** * Averages and totals in fixed notation *)
(* ================================================================== *)

Lemma showN_parse (n : Z) :
  exists u, NilEmpty.uint_of_string (showN n) = Some u /\
            N.of_uint u = Z.to_N n /\ showN n <> ""%string.
Proof.
  unfold showN, NilZero.string_of_uint.
  pose proof (Unsigned.of_to (Z.to_N n)) as H.
  destruct (N.to_uint (Z.to_N n)) as [|d|d|d|d|d|d|d|d|d|d] eqn:E;
    [exists (Decimal.D0 Decimal.Nil); repeat split; [exact H | discriminate]|..];
    (eexists; split; [apply NilEmpty.usu | split; [exact H | discriminate]]).
Qed.

Lemma readN_showN (n : Z) : 0 <= n -> readN (showN n) = Some n.
Proof.
  intros Hn. unfold readN. destruct (showN_parse n) as [u [E [V _]]].
  rewrite E. simpl. rewrite V. f_equal. lia.
Qed.

Lemma digit_not_dot (c : ascii) (d : option Decimal.uint) (u : Decimal.uint) :
  uint_of_char c d = Some u -> Ascii.eqb c "."%char = false.
Proof.
  destruct d as [d|]; [|discriminate]. intros H.
  apply uint_of_char_spec in H.
  destruct H as [[E _]|[[E _]|[[E _]|[[E _]|[[E _]|[[E _]|[[E _]|[[E _]|[[E _]|[E _]]]]]]]]]];
    subst c; reflexivity.
Qed.

Lemma splitDot_digits (a t : string) (u : Decimal.uint) :
  NilEmpty.uint_of_string a = Some u ->
  splitDot (a ++ String "."%char t) = Some (a, t).
Proof.
  revert u. induction a as [|c a IH]; intros u H; [reflexivity|].
  simpl in *. rewrite (digit_not_dot c _ u H).
  destruct (NilEmpty.uint_of_string a) as [u'|] eqn:E; [|discriminate].
  rewrite (IH u' eq_refl). reflexivity.
Qed.

(** The two digits after the point, checked for all hundred values. *)
Lemma twoDigits_ok (k : Z) : 0 <= k < 100 ->
  String.length (twoDigits k) = 2%nat /\ readN (twoDigits k) = Some k.
Proof.
  intros Hk.
  assert (T : forallb (fun i => let k := Z.of_nat i in
                         (String.length (twoDigits k) =? 2)%nat
                         && match readN (twoDigits k) with
                            | Some v => v =? k
                            | None => false
                            end) (seq 0 100) = true) by (vm_compute; reflexivity).
  rewrite forallb_forall in T. specialize (T (Z.to_nat k)).
  rewrite Z2Nat.id in T by lia. cbv zeta in T.
  apply andb_true_iff in T as [T1 T2]; [|apply in_seq; lia].
  apply Nat.eqb_eq in T1. split; [exact T1|].
  destruct (readN (twoDigits k)) as [v|]; [|discriminate].
  apply Z.eqb_eq in T2. congruence.
Qed.

Lemma readFixed2_showFixed2 (n : Z) : 0 <= n -> readFixed2 (showFixed2 n) = Some n.
Proof.
  intros Hn. unfold readFixed2, showFixed2.
  pose proof (Z.mod_pos_bound n 100 ltac:(lia)) as Hm.
  destruct (twoDigits_ok (n mod 100) Hm) as [L R].
  destruct (showN_parse (n / 100)) as [u [E [_ NE]]].
  change (showN (n / 100) ++ "." ++ showN (n mod 100 / 10) ++ showN ((n mod 100) mod 10))%string
    with (showN (n / 100) ++ String "."%char (twoDigits (n mod 100)))%string.
  rewrite (splitDot_digits _ _ u E).
  rewrite readN_showN by (apply Z.div_pos; lia). rewrite R, L.
  destruct (showN (n / 100)) as [|c rest]; [congruence|].
  simpl. f_equal. pose proof (Z.div_mod n 100 ltac:(lia)). lia.
Qed.

Lemma digit_not_minus (c : ascii) (d : option Decimal.uint) (u : Decimal.uint) :
  uint_of_char c d = Some u -> Ascii.eqb c "-"%char = false.
Proof.
  destruct d as [d|]; [|discriminate]. intros H.
  apply uint_of_char_spec in H.
  destruct H as [[E _]|[[E _]|[[E _]|[[E _]|[[E _]|[[E _]|[[E _]|[[E _]|[[E _]|[E _]]]]]]]]]];
    subst c; reflexivity.
Qed.

Lemma readCents_showCents (n : Z) : readCents (showCents n) = Some n.
Proof.
  unfold showCents. destruct (Z.ltb_spec n 0) as [N|P].
  - change ("-" ++ showFixed2 (Z.abs n))%string
      with (String "-"%char (showFixed2 (Z.abs n))).
    cbn [readCents]. change (Ascii.eqb "-" "-") with true. cbv iota.
    rewrite readFixed2_showFixed2 by lia. simpl. f_equal. lia.
  - change ("" ++ showFixed2 (Z.abs n))%string with (showFixed2 (Z.abs n)).
    replace (Z.abs n) with n by lia.
    pose proof (readFixed2_showFixed2 n P) as R.
    destruct (showN_parse (n / 100)) as [u [E [_ NE]]].
    unfold showFixed2 in *. destruct (showN (n / 100)) as [|c rest]; [congruence|].
    simpl in E. cbn [String.append readCents].
    rewrite (digit_not_minus c _ u E). exact R.
Qed.

Lemma Qfloor_unique (x : Q) (k : Z) :
  (inject_Z k <= x)%Q -> (x < inject_Z k + 1)%Q -> Qfloor x = k.
Proof.
  intros H1 H2. pose proof (floor_bounds x) as [F1 F2].
  assert (A : (Qfloor x < k + 1)%Z).
  { rewrite Zlt_Qlt, inject_Z_plus. change (inject_Z 1) with 1%Q. lra. }
  assert (B : (k < Qfloor x + 1)%Z).
  { rewrite Zlt_Qlt, inject_Z_plus. change (inject_Z 1) with 1%Q. lra. }
  lia.
Qed.

Lemma hundredths_bounds (x : Q) :
  (x * 100 - (1 # 2) < inject_Z (hundredths x))%Q /\
  (inject_Z (hundredths x) <= x * 100 + (1 # 2))%Q.
Proof.
  unfold hundredths. pose proof (floor_bounds (x * 100 + (1 # 2))) as [F1 F2].
  split; lra.
Qed.

Lemma hundredths_comp (x y : Q) : (x == y)%Q -> hundredths x = hundredths y.
Proof. intros E. unfold hundredths. apply Qfloor_comp. rewrite E. reflexivity. Qed.

Lemma Qle_bool_false (x y : Q) : (y < x)%Q -> Qle_bool x y = false.
Proof.
  intros H. destruct (Qle_bool x y) eqn:E; [|reflexivity].
  apply Qle_bool_iff in E. lra.
Qed.

Lemma Qle_bool_true (x y : Q) : (x <= y)%Q -> Qle_bool x y = true.
Proof. intros H. apply Qle_bool_iff, H. Qed.


Lemma toFixed2_nonneg (q : Q) : (0 <= q)%Q -> (q < fixedLimit)%Q ->
  toFixed2 (Fin q) = showFixed2 (hundredths q).
Proof.
  intros H0 H1. unfold toFixed2, Qneg.
  rewrite (Qle_bool_true 0 q H0). cbn [negb].
  rewrite Qle_bool_false by (rewrite Qabs_pos by exact H0; exact H1).
  rewrite (hundredths_comp (Qabs q) q (Qabs_pos q H0)). reflexivity.
Qed.

Lemma toFixed2_neg (q : Q) : (q < 0)%Q -> (- q < fixedLimit)%Q ->
  toFixed2 (Fin q) = ("-" ++ showFixed2 (hundredths (- q)))%string.
Proof.
  intros H0 H1. unfold toFixed2, Qneg.
  rewrite (Qle_bool_false 0 q H0). cbn [negb].
  assert (E : (Qabs q == - q)%Q) by (apply Qabs_neg, Qlt_le_weak, H0).
  rewrite Qle_bool_false by (rewrite E; exact H1).
  rewrite (hundredths_comp (Qabs q) (- q) E). reflexivity.
Qed.

Lemma reduceSum_ge {A} (f : A -> Z) (k : Z) (l : list A) :
  (forall a, In a l -> k <= f a) -> k * count l <= reduceSum f l.
Proof.
  unfold count. induction l as [|a l IH]; intros H; [rewrite reduceSum_nil; simpl; lia|].
  rewrite reduceSum_cons. simpl List.length.
  assert (k <= f a) by (apply H; simpl; auto).
  assert (k * Z.of_nat (List.length l) <= reduceSum f l)
    by (apply IH; intros; apply H; simpl; auto).
  lia.
Qed.

Lemma average_pos (total n : Z) : 0 < n ->
  average total n = toFixed2 (Fin (rnd (inject_Z total / inject_Z n))).
Proof.
  intros H. unfold average. destruct (Z.gtb_spec n 0); [|lia].
  rewrite ndiv_finite by lia. reflexivity.
Qed.

Lemma pow53_lt_limit : (inject_Z (2 ^ 53) < fixedLimit)%Q.
Proof. reflexivity. Qed.

(** Claim C9.  In the rateLimitingImpact query, when at least one limit-hit
    day exists (and the messages on limit days number less than 2^53),
    averageMessagesOnLimitDays read as a number is at least 5: it is the
    two-decimal notation of a number of hundredths, reads back as that
    number, and the number is at least 500. *)
Theorem averageMessagesOnLimitDays_at_least_5 DATE now db period :
  let days := dailyMessageCounts DATE now db period in
  let r := rateLimitingImpact DATE now db period in
  0 < RateLimitingImpact.totalDaysWithLimitHits r ->
  reduceSum RateLimitingImpact.messageCount (usersHittingLimits days) < 2 ^ 53 ->
  exists n,
    RateLimitingImpact.averageMessagesOnLimitDays r = showFixed2 n /\
    readFixed2 (RateLimitingImpact.averageMessagesOnLimitDays r) = Some n /\
    500 <= n.
Proof.
  intros days r. subst r. unfold rateLimitingImpact, rateLimitingImpactOf.
  fold days. cbn [RateLimitingImpact.totalDaysWithLimitHits
                  RateLimitingImpact.averageMessagesOnLimitDays].
  set (hits := usersHittingLimits days).
  set (S := reduceSum RateLimitingImpact.messageCount hits).
  intros Hn HS. rewrite average_pos by exact Hn.
  assert (H5 : 5 * count hits <= S).
  { apply reduceSum_ge. intros a I. unfold hits, usersHittingLimits in I.
    apply filter_In in I as [_ T]. lia. }
  set (n := count hits) in *.
  set (x := rnd (inject_Z S / inject_Z n)).
  assert (Qn : (0 < inject_Z n)%Q) by (rewrite Zlt_Qlt in Hn; exact Hn).
  assert (L : (5 <= inject_Z S / inject_Z n)%Q).
  { apply Qle_shift_div_l; [exact Qn|].
    change 5%Q with (inject_Z 5). rewrite <- inject_Z_mult, <- Zle_Qle. lia. }
  assert (U : (inject_Z S / inject_Z n <= inject_Z S)%Q).
  { apply Qle_shift_div_r; [exact Qn|].
    rewrite <- inject_Z_mult, <- Zle_Qle. nia. }
  assert (X5 : (5 <= x)%Q).
  { assert (E : (rnd 5 == 5)%Q) by (vm_compute; reflexivity).
    rewrite <- E. apply rnd_mono, L. }
  assert (XS : (x <= inject_Z S)%Q).
  { rewrite <- (rnd_int S) by lia. apply rnd_mono, U. }
  assert (H500 : 500 <= hundredths x).
  { pose proof (hundredths_bounds x) as [B1 _].
    assert (A : (inject_Z 499 < inject_Z (hundredths x))%Q).
    { change (inject_Z 499) with (499 # 1)%Q. lra. }
    rewrite <- Zlt_Qlt in A. lia. }
  assert (E : toFixed2 (Fin x) = showFixed2 (hundredths x)).
  { apply toFixed2_nonneg; [lra|].
    apply Qle_lt_trans with (inject_Z S); [exact XS|].
    apply Qlt_trans with (inject_Z (2 ^ 53)); [|exact pow53_lt_limit].
    rewrite <- Zlt_Qlt. exact HS. }
  exists (hundredths x). split; [exact E|]. split; [|exact H500].
  rewrite E. apply readFixed2_showFixed2. lia.
Qed.

Lemma averageMessagesOnLimitDays_at_least_5_witness :
  let r := rateLimitingImpact (fun t => t / msPerDay) 0 sharedDay P7d in
  exists n,
    RateLimitingImpact.averageMessagesOnLimitDays r = showFixed2 n /\
    readFixed2 (RateLimitingImpact.averageMessagesOnLimitDays r) = Some n /\
    500 <= n.
Proof.
  apply (averageMessagesOnLimitDays_at_least_5 (fun t => t / msPerDay) 0 sharedDay P7d);
    vm_compute; reflexivity.
Defined.

Lemma rnd_neg (x : Q) : (x < 0)%Q -> (rnd x < 0)%Q.
Proof.
  intros H. rewrite rnd_neg_eq by exact H.
  pose proof (rndPos_pos (- x)). lra.
Qed.

Lemma rnd_err_bounds (x : Q) : (0 <= x)%Q ->
  (x * (1 - eps) <= rnd x <= x * (1 + eps))%Q.
Proof.
  intros H. pose proof (rnd_err x) as E. rewrite (Qabs_pos x H) in E.
  apply Qabs_Qle_condition in E. unfold eps in *. lra.
Qed.

Lemma cents_exact (S : Z) : Z.abs S < 2 ^ 52 ->
  toFixed2 (ndiv (ofZ S) (ofZ 100)) = showCents S.
Proof.
  intros HS. rewrite ndiv_finite by lia.
  change (inject_Z 100) with 100%Q. unfold showCents.
  assert (L : (fixedLimit == 1000000000000000000000 # 1)%Q) by reflexivity.
  assert (Ey : (inject_Z S / 100 * 100 == inject_Z S)%Q) by field.
  destruct (Z.ltb_spec S 0) as [N|P].
  - assert (Q0 : (inject_Z S < 0)%Q) by (rewrite Zlt_Qlt in N; exact N).
    assert (QS : (- inject_Z S < 4503599627370496)%Q).
    { rewrite <- inject_Z_opp. change 4503599627370496%Q with (inject_Z (2 ^ 52)).
      rewrite <- Zlt_Qlt. lia. }
    replace (Z.abs S) with (- S) by lia.
    remember (inject_Z S) as s eqn:Es. remember (s / 100)%Q as y eqn:Hy.
    assert (X0 : (rnd y < 0)%Q) by (apply rnd_neg; lra).
    pose proof (rnd_err y) as E.
    rewrite (Qabs_neg y) in E by lra.
    apply Qabs_Qle_condition in E. unfold eps in E.
    rewrite toFixed2_neg; [|exact X0|rewrite L; lra].
    f_equal. f_equal. unfold hundredths.
    apply Qfloor_unique; rewrite inject_Z_opp, <- Es; lra.
  - assert (Q0 : (0 <= inject_Z S)%Q) by (rewrite Zle_Qle in P; exact P).
    assert (QS : (inject_Z S < 4503599627370496)%Q).
    { change 4503599627370496%Q with (inject_Z (2 ^ 52)). rewrite <- Zlt_Qlt. lia. }
    replace (Z.abs S) with S by lia.
    remember (inject_Z S) as s eqn:Es. remember (s / 100)%Q as y eqn:Hy.
    pose proof (rnd_err_bounds y) as E. unfold eps in E.
    assert (E' := E ltac:(lra)). clear E.
    rewrite toFixed2_nonneg; [|lra|rewrite L; lra].
    simpl String.append. f_equal. unfold hundredths.
    apply Qfloor_unique; rewrite <- Es; lra.
Qed.

(** The rows that the two statements of revenueMetrics read are the
    succeeded payment records of the interval. *)
Lemma succeededInRange_spec now db period (p : PaymentRecord.t) :
  In p (succeededInRange now db period) <->
  In p (paymentRecords db) /\ succeededPayment now period p.
Proof.
  unfold succeededInRange, succeededPayment, between.
  rewrite filter_In, !andb_true_iff, !Z.leb_le.
  change (endDate (getDateRange now period)) with now.
  split.
  - intros [I [[B1 B2] E]]. apply (proj1 (eqb_eq _ _)) in E. auto.
  - intros [I [E [B1 B2]]]. repeat split; try assumption.
    apply (proj2 (eqb_eq _ _)). exact E.
Qed.

(** Claim C5.  In the revenueMetrics query, for revenue below 2^52 cents
    in absolute value, totalRevenue is the two-decimal notation of the sum
    of the monthly revenues in cents divided by 100 and reads back as that
    number of hundredths, so that totalRevenue * 100 is that sum.  For any
    duplicate-free list [payers] of the users who have a payment record of
    the table with status succeeded, created from the start date of the
    period up to now, uniquePayingUsers is the length of the list, and
    arpu is the sum in cents divided by that number, divided by 100,
    written with two decimals, or "0" when there is no such user. *)
Theorem revenueMetrics_totals TO_CHAR_YYYY_MM now db period (payers : list string) :
  let r := revenueMetrics TO_CHAR_YYYY_MM now db period in
  let cents :=
    reduceSum (fun month => revenueCents (RevenueMetrics.row month))
              (RevenueMetrics.monthlyRevenue r) in
  NoDup payers ->
  (forall u, In u payers <-> payingUser now db period u) ->
  Z.abs cents < 2 ^ 52 ->
  RevenueMetrics.totalRevenue r = showCents cents /\
  readCents (RevenueMetrics.totalRevenue r) = Some cents /\
  RevenueMetrics.uniquePayingUsers r = count payers /\
  (payers = [] -> RevenueMetrics.arpu r = "0"%string) /\
  (payers <> [] ->
   RevenueMetrics.arpu r
   = toFixed2 (ndiv (ndiv (ofZ cents) (ofZ (count payers))) (ofZ 100))).
Proof.
  intros r cents ND Hp. subst r cents. unfold revenueMetrics, revenueMetricsOf.
  cbn [RevenueMetrics.monthlyRevenue RevenueMetrics.totalRevenue
       RevenueMetrics.uniquePayingUsers RevenueMetrics.arpu].
  rewrite reduceSum_map. cbn [RevenueMetrics.row].
  assert (E : count (distinct (map PaymentRecord.userId (succeededInRange now db period)))
              = count payers).
  { unfold count. f_equal. apply Permutation_length, NoDup_Permutation.
    - apply NoDup_distinct.
    - exact ND.
    - intros u. rewrite In_distinct, in_map_iff, Hp. unfold payingUser. split.
      + intros [p [Eu I]]. apply succeededInRange_spec in I as [I S]. eauto.
      + intros [p [I [Eu S]]]. exists p. split; [exact Eu|].
        apply succeededInRange_spec. auto. }
  rewrite E. clear E.
  intros HS. split; [apply cents_exact, HS|].
  split; [rewrite cents_exact by exact HS; apply readCents_showCents|].
  split; [reflexivity|]. split.
  - intros ->. reflexivity.
  - intros NE.
    assert (0 < count payers) by (destruct payers; [congruence | unfold count; simpl; lia]).
    destruct (Z.gtb_spec (count payers) 0); [reflexivity | lia].
Qed.

Lemma revenueMetrics_totals_witness :
  let r := revenueMetrics (fun _ => "2024-01"%string) 0 mixedPayments P30d in
  NoDup ["alice"; "bob"]%string /\
  (forall u, In u ["alice"; "bob"]%string <-> payingUser 0 mixedPayments P30d u) /\
  RevenueMetrics.totalRevenue r = "750.00"%string /\
  readCents (RevenueMetrics.totalRevenue r) = Some 75000 /\
  RevenueMetrics.uniquePayingUsers r = 2 /\
  RevenueMetrics.arpu r = "375.00"%string.
Proof.
  assert (ND : NoDup ["alice"; "bob"]%string).
  { repeat constructor; simpl; intuition discriminate. }
  assert (Hp : forall u, In u ["alice"; "bob"]%string <-> payingUser 0 mixedPayments P30d u).
  { intros u. unfold payingUser, succeededPayment. split.
    - intros [<-|[<-|[]]].
      + exists (PaymentRecord.mk 1 "alice" "pay_1" "succeeded" 25000 (-86400000)).
        simpl. repeat split; auto; lia.
      + exists (PaymentRecord.mk 2 "bob" "pay_2" "succeeded" 50000 0).
        simpl. repeat split; auto; lia.
    - intros [p [I [Eu [St [B1 B2]]]]]. simpl in I.
      destruct I as [<-|[<-|[<-|[<-|[<-|[]]]]]]; simpl in *; subst u;
        try discriminate; try lia; auto. }
  split; [exact ND|]. split; [exact Hp|].
  destruct (revenueMetrics_totals (fun _ => "2024-01"%string) 0 mixedPayments P30d
              ["alice"; "bob"]%string ND Hp) as [T [R [U [_ A]]]].
  - vm_compute. reflexivity.
  - split; [rewrite T; vm_compute; reflexivity|].
    split; [rewrite R; vm_compute; reflexivity|].
    split; [exact U|].
    rewrite A by discriminate. vm_compute. reflexivity.
Defined.

(* ================================================================== *)
(** * Provider percentages *)
(* ================================================================== *)


Lemma percentOf_value (c T : Z) : 0 < T ->
  percentOf c T = toFixed2 (Fin (pctValue c T)).
Proof.
  intros HT. rewrite percentOf_pos by exact HT. rewrite ndiv_finite by lia. reflexivity.
Qed.

Lemma pctValue_bounds (c T : Z) : 0 <= c -> 0 < T ->
  let e := (inject_Z c / inject_Z T)%Q in
  (0 <= e /\ 0 <= pctValue c T /\
   100 * e * (1 - 3 * eps) <= pctValue c T <= 100 * e * (1 + 3 * eps))%Q.
Proof.
  intros Hc HT e. unfold pctValue. fold e.
  assert (QT : (0 < inject_Z T)%Q) by (rewrite Zlt_Qlt in HT; exact HT).
  assert (Qc : (0 <= inject_Z c)%Q) by (rewrite Zle_Qle in Hc; exact Hc).
  assert (He : (0 <= e)%Q).
  { unfold e. apply Qle_shift_div_l; [exact QT | lra]. }
  pose proof (rnd_err_bounds e He) as E1.
  assert (H1 : (0 <= rnd e * 100)%Q) by (pose proof (rnd_nonneg e He); lra).
  pose proof (rnd_err_bounds (rnd e * 100) H1) as E2.
  pose proof (rnd_nonneg _ H1) as P2.
  unfold eps in *. repeat split; lra.
Qed.


Lemma sumZ_nonneg (cs : list Z) : (forall c, In c cs -> 0 <= c) -> 0 <= sumZ cs.
Proof.
  induction cs as [|c cs IH]; simpl; intros H; [lia|].
  assert (0 <= c) by (apply H; auto). assert (0 <= sumZ cs) by (apply IH; intros; apply H; auto).
  lia.
Qed.

Lemma In_le_sumZ (cs : list Z) (c : Z) :
  (forall c, In c cs -> 0 <= c) -> In c cs -> c <= sumZ cs.
Proof.
  induction cs as [|c' cs IH]; simpl; intros H I; [contradiction|].
  assert (0 <= c') by (apply H; auto).
  assert (0 <= sumZ cs) by (apply sumZ_nonneg; intros; apply H; auto).
  destruct I as [E|I]; [lia|].
  assert (c <= sumZ cs) by (apply IH; [intros; apply H; auto | exact I]). lia.
Qed.

Lemma Qsum_ratio (cs : list Z) (T : Z) : 0 < T ->
  (Qsum (map (fun c => inject_Z c / inject_Z T) cs) == inject_Z (sumZ cs) / inject_Z T)%Q.
Proof.
  intros HT. assert (QT : (0 < inject_Z T)%Q) by (rewrite Zlt_Qlt in HT; exact HT).
  induction cs as [|c cs IH]; simpl.
  - field. lra.
  - rewrite IH, inject_Z_plus. field. lra.
Qed.

Lemma hundredths_sum_bounds (cs : list Z) (T : Z) :
  0 < T -> (forall c, In c cs -> 0 <= c) ->
  let E := Qsum (map (fun c => inject_Z c / inject_Z T)%Q cs) in
  let n := inject_Z (Z.of_nat (List.length cs)) in
  (10000 * E * (1 - 3 * eps) - n * (1 # 2)
   <= inject_Z (sumZ (map (fun c => hundredths (pctValue c T)) cs))
   <= 10000 * E * (1 + 3 * eps) + n * (1 # 2))%Q.
Proof.
  intros HT. induction cs as [|c cs IH]; intros Hc; cbv zeta in *.
  - cbn. unfold eps. change (inject_Z 0) with 0%Q. split; lra.
  - cbn [map sumZ fold_right Qsum List.length].
    fold (sumZ (map (fun c => hundredths (pctValue c T)) cs)).
    fold (Qsum (map (fun c => inject_Z c / inject_Z T)%Q cs)).
    rewrite Nat2Z.inj_succ. unfold Z.succ. rewrite !inject_Z_plus.
    change (inject_Z 1) with 1%Q.
    destruct IH as [I1 I2]; [intros; apply Hc; simpl; auto|].
    destruct (pctValue_bounds c T) as [He [Hp [B1 B2]]]; [apply Hc; simpl; auto | exact HT|].
    pose proof (hundredths_bounds (pctValue c T)) as [H1 H2].
    remember (inject_Z c / inject_Z T)%Q as e.
    remember (Qsum (map (fun c => inject_Z c / inject_Z T)%Q cs)) as E.
    remember (inject_Z (Z.of_nat (List.length cs))) as n.
    remember (inject_Z (sumZ (map (fun c => hundredths (pctValue c T)) cs))) as Hs.
    remember (inject_Z (hundredths (pctValue c T))) as h.
    remember (pctValue c T) as x.
    unfold eps in *. split; lra.
Qed.

Lemma reduceSum_sumZ {A} (f : A -> Z) (l : list A) : reduceSum f l = sumZ (map f l).
Proof.
  induction l as [|a l IH]; [reflexivity|].
  rewrite reduceSum_cons, IH. reflexivity.
Qed.

Lemma percentages_sum (cs : list Z) :
  (forall c, In c cs -> 0 <= c) -> 0 < sumZ cs ->
  let T := sumZ cs in
  map (fun c => percentOf c T) cs
  = map showFixed2 (map (fun c => hundredths (pctValue c T)) cs) /\
  2 * Z.abs (sumZ (map (fun c => hundredths (pctValue c T)) cs) - 10000)
  <= Z.of_nat (List.length cs).
Proof.
  intros Hc HT T. split.
  - rewrite map_map. apply map_ext_in. intros c I.
    rewrite percentOf_value by exact HT.
    destruct (pctValue_bounds c T (Hc c I) HT) as [He [Hp [_ B2]]].
    apply toFixed2_nonneg; [exact Hp|].
    assert (QT : (0 < inject_Z T)%Q) by (rewrite Zlt_Qlt in HT; exact HT).
    assert (Le : (inject_Z c / inject_Z T <= 1)%Q).
    { apply Qle_shift_div_r; [exact QT|]. rewrite Qmult_1_l, <- Zle_Qle.
      apply In_le_sumZ; assumption. }
    assert (L : (fixedLimit == 1000000000000000000000 # 1)%Q) by reflexivity.
    rewrite L. remember (inject_Z c / inject_Z T)%Q as e. unfold eps in *. lra.
  - pose proof (hundredths_sum_bounds cs T HT Hc) as [B1 B2].
    rewrite (Qsum_ratio cs T HT) in B1, B2. fold T in B1, B2.
    assert (QT : (0 < inject_Z T)%Q) by (rewrite Zlt_Qlt in HT; exact HT).
    assert (E1 : (inject_Z T / inject_Z T == 1)%Q) by (field; lra).
    rewrite E1 in B1, B2.
    set (Hs := sumZ (map (fun c => hundredths (pctValue c T)) cs)) in *.
    set (n := Z.of_nat (List.length cs)) in *.
    assert (U : (inject_Z (2 * Hs) < inject_Z (20000 + n + 1))%Q).
    { rewrite inject_Z_mult, !inject_Z_plus.
      change (inject_Z 2) with 2%Q. change (inject_Z 20000) with 20000%Q.
      change (inject_Z 1) with 1%Q. unfold eps in *.
      remember (inject_Z Hs) as h. remember (inject_Z n) as m. lra. }
    assert (D : (inject_Z 20000 < inject_Z (2 * Hs + n + 1))%Q).
    { rewrite !inject_Z_plus, inject_Z_mult.
      change (inject_Z 2) with 2%Q. change (inject_Z 20000) with 20000%Q.
      change (inject_Z 1) with 1%Q. unfold eps in *.
      remember (inject_Z Hs) as h. remember (inject_Z n) as m. lra. }
    rewrite <- Zlt_Qlt in U, D. lia.
Qed.

Lemma providerStatsRows_nonneg (db : Db) (row : AuthenticationPatterns.Row) :
  In row (providerStatsRows db) -> 0 <= AuthenticationPatterns.count row.
Proof.
  unfold providerStatsRows. intros I.
  apply (Permutation_in _ (orderBy_perm _ _)) in I.
  apply in_map_iff in I as [[p g] [E _]]. subst row. simpl. unfold count. lia.
Qed.

(** Claim C4.  In the authenticationPatterns query totalAccounts is the
    sum of the per-provider counts; when totalAccounts > 0 each percentage
    is count / totalAccounts * 100 written with two decimals, and the
    percentages, read back as numbers of hundredths, sum to 100.00 within
    half a hundredth per provider; when totalAccounts = 0 every percentage
    is the string "0". *)
Theorem authenticationPatterns_percentages (db : Db) :
  let r := authenticationPatterns db in
  let stats := AuthenticationPatterns.providerStats r in
  let total := AuthenticationPatterns.totalAccounts r in
  let countOf stat := AuthenticationPatterns.count (AuthenticationPatterns.row stat) in
  total = sumZ (map countOf stats) /\
  (0 < total ->
   (forall stat, In stat stats ->
      AuthenticationPatterns.percentage stat
      = toFixed2 (nmul (ndiv (ofZ (countOf stat)) (ofZ total)) (ofZ 100))) /\
   exists hundredths : list Z,
     map AuthenticationPatterns.percentage stats = map showFixed2 hundredths /\
     map readFixed2 (map AuthenticationPatterns.percentage stats)
     = map Some hundredths /\
     2 * Z.abs (sumZ hundredths - 10000) <= Z.of_nat (List.length stats)) /\
  (total = 0 ->
   forall stat, In stat stats -> AuthenticationPatterns.percentage stat = "0"%string).
Proof.
  intros r stats total countOf. subst r stats total countOf.
  unfold authenticationPatterns, authenticationPatternsOf.
  cbn [AuthenticationPatterns.providerStats AuthenticationPatterns.totalAccounts].
  set (rows := providerStatsRows db).
  rewrite (reduceSum_sumZ AuthenticationPatterns.count rows).
  set (cs := map AuthenticationPatterns.count rows).
  set (T := sumZ cs).
  set (stats := map (fun provider =>
                       {| AuthenticationPatterns.row := provider;
                          AuthenticationPatterns.percentage :=
                            percentOf (AuthenticationPatterns.count provider) T |})
                    rows).
  assert (Hc : forall c, In c cs -> 0 <= c).
  { intros c I. apply in_map_iff in I as [row [E I]]. subst c.
    apply (providerStatsRows_nonneg db), I. }
  assert (Ecs : map (fun stat => AuthenticationPatterns.count
                                   (AuthenticationPatterns.row stat)) stats = cs).
  { unfold stats, cs. rewrite map_map. reflexivity. }
  assert (Epc : map AuthenticationPatterns.percentage stats
                = map (fun c => percentOf c T) cs).
  { unfold stats, cs. rewrite !map_map. reflexivity. }
  assert (Len : List.length stats = List.length cs).
  { unfold stats, cs. rewrite !length_map. reflexivity. }
  split; [rewrite Ecs; reflexivity|]. split.
  - intros HT. split.
    + intros stat I. apply in_map_iff in I as [row [E I]]. subst stat.
      cbn [AuthenticationPatterns.row AuthenticationPatterns.percentage].
      apply percentOf_pos, HT.
    + destruct (percentages_sum cs Hc HT) as [E B]. fold T in E, B.
      exists (map (fun c => hundredths (pctValue c T)) cs).
      rewrite Epc, E, Len. split; [reflexivity|]. split.
      * rewrite !map_map. apply map_ext_in. intros c I.
        apply readFixed2_showFixed2.
        destruct (pctValue_bounds c T (Hc c I) HT) as [_ [Hp _]].
        pose proof (hundredths_bounds (pctValue c T)) as [B1 _].
        assert (A : (inject_Z (- 1) < inject_Z (hundredths (pctValue c T)))%Q).
        { change (inject_Z (- 1)) with (- (1))%Q. lra. }
        rewrite <- Zlt_Qlt in A. lia.
      * exact B.
  - intros Z0 stat I. apply in_map_iff in I as [row [E I]]. subst stat.
    cbn [AuthenticationPatterns.percentage]. rewrite Z0. reflexivity.
Qed.

Lemma authenticationPatterns_percentages_witness :
  0 < AuthenticationPatterns.totalAccounts (authenticationPatterns threeUsers) /\
  exists hundredths : list Z,
    map readFixed2
        (map AuthenticationPatterns.percentage
           (AuthenticationPatterns.providerStats (authenticationPatterns threeUsers)))
    = map Some hundredths /\
    2 * Z.abs (sumZ hundredths - 10000) <= 2.
Proof.
  assert (T : 0 < AuthenticationPatterns.totalAccounts (authenticationPatterns threeUsers))
    by (vm_compute; reflexivity).
  split; [exact T|].
  pose proof (authenticationPatterns_percentages threeUsers) as H. cbv zeta in H.
  destruct H as [_ [H _]].
  destruct (H T) as [_ [hs [_ [E B]]]].
  exists hs. split; [exact E|]. exact B.
Defined.

(* ================================================================== *)
(** * The synthesized signup series *)
(* ================================================================== *)

(** Flooring a quotient of integers below 2^53 is integer division. *)
Lemma floor_div_exact (t d : Z) : 0 <= t < 2 ^ 53 -> 0 < d ->
  Math_floor (ndiv (ofZ t) (ofZ d)) = t / d.
Proof.
  intros [T0 T1] Hd. rewrite ndiv_finite by lia. cbn [Math_floor].
  assert (Qd : (0 < inject_Z d)%Q) by (rewrite Zlt_Qlt in Hd; exact Hd).
  assert (Qt : (0 <= inject_Z t)%Q) by (rewrite Zle_Qle in T0; exact T0).
  assert (Qt1 : (inject_Z t < 9007199254740992)%Q).
  { change 9007199254740992%Q with (inject_Z (2 ^ 53)). rewrite <- Zlt_Qlt. exact T1. }
  pose proof (Z.div_mod t d ltac:(lia)) as DM.
  pose proof (Z.mod_pos_bound t d Hd) as MB.
  pose proof (Z.div_pos t d T0 Hd) as K0.
  set (k := t / d) in *.
  assert (Kt : k <= t) by nia.
  remember (inject_Z t / inject_Z d)%Q as y eqn:Hy.
  assert (Ey : (y * inject_Z d == inject_Z t)%Q) by (subst y; field; lra).
  assert (L : (inject_Z k <= y)%Q).
  { subst y. apply Qle_shift_div_l; [exact Qd|].
    rewrite <- inject_Z_mult, <- Zle_Qle. nia. }
  assert (U : (y * inject_Z d + 1 <= inject_Z (k + 1) * inject_Z d)%Q).
  { rewrite Ey. rewrite <- inject_Z_mult. change 1%Q with (inject_Z 1) at 1.
    rewrite <- inject_Z_plus, <- Zle_Qle. nia. }
  assert (Y0 : (0 <= y)%Q).
  { apply Qle_trans with (inject_Z k); [|exact L]. rewrite Zle_Qle in K0. exact K0. }
  pose proof (rnd_err_bounds y Y0) as [_ E]. unfold eps in E.
  apply Qfloor_unique.
  - rewrite <- (rnd_int k) by lia. apply rnd_mono, L.
  - rewrite inject_Z_plus in U. change (inject_Z 1) with 1%Q in U.
    remember (inject_Z k) as qk. remember (inject_Z d) as qd.
    remember (inject_Z t) as qt. remember (rnd y) as x.
    (* [x <= y * (1 + eps)] and [y * eps * d = t * eps < 1] *)
    assert (M : (x * qd <= (y * (1 + (1 # 9007199254740992))) * qd)%Q).
    { apply Qmult_le_compat_r; lra. }
    assert (G : ((qk + 1 - x) * qd > 0)%Q) by lra.
    apply Qnot_le_lt. intros C.
    assert (((qk + 1 - x) * qd <= 0 * qd)%Q).
    { apply Qmult_le_compat_r; lra. }
    lra.
Qed.


Lemma jitter_value (r : Q) : jitter r = Fin (jitterValue r).
Proof. reflexivity. Qed.

Lemma Qeq_by_bool (x y : Q) : Qeq_bool x y = true -> (x == y)%Q.
Proof. apply Qeq_bool_eq. Qed.

Lemma jitter_bounds (r : Q) : isDouble r -> (0 <= r)%Q -> (r < 1)%Q ->
  (c8 <= jitterValue r <= c12)%Q.
Proof.
  intros D H0 H1. pose proof (double_below_one r D H0 H1) as Hr.
  assert (P4 : (0 < c4)%Q) by (vm_compute; reflexivity).
  unfold jitterValue. split.
  - assert (E : (rnd c8 == c8)%Q) by (apply Qeq_by_bool; vm_compute; reflexivity).
    rewrite <- E at 1. apply rnd_mono.
    assert (0 <= rnd (r * c4))%Q; [|lra].
    apply rnd_nonneg. apply Qmult_le_0_compat; lra.
  - assert (E : (rnd (c8 + rnd ((1 - eps) * c4)) == c12)%Q)
      by (apply Qeq_by_bool; vm_compute; reflexivity).
    rewrite <- E. apply rnd_mono.
    assert (rnd (r * c4) <= rnd ((1 - eps) * c4))%Q; [|lra].
    apply rnd_mono. apply Qmult_le_compat_r; lra.
Qed.

Lemma c8_c12_values : (8 # 10 <= c8)%Q /\ (c12 < 12 # 10)%Q.
Proof. split; vm_compute; [discriminate | reflexivity]. Qed.

(** The rounded product stays between the floors of 0.8 and 1.2 times the
    base. *)
Lemma jittered_count_bounds (base : Z) (f : Q) :
  0 <= base < 2 ^ 50 -> (c8 <= f <= c12)%Q ->
  4 * base / 5 <= Qfloor (rnd (inject_Z base * f)) <= 6 * base / 5.
Proof.
  intros [B0 B1] [F1 F2].
  destruct c8_c12_values as [V8 V12].
  assert (Qb : (0 <= inject_Z base)%Q) by (rewrite Zle_Qle in B0; exact B0).
  assert (Qb1 : (inject_Z base < 1125899906842624)%Q).
  { change 1125899906842624%Q with (inject_Z (2 ^ 50)). rewrite <- Zlt_Qlt. exact B1. }
  set (lo := 4 * base / 5). set (hi := 6 * base / 5).
  pose proof (Z.div_mod (4 * base) 5 ltac:(lia)) as D4.
  pose proof (Z.mod_pos_bound (4 * base) 5 ltac:(lia)) as M4.
  pose proof (Z.div_mod (6 * base) 5 ltac:(lia)) as D6.
  pose proof (Z.mod_pos_bound (6 * base) 5 ltac:(lia)) as M6.
  fold lo in D4. fold hi in D6.
  assert (Qlo : (5 * inject_Z lo <= 4 * inject_Z base)%Q).
  { change 5%Q with (inject_Z 5). change 4%Q with (inject_Z 4).
    rewrite <- !inject_Z_mult, <- Zle_Qle. lia. }
  assert (Qhi : (6 * inject_Z base <= 5 * inject_Z hi + 4)%Q).
  { change 5%Q with (inject_Z 5). change 6%Q with (inject_Z 6).
    change 4%Q with (inject_Z 4).
    rewrite <- !inject_Z_mult, <- inject_Z_plus, <- Zle_Qle. lia. }
  remember (inject_Z base * f)%Q as y eqn:Hy.
  assert (Y1 : (inject_Z base * c8 <= y)%Q).
  { subst y. rewrite !(Qmult_comm (inject_Z base)). apply Qmult_le_compat_r; lra. }
  assert (Y2 : (y <= inject_Z base * c12)%Q).
  { subst y. rewrite !(Qmult_comm (inject_Z base)). apply Qmult_le_compat_r; lra. }
  assert (Z8 : (inject_Z base * (8 # 10) <= inject_Z base * c8)%Q).
  { rewrite !(Qmult_comm (inject_Z base)). apply Qmult_le_compat_r; lra. }
  assert (Z12 : (inject_Z base * c12 <= inject_Z base * (12 # 10))%Q).
  { rewrite !(Qmult_comm (inject_Z base)). apply Qmult_le_compat_r; lra. }
  assert (Y0 : (0 <= y)%Q) by lra.
  pose proof (rnd_err_bounds y Y0) as [_ E]. unfold eps in E.
  pose proof (floor_bounds (rnd y)) as [G1 G2].
  split.
  - assert (L : (inject_Z lo <= rnd y)%Q).
    { rewrite <- (rnd_int lo) by lia. apply rnd_mono. lra. }
    apply Zlt_succ_le. unfold Z.succ. rewrite Zlt_Qlt, inject_Z_plus.
    change (inject_Z 1) with 1%Q. lra.
  - apply Zlt_succ_le. unfold Z.succ. rewrite Zlt_Qlt, inject_Z_plus.
    change (inject_Z 1) with 1%Q.
    remember (inject_Z base) as b. remember (inject_Z hi) as h.
    remember (inject_Z (Qfloor (rnd y))) as fl. remember (rnd y) as x.
    remember (b * c12)%Q as u8. lra.
Qed.

(** Every integer between the two floors is the floor of the base times
    a factor between 0.8 and 1.2. *)
Lemma factor_exists (base n : Z) :
  0 <= base -> 4 * base / 5 <= n <= 6 * base / 5 ->
  exists f : Q, (8 # 10 <= f <= 12 # 10)%Q /\ n = Qfloor (inject_Z base * f).
Proof.
  intros B0 [N1 N2].
  pose proof (Z.div_mod (4 * base) 5 ltac:(lia)) as D4.
  pose proof (Z.mod_pos_bound (4 * base) 5 ltac:(lia)) as M4.
  pose proof (Z.div_mod (6 * base) 5 ltac:(lia)) as D6.
  pose proof (Z.mod_pos_bound (6 * base) 5 ltac:(lia)) as M6.
  destruct (Z.eq_dec base 0) as [Z0|NZ].
  { subst base. exists 1%Q. split; [split; discriminate|].
    change (4 * 0 / 5) with 0 in N1. change (6 * 0 / 5) with 0 in N2.
    assert (n = 0) by lia. subst n. reflexivity. }
  destruct (Z_lt_le_dec (5 * n) (4 * base)) as [Lt|Ge].
  - exists (8 # 10). split; [split; [apply Qle_refl | discriminate]|].
    assert (n = 4 * base / 5) by lia. subst n.
    rewrite Zdiv_Qdiv. apply Qfloor_comp.
    rewrite inject_Z_mult. change (inject_Z 4) with 4%Q. change (inject_Z 5) with 5%Q.
    field.
  - assert (Hb : 0 < base) by lia.
    assert (Qb : (0 < inject_Z base)%Q) by (rewrite Zlt_Qlt in Hb; exact Hb).
    exists (inject_Z n / inject_Z base)%Q. split; [split|].
    + apply Qle_shift_div_l; [exact Qb|].
      assert (E : (inject_Z (4 * base) <= inject_Z (5 * n))%Q) by (rewrite <- Zle_Qle; lia).
      rewrite !inject_Z_mult in E. change (inject_Z 4) with 4%Q in E.
      change (inject_Z 5) with 5%Q in E. lra.
    + apply Qle_shift_div_r; [exact Qb|].
      assert (E : (inject_Z (5 * n) <= inject_Z (6 * base))%Q) by (rewrite <- Zle_Qle; lia).
      rewrite !inject_Z_mult in E. change (inject_Z 6) with 6%Q in E.
      change (inject_Z 5) with 5%Q in E. lra.
    + rewrite <- (Qfloor_Z n) at 1. apply Qfloor_comp. field. lra.
Qed.

Lemma avgDailySignups_quotient now db now' period :
  count (users db) < 2 ^ 53 ->
  avgDailySignups now db now' period
  = count (users db) / Z.max (elapsedDays now now' period) 1.
Proof.
  intros H. unfold avgDailySignups. apply floor_div_exact; [|lia].
  split; [unfold count; lia | exact H].
Qed.

Lemma nth_error_map_seq {A} (f : nat -> A) (a n i : nat) (x : A) :
  nth_error (map f (seq a n)) i = Some x -> x = f (a + i)%nat /\ (i < n)%nat.
Proof.
  revert a i. induction n as [|n IH]; intros a i H.
  - destruct i; discriminate.
  - simpl in H. destruct i as [|i]; simpl in H.
    + injection H as E. subst x. rewrite Nat.add_0_r. split; [reflexivity | lia].
    + apply IH in H as [E L]. subst x. split; [f_equal; lia | lia].
Qed.

(** Claim C8, amended.  In the userGrowth query, with the randomness source
    an input that yields doubles in [0, 1) and fewer than 2^50 users, the
    dailySignups series has min(elapsedDays, 30) buckets, every bucket
    count is floor(base * f) for some factor f with 0.8 <= f <= 1.2, where
    base = floor(totalUsers / max(elapsedDays, 1)), and newUsersInPeriod
    is the sum of the counts.  In the arithmetic of the program the count
    of bucket [i] is the floor of the rounded product of base and the
    double [0.8 + random i * 0.4], which lies between the doubles nearest
    to 0.8 and to 1.2, both included. *)
Theorem userGrowth_series isoDate now db now' random period :
  (forall i, isDouble (random i) /\ (0 <= random i)%Q /\ (random i < 1)%Q) ->
  count (users db) < 2 ^ 50 ->
  let r := userGrowth isoDate now db now' random period in
  let days := elapsedDays now now' period in
  let base := count (users db) / Z.max days 1 in
  List.length (UserGrowth.dailySignups r) = Z.to_nat (Z.min days 30) /\
  (forall i day, nth_error (UserGrowth.dailySignups r) i = Some day ->
     let f64 := jitterValue (random i) in
     (rnd (8 # 10) <= f64 <= rnd (12 # 10))%Q /\
     UserGrowth.count day = Qfloor (rnd (inject_Z base * f64)) /\
     exists f : Q, (8 # 10 <= f <= 12 # 10)%Q /\
                   UserGrowth.count day = Qfloor (inject_Z base * f)) /\
  UserGrowth.newUsersInPeriod r
  = sumZ (map UserGrowth.count (UserGrowth.dailySignups r)).
Proof.
  intros Hr Hu r days base. subst r. unfold userGrowth.
  cbn [UserGrowth.dailySignups UserGrowth.newUsersInPeriod].
  rewrite avgDailySignups_quotient by lia. fold days. fold base.
  assert (Hb : 0 <= base < 2 ^ 50).
  { unfold base. assert (0 <= count (users db)) by (unfold count; lia).
    assert (0 < Z.max days 1) by lia. split.
    - apply Z.div_pos; lia.
    - apply Z.le_lt_trans with (count (users db)); [|exact Hu].
      apply Z.div_le_upper_bound; nia. }
  split; [|split].
  - rewrite length_map, length_seq. reflexivity.
  - intros i day E. apply nth_error_map_seq in E as [E _]. subst day.
    cbn [UserGrowth.count plus]. rewrite jitter_value. cbn [nmul ofZ Math_floor].
    destruct (Hr i) as [D [R0 R1]].
    pose proof (jitter_bounds (random i) D R0 R1) as B.
    split; [exact B|]. split; [reflexivity|].
    apply factor_exists; [lia|].
    apply jittered_count_bounds; [exact Hb | exact B].
  - apply reduceSum_sumZ.
Qed.

Lemma userGrowth_series_witness :
  let r := userGrowth (fun _ => ""%string) 0 thirtyFiveUsers 0 (fun _ => 1 # 2)%Q P7d in
  (forall i : nat, isDouble (1 # 2) /\ (0 <= 1 # 2)%Q /\ (1 # 2 < 1)%Q) /\
  count (users thirtyFiveUsers) < 2 ^ 50 /\
  List.length (UserGrowth.dailySignups r) = 7%nat /\
  UserGrowth.newUsersInPeriod r = sumZ (map UserGrowth.count (UserGrowth.dailySignups r)).
Proof.
  assert (H1 : forall i : nat, isDouble (1 # 2) /\ (0 <= 1 # 2)%Q /\ (1 # 2 < 1)%Q).
  { intros _. split; [apply Qeq_by_bool; vm_compute; reflexivity|].
    split; [discriminate | reflexivity]. }
  assert (H2 : count (users thirtyFiveUsers) < 2 ^ 50) by (vm_compute; reflexivity).
  split; [exact H1|]. split; [exact H2|].
  destruct (userGrowth_series (fun _ => ""%string) 0 thirtyFiveUsers 0
              (fun _ => 1 # 2)%Q P7d H1 H2) as [L [_ S]].
  split; [exact L | exact S].
Defined.

(** With 35 users over 7 days the base is 5; for the draw [1 - 2^-52] the
    factor [0.8 + r * 0.4] is the double nearest to 1.2, its product with
    5 rounds to 6, and no factor below 1.2 has [floor (5 * f) = 6]. *)
Lemma userGrowth_strict_bound_counterexample :
  let r := userGrowth (fun _ => ""%string) 0 thirtyFiveUsers 0 (fun _ => randomMax) P7d in
  isDouble randomMax /\ (0 <= randomMax)%Q /\ (randomMax < 1)%Q /\
  elapsedDays 0 0 P7d = 7 /\
  count (users thirtyFiveUsers) / Z.max (elapsedDays 0 0 P7d) 1 = 5 /\
  (jitterValue randomMax == rnd (12 # 10))%Q /\
  exists day, nth_error (UserGrowth.dailySignups r) 0 = Some day /\
    UserGrowth.count day = 6 /\
    ~ exists f : Q, (8 # 10 <= f)%Q /\ (f < 12 # 10)%Q /\
                    UserGrowth.count day = Qfloor (inject_Z 5 * f).
Proof.
  split; [apply Qeq_by_bool; vm_compute; reflexivity|].
  split; [discriminate|]. split; [reflexivity|].
  split; [vm_compute; reflexivity|]. split; [vm_compute; reflexivity|].
  split; [apply Qeq_by_bool; vm_compute; reflexivity|].
  exists {| UserGrowth.date := ""%string; UserGrowth.count := 6 |}.
  split; [vm_compute; reflexivity|]. split; [reflexivity|].
  intros [f [F1 [F2 E]]]. cbn [UserGrowth.count] in E.
  pose proof (floor_bounds (inject_Z 5 * f)) as [G1 _]. rewrite <- E in G1.
  change (inject_Z 6) with 6%Q in G1. change (inject_Z 5) with 5%Q in G1. lra.
Qed.

(** The same product in hardware binary64:
    [5 * (0.8 + 0.9999999999999998 * 0.4)] is [6]. *)
Lemma binary64_jitter_product :
  valueOf (5 * (0x1.999999999999ap-1 + 0x1.ffffffffffffep-1 * 0x1.999999999999ap-2))%float
  = Some (Qred (rnd (5 * jitterValue randomMax))) /\
  Qred (rnd (5 * jitterValue randomMax)) = 6%Q.
Proof. split; vm_compute; reflexivity. Qed.


(* ================================================================== *)
(** * Further properties of the queries *)
(* ================================================================== *)

Lemma sumZ_app (l1 l2 : list Z) : sumZ (l1 ++ l2) = sumZ l1 + sumZ l2.
Proof. induction l1 as [|x l1 IH]; simpl; lia. Qed.

Lemma sumZ_perm (l l' : list Z) : Permutation l l' -> sumZ l = sumZ l'.
Proof. induction 1; simpl; lia. Qed.

Lemma count_sumZ {A} (l : list A) : count l = sumZ (map (fun _ => 1) l).
Proof.
  unfold count. induction l as [|a l IH]; [reflexivity|].
  cbn [List.length map sumZ fold_right]. fold (sumZ (map (fun _ : A => 1) l)).
  rewrite Nat2Z.inj_succ. lia.
Qed.

Lemma sumZ_zero {K} (ks : list K) : sumZ (map (fun _ => 0) ks) = 0.
Proof. induction ks; simpl; lia. Qed.

Lemma sumZ_map_add {K} (f g : K -> Z) (ks : list K) :
  sumZ (map (fun k => f k + g k) ks) = sumZ (map f ks) + sumZ (map g ks).
Proof. induction ks as [|k ks IH]; simpl; lia. Qed.

Lemma sumZ_indicator {K} `{EqDec K} (x : K) (v : Z) (ks : list K) :
  NoDup ks -> In x ks ->
  sumZ (map (fun k => if eqb x k then v else 0) ks) = v.
Proof.
  induction 1 as [|k ks N ND IH]; intros I; [destruct I|].
  simpl. destruct (eqb x k) eqn:E.
  - apply (proj1 (eqb_eq _ _)) in E. subst k.
    rewrite (map_ext_in _ (fun _ => 0)), sumZ_zero; [lia|].
    intros k' I'. destruct (eqb x k') eqn:E'; [|reflexivity].
    apply (proj1 (eqb_eq _ _)) in E'. subst k'. contradiction.
  - apply (proj1 (eqb_neq _ _)) in E. destruct I as [I|I]; [congruence|].
    rewrite IH by exact I. lia.
Qed.

(** The groups of a key list that covers the rows share out every column
    sum. *)
Lemma sumZ_by_key {A K} `{EqDec K} (key : A -> K) (f : A -> Z) (ks : list K)
    (rows : list A) :
  NoDup ks -> (forall a, In a rows -> In (key a) ks) ->
  sumZ (map (fun k => sumZ (map f (filter (fun a => eqb (key a) k) rows))) ks)
  = sumZ (map f rows).
Proof.
  intros ND. induction rows as [|a rows IH]; intros Hk.
  - simpl. apply sumZ_zero.
  - rewrite (map_ext _ (fun k => (if eqb (key a) k then f a else 0)
                                 + sumZ (map f (filter (fun a => eqb (key a) k) rows)))).
    + rewrite sumZ_map_add, sumZ_indicator, IH.
      * reflexivity.
      * intros a' I. apply Hk. right. exact I.
      * exact ND.
      * apply Hk. left. reflexivity.
    + intros k. cbn [filter]. destruct (eqb (key a) k); reflexivity.
Qed.

Lemma groupBy_sum {A K} `{EqDec K} (key : A -> K) (f : A -> Z) (rows : list A) :
  sumZ (map (fun kg => sumZ (map f (snd kg))) (groupBy key rows)) = sumZ (map f rows).
Proof.
  unfold groupBy. rewrite map_map. simpl.
  apply sumZ_by_key; [apply NoDup_distinct|].
  intros a I. apply In_distinct, in_map, I.
Qed.

Lemma groupBy_count {A K} `{EqDec K} (key : A -> K) (rows : list A) :
  sumZ (map (fun kg => count (snd kg)) (groupBy key rows)) = count rows.
Proof.
  rewrite (count_sumZ rows), <- (groupBy_sum key (fun _ => 1) rows).
  f_equal. apply map_ext. intros kg. apply count_sumZ.
Qed.

Lemma countIf_sumZ {A} (p : A -> bool) (l : list A) :
  countIf p l = sumZ (map (fun a => if p a then 1 else 0) l).
Proof.
  unfold countIf. induction l as [|a l IH]; [reflexivity|].
  cbn [filter map sumZ fold_right].
  fold (sumZ (map (fun a => if p a then 1 else 0) l)).
  destruct (p a); cbn [List.length]; rewrite ?Nat2Z.inj_succ; lia.
Qed.

Lemma groupBy_countIf {A K} `{EqDec K} (key : A -> K) (p : A -> bool) (rows : list A) :
  sumZ (map (fun kg => countIf p (snd kg)) (groupBy key rows)) = countIf p rows.
Proof.
  rewrite (countIf_sumZ p rows), <- (groupBy_sum key (fun a => if p a then 1 else 0) rows).
  f_equal. apply map_ext. intros kg. apply countIf_sumZ.
Qed.

Lemma reduceSum_perm {A} (f : A -> Z) (l l' : list A) :
  Permutation l l' -> reduceSum f l = reduceSum f l'.
Proof.
  intros P. rewrite !reduceSum_sumZ. apply sumZ_perm, Permutation_map, P.
Qed.

(** ** Sorting *)

Section Sorting.
Context {A : Type} (le : A -> A -> bool).
Hypothesis le_total : forall a b, le a b = true \/ le b a = true.

Lemma insertBy_HdRel (x a : A) (l : list A) :
  HdRel (leRel le) a l -> leRel le a x -> HdRel (leRel le) a (insertBy le x l).
Proof.
  intros Hd Rax. destruct l as [|y l]; simpl; [constructor; exact Rax|].
  destruct (le x y); constructor; [exact Rax|].
  inversion Hd; assumption.
Qed.

Lemma insertBy_Sorted (x : A) (l : list A) :
  Sorted (leRel le) l -> Sorted (leRel le) (insertBy le x l).
Proof.
  induction 1 as [|y l S IH Hd]; simpl; [repeat constructor|].
  destruct (le x y) eqn:E.
  - constructor; [constructor; assumption | constructor; exact E].
  - constructor; [exact IH|]. apply insertBy_HdRel; [exact Hd|].
    destruct (le_total x y) as [T|T]; [congruence | exact T].
Qed.

Lemma orderBy_Sorted (l : list A) : Sorted (leRel le) (orderBy le l).
Proof.
  induction l as [|a l IH]; [constructor|]. apply insertBy_Sorted, IH.
Qed.

Hypothesis le_trans : forall a b c, le a b = true -> le b c = true -> le a c = true.

Lemma orderBy_StronglySorted (l : list A) : StronglySorted (leRel le) (orderBy le l).
Proof.
  apply Sorted_StronglySorted; [|apply orderBy_Sorted].
  intros a b c. apply le_trans.
Qed.

End Sorting.

Lemma In_skipn {A} (n : nat) (l : list A) (y : A) : In y (skipn n l) -> In y l.
Proof.
  intros I. rewrite <- (firstn_skipn n l). apply in_or_app. right. exact I.
Qed.

Lemma In_firstn {A} (n : nat) (l : list A) (y : A) : In y (firstn n l) -> In y l.
Proof.
  intros I. rewrite <- (firstn_skipn n l). apply in_or_app. left. exact I.
Qed.

Lemma StronglySorted_firstn_skipn {A} (R : A -> A -> Prop) (l : list A) (n : nat) :
  StronglySorted R l ->
  forall x y, In x (firstn n l) -> In y (skipn n l) -> R x y.
Proof.
  intros S. revert n. induction S as [|a l S IH F]; intros n x y Ix Iy.
  - rewrite firstn_nil in Ix. destruct Ix.
  - destruct n as [|n]; [destruct Ix|]. simpl in Ix, Iy. destruct Ix as [E|Ix].
    + subst x. rewrite Forall_forall in F. apply F.
      apply (In_skipn n). exact Iy.
    + apply (IH n); assumption.
Qed.

Lemma StronglySorted_firstn {A} (R : A -> A -> Prop) (l : list A) (n : nat) :
  StronglySorted R l -> StronglySorted R (firstn n l).
Proof.
  intros S. revert n. induction S as [|a l S IH F]; intros n.
  - rewrite firstn_nil. constructor.
  - destruct n as [|n]; [constructor|]. simpl. constructor; [apply IH|].
    rewrite Forall_forall in *. intros x I. apply F.
    apply (In_firstn n). exact I.
Qed.

Lemma StronglySorted_map {A B} (R : B -> B -> Prop) (f : A -> B) (l : list A) :
  StronglySorted (fun a b => R (f a) (f b)) l -> StronglySorted R (map f l).
Proof.
  induction 1 as [|a l S IH F]; simpl; constructor; [exact IH|].
  rewrite Forall_forall in *. intros b I. apply in_map_iff in I as [x [E I]].
  subst b. apply F, I.
Qed.

Lemma distinct_length_le {K} `{EqDec K} (l : list K) :
  (List.length (distinct l) <= List.length l)%nat.
Proof.
  induction l as [|k l IH]; simpl; [lia|].
  pose proof (filter_length_le (fun k' => negb (eqb k' k)) (distinct l)). lia.
Qed.

Lemma NoDup_count_le {K} (l l' : list K) :
  NoDup l -> incl l l' -> count l <= count l'.
Proof.
  intros ND I. unfold count. pose proof (NoDup_incl_length ND I). lia.
Qed.

Lemma countIf_le {A} (p : A -> bool) (l : list A) : 0 <= countIf p l <= count l.
Proof. unfold countIf, count. pose proof (filter_length_le p l). lia. Qed.

Lemma In_requestsInRange now db period (l : RequestLog.t) :
  In l (requestsInRange now db period) <->
  In l (requestLogs db) /\
  startDate (getDateRange now period) <= RequestLog.createdAt l <= now.
Proof.
  unfold requestsInRange, between. rewrite filter_In, andb_true_iff, !Z.leb_le.
  destruct period; simpl; tauto.
Qed.

(** Property X1.  systemHealth reads exactly the request logs created from
    the start date of the period up to now, both ends included.
    totalRequests is their number, the successfulRequests of the per-action
    entries add up to the number of successful ones, and every entry has 0
    <= successfulRequests <= totalRequests. *)
Theorem systemHealth_totals (now : Z) (db : Db) (period : Period) :
  let r := systemHealth now db period in
  let rows := requestsInRange now db period in
  (forall l, In l rows <->
     In l (requestLogs db) /\
     startDate (getDateRange now period) <= RequestLog.createdAt l <= now) /\
  SystemHealth.totalRequests r = count rows /\
  reduceSum (fun stat => SystemHealth.Api.successfulRequests (SystemHealth.row stat))
            (SystemHealth.apiStats r)
  = countIf RequestLog.success rows /\
  (forall stat, In stat (SystemHealth.apiStats r) ->
     0 <= SystemHealth.Api.successfulRequests (SystemHealth.row stat)
       <= SystemHealth.Api.totalRequests (SystemHealth.row stat)).
Proof.
  intros r rows. subst r rows. split; [apply In_requestsInRange|].
  unfold systemHealth, systemHealthOf.
  cbn [SystemHealth.apiStats SystemHealth.totalRequests]. split; [|split].
  - rewrite reduceSum_sumZ. unfold apiStatsRows. rewrite map_map.
    rewrite <- (groupBy_count RequestLog.action (requestsInRange now db period)).
    f_equal. apply map_ext. intros [a g]. reflexivity.
  - rewrite reduceSum_sumZ. unfold apiStatsRows. rewrite !map_map.
    rewrite <- (groupBy_countIf RequestLog.action RequestLog.success
                  (requestsInRange now db period)).
    f_equal. apply map_ext. intros [a g]. reflexivity.
  - intros stat I. apply in_map_iff in I as [row [E I]]. subst stat.
    cbn [SystemHealth.row].
    destruct (In_apiStatsRows now db period row I) as [E1 [E2 _]].
    rewrite E1, E2. apply countIf_le.
Qed.

Lemma pctValue_le_100 (c T : Z) : 0 <= c <= T -> 0 < T -> (pctValue c T <= 100)%Q.
Proof.
  intros [Hc HcT] HT. unfold pctValue.
  assert (QT : (0 < inject_Z T)%Q) by (rewrite Zlt_Qlt in HT; exact HT).
  assert (E1 : (inject_Z c / inject_Z T <= inject_Z 1)%Q).
  { apply Qle_shift_div_r; [exact QT|]. rewrite <- inject_Z_mult, <- Zle_Qle. lia. }
  assert (R1 : (rnd (inject_Z c / inject_Z T) <= 1)%Q).
  { apply Qle_trans with (rnd (inject_Z 1)); [apply rnd_mono, E1|].
    rewrite rnd_int by (simpl; lia). apply Qle_refl. }
  apply Qle_trans with (rnd (inject_Z 100)).
  - apply rnd_mono. change (inject_Z 100) with 100%Q. lra.
  - rewrite rnd_int by (simpl; lia). apply Qle_refl.
Qed.

(** A part-of-whole percentage is written in fixed notation, lies between
    0.00 and 100.00, and (for wholes up to 10^11) is a nearest hundredth of
    the exact percentage. *)
Lemma percentOf_range (c T : Z) : 0 <= c <= T -> 0 < T ->
  exists n, percentOf c T = showFixed2 n /\ readFixed2 (percentOf c T) = Some n /\
            0 <= n <= 10000 /\
            (T <= 10 ^ 11 -> 2 * Z.abs (n * T - 10000 * c) <= T).
Proof.
  intros Hc HT. exists (hundredths (pctValue c T)).
  destruct (pctValue_bounds c T (proj1 Hc) HT) as [He [Hp [B1 B2]]].
  pose proof (pctValue_le_100 c T Hc HT) as H100.
  pose proof (hundredths_bounds (pctValue c T)) as [H1 H2].
  assert (E : percentOf c T = showFixed2 (hundredths (pctValue c T))).
  { rewrite percentOf_value by exact HT. apply toFixed2_nonneg; [exact Hp|].
    assert (L : (fixedLimit == 1000000000000000000000 # 1)%Q) by reflexivity.
    rewrite L. lra. }
  assert (N0 : 0 <= hundredths (pctValue c T)).
  { apply Zlt_succ_le. unfold Z.succ. rewrite Zlt_Qlt, inject_Z_plus.
    change (inject_Z (-1)) with (-1 # 1)%Q. change (inject_Z 1) with 1%Q.
    change (inject_Z 0) with 0%Q. lra. }
  split; [exact E|]. split; [rewrite E; apply readFixed2_showFixed2, N0|].
  split; [split; [exact N0|]|].
  - assert (A : (inject_Z (hundredths (pctValue c T)) < inject_Z 10001)%Q).
    { change (inject_Z 10001) with 10001%Q. lra. }
    rewrite <- Zlt_Qlt in A. lia.
  - intros HT11.
    assert (QT : (0 < inject_Z T)%Q) by (rewrite Zlt_Qlt in HT; exact HT).
    assert (Qc : (0 <= inject_Z c)%Q) by (rewrite Zle_Qle in Hc; apply Hc).
    assert (Qc11 : (inject_Z c <= 100000000000)%Q).
    { change 100000000000%Q with (inject_Z (10 ^ 11)). rewrite <- Zle_Qle. lia. }
    remember (hundredths (pctValue c T)) as n eqn:Hn.
    remember (inject_Z c / inject_Z T)%Q as e eqn:Ee.
    assert (Ec : (e * inject_Z T == inject_Z c)%Q) by (subst e; field; lra).
    remember (pctValue c T) as x eqn:Ex.
    unfold eps in *.
    assert (L : ((10000 * e * (1 - 3 * (1 # 9007199254740992)) - (1 # 2)) * inject_Z T
                 < inject_Z n * inject_Z T)%Q).
    { apply Qmult_lt_compat_r; [exact QT | lra]. }
    assert (U : (inject_Z n * inject_Z T
                 <= (10000 * e * (1 + 3 * (1 # 9007199254740992)) + (1 # 2)) * inject_Z T)%Q).
    { apply Qmult_le_compat_r; lra. }
    assert (L' : ((10000 * e * (1 - 3 * (1 # 9007199254740992)) - (1 # 2)) * inject_Z T
                  == 10000 * inject_Z c * (1 - 3 * (1 # 9007199254740992))
                     - (1 # 2) * inject_Z T)%Q) by (rewrite <- Ec; ring).
    assert (U' : ((10000 * e * (1 + 3 * (1 # 9007199254740992)) + (1 # 2)) * inject_Z T
                  == 10000 * inject_Z c * (1 + 3 * (1 # 9007199254740992))
                     + (1 # 2) * inject_Z T)%Q) by (rewrite <- Ec; ring).
    rewrite L' in L. rewrite U' in U. clear L' U' Ec.
    remember (inject_Z n * inject_Z T)%Q as nT eqn:EnT.
    assert (A : (inject_Z (2 * (n * T - 10000 * c)) < inject_Z (T + 1))%Q).
    { rewrite inject_Z_mult, inject_Z_plus. unfold Zminus.
      rewrite inject_Z_plus, inject_Z_opp, !inject_Z_mult. rewrite <- EnT.
      change (inject_Z 2) with 2%Q. change (inject_Z 10000) with 10000%Q.
      change (inject_Z 1) with 1%Q.
      remember (inject_Z c) as qc. remember (inject_Z T) as qT. lra. }
    assert (B : (inject_Z (2 * (10000 * c - n * T)) < inject_Z (T + 1))%Q).
    { rewrite inject_Z_mult, inject_Z_plus. unfold Zminus.
      rewrite inject_Z_plus, inject_Z_opp, !inject_Z_mult. rewrite <- EnT.
      change (inject_Z 2) with 2%Q. change (inject_Z 10000) with 10000%Q.
      change (inject_Z 1) with 1%Q.
      remember (inject_Z c) as qc. remember (inject_Z T) as qT. lra. }
    rewrite <- Zlt_Qlt in A, B. lia.
Qed.

Lemma group_count_pos {A K} `{EqDec K} (key : A -> K) (rows : list A) (k : K) (g : list A) :
  In (k, g) (groupBy key rows) -> 0 < count g.
Proof.
  intros I. pose proof (groupBy_nonempty _ _ _ _ I) as NE.
  unfold count. destruct g; [congruence | simpl; lia].
Qed.

Lemma In_tierStatsRows now db period (tier : PaymentAnalysis.Tier) :
  In tier (tierStatsRows now db period) ->
  0 <= PaymentAnalysis.successful tier <= PaymentAnalysis.totalAttempts tier /\
  0 < PaymentAnalysis.totalAttempts tier.
Proof.
  unfold tierStatsRows. rewrite in_map_iff. intros [[t g] [E I]]. subst tier.
  cbn [PaymentAnalysis.successful PaymentAnalysis.totalAttempts].
  split; [apply countIf_le | exact (group_count_pos _ _ _ _ I)].
Qed.

Lemma providerStatsRows_pos (db : Db) (row : AuthenticationPatterns.Row) :
  In row (providerStatsRows db) -> 0 < AuthenticationPatterns.count row.
Proof.
  unfold providerStatsRows. intros I.
  apply (Permutation_in _ (orderBy_perm _ _)) in I.
  apply in_map_iff in I as [[p g] [E I]]. subst row. simpl.
  exact (group_count_pos _ _ _ _ I).
Qed.

(** Property X2.  Every part-of-whole percentage of the router (successRate
    of a systemHealth entry, successRate of a paymentAnalysis tier,
    percentage of an authenticationPatterns provider) is written in fixed
    notation with two decimals, lies between 0.00 and 100.00 and, for wholes
    up to 10^11, is within 0.005 of the exact percentage. *)
Theorem percentages_between_0_and_100 :
  (forall now db period stat,
     In stat (SystemHealth.apiStats (systemHealth now db period)) ->
     isPercentage (SystemHealth.successRate stat)
       (SystemHealth.Api.successfulRequests (SystemHealth.row stat))
       (SystemHealth.Api.totalRequests (SystemHealth.row stat))) /\
  (forall EXTRACT_EPOCH now db period stat,
     In stat (PaymentAnalysis.tierStats (paymentAnalysis EXTRACT_EPOCH now db period)) ->
     isPercentage (PaymentAnalysis.successRate stat)
       (PaymentAnalysis.successful (PaymentAnalysis.row stat))
       (PaymentAnalysis.totalAttempts (PaymentAnalysis.row stat))) /\
  (forall db stat,
     In stat (AuthenticationPatterns.providerStats (authenticationPatterns db)) ->
     isPercentage (AuthenticationPatterns.percentage stat)
       (AuthenticationPatterns.count (AuthenticationPatterns.row stat))
       (AuthenticationPatterns.totalAccounts (authenticationPatterns db))).
Proof.
  split; [|split].
  - intros now db period stat I. unfold systemHealth, systemHealthOf in I.
    cbn [SystemHealth.apiStats] in I. apply in_map_iff in I as [row [E I]].
    subst stat. cbn [SystemHealth.row SystemHealth.successRate].
    destruct (In_apiStatsRows now db period row I) as [E1 [E2 P]].
    apply percentOf_range; [|exact P]. rewrite E1, E2. apply countIf_le.
  - intros EXTRACT_EPOCH now db period stat I.
    unfold paymentAnalysis, paymentAnalysisOf in I.
    cbn [PaymentAnalysis.tierStats] in I. apply in_map_iff in I as [tier [E I]].
    subst stat. cbn [PaymentAnalysis.row PaymentAnalysis.successRate].
    destruct (In_tierStatsRows now db period tier I) as [B P].
    apply percentOf_range; assumption.
  - intros db stat I. unfold authenticationPatterns, authenticationPatternsOf in *.
    cbn [AuthenticationPatterns.providerStats AuthenticationPatterns.totalAccounts] in *.
    apply in_map_iff in I as [row [E I]]. subst stat.
    cbn [AuthenticationPatterns.row AuthenticationPatterns.percentage].
    pose proof (providerStatsRows_pos db row I) as P.
    assert (L : AuthenticationPatterns.count row
                <= reduceSum AuthenticationPatterns.count (providerStatsRows db)).
    { rewrite reduceSum_sumZ. apply In_le_sumZ.
      - intros c Ic. apply in_map_iff in Ic as [row' [E' I']]. subst c.
        apply (providerStatsRows_nonneg db), I'.
      - apply in_map, I. }
    apply percentOf_range; lia.
Qed.

Lemma percentages_between_0_and_100_witness :
  exists stat,
    In stat (SystemHealth.apiStats (systemHealth 0 chatLogs P7d)) /\
    SystemHealth.successRate stat = "95.24"%string /\
    isPercentage (SystemHealth.successRate stat) 100 105.
Proof.
  eexists. split; [vm_compute; left; reflexivity|]. split; [reflexivity|].
  apply (proj1 percentages_between_0_and_100 0 chatLogs P7d
           {| SystemHealth.row :=
                {| SystemHealth.Api.action := "chat";
                   SystemHealth.Api.totalRequests := 105;
                   SystemHealth.Api.successfulRequests := 100;
                   SystemHealth.Api.avgResponseTime := 20 # 21 |};
              SystemHealth.successRate := "95.24" |}).
  vm_compute. left. reflexivity.
Defined.

Lemma StronglySorted_impl {A} (R R' : A -> A -> Prop) (l : list A) :
  (forall a b, R a b -> R' a b) -> StronglySorted R l -> StronglySorted R' l.
Proof.
  intros H. induction 1 as [|a l S IH F]; constructor; [exact IH|].
  rewrite Forall_forall in *. intros b I. apply H, F, I.
Qed.

(** A descending [ORDER BY] on an integer column. *)
Lemma orderBy_desc {A} (f : A -> Z) (l : list A) :
  StronglySorted (fun a b => f b <= f a) (orderBy (fun a b => f b <=? f a) l).
Proof.
  apply StronglySorted_impl with (R := fun a b => (f b <=? f a) = true).
  - intros a b. apply Z.leb_le.
  - apply orderBy_StronglySorted.
    + intros a b. rewrite !Z.leb_le. lia.
    + intros a b c. rewrite !Z.leb_le. lia.
Qed.

(** The first [n] rows of a descending order are the greatest. *)
Lemma firstn_desc {A} (f : A -> Z) (l : list A) (n : nat) (x : A) :
  let top := firstn n (orderBy (fun a b => f b <=? f a) l) in
  In x l ->
  In x top \/ (List.length top = n /\ forall p, In p top -> f x <= f p).
Proof.
  intros top I. subst top.
  apply (Permutation_in _ (Permutation_sym (orderBy_perm (fun a b => f b <=? f a) l))) in I.
  set (s := orderBy (fun a b => f b <=? f a) l) in *.
  rewrite <- (firstn_skipn n s) in I. apply in_app_or in I as [I|I]; [left; exact I|].
  right. split.
  - rewrite length_firstn.
    destruct (Nat.le_gt_cases n (List.length s)) as [L|G]; [lia|].
    rewrite skipn_all2 in I by lia. destruct I.
  - intros p Ip.
    exact (StronglySorted_firstn_skipn _ s n (orderBy_desc f l) p x Ip I).
Qed.

Lemma NoDup_map_perm {A K} (f : A -> K) (l l' : list A) :
  Permutation l l' -> NoDup (map f l) -> NoDup (map f l').
Proof. intros P. apply Permutation_NoDup, Permutation_map, P. Qed.

Lemma NoDup_map_firstn {A K} (f : A -> K) (n : nat) (l : list A) :
  NoDup (map f l) -> NoDup (map f (firstn n l)).
Proof.
  intros ND. rewrite <- (firstn_skipn n l), map_app in ND.
  apply NoDup_app_remove_r in ND. exact ND.
Qed.

Lemma In_errorPatterns_all now db period (p : SystemHealth.ErrorPattern) :
  In p (map (fun '((e, c), g) =>
               {| SystemHealth.error := e;
                  SystemHealth.statusCode := c;
                  SystemHealth.count := count g |})
            (groupBy (fun l => (RequestLog.error l, RequestLog.statusCode l))
               (filter (fun l => eqb (RequestLog.success l) false)
                       (requestsInRange now db period)))) <->
  failuresOf now db period (SystemHealth.error p) (SystemHealth.statusCode p) <> [] /\
  SystemHealth.count p
  = count (failuresOf now db period (SystemHealth.error p) (SystemHealth.statusCode p)).
Proof.
  unfold failuresOf. rewrite in_map_iff. split.
  - intros [[[e c] g] [E I]]. subst p. simpl.
    pose proof (groupBy_nonempty _ _ _ _ I) as NE.
    apply In_groupBy in I as [_ Eg]. subst g. auto.
  - intros [NE E]. destruct p as [e c n]. simpl in *. subst n.
    eexists ((e, c), _). split; [reflexivity|].
    apply In_groupBy. split; [|reflexivity].
    apply filter_nonempty_In in NE as [l [I T]].
    apply (proj1 (eqb_eq _ _)) in T. rewrite <- T.
    apply (in_map (fun l => (RequestLog.error l, RequestLog.statusCode l))), I.
Qed.

(** Property X3.  errorPatterns of systemHealth has at most 10 entries with
    distinct (error, statusCode) pairs, in descending order of count; each
    count is the positive number of failed requests of the period with that
    pair, and a failing pair that is not listed has no more failures than
    any listed one. *)
Theorem errorPatterns_most_frequent (now : Z) (db : Db) (period : Period) :
  let patterns := SystemHealth.errorPatterns (systemHealth now db period) in
  let key p := (SystemHealth.error p, SystemHealth.statusCode p) in
  (List.length patterns <= 10)%nat /\
  NoDup (map key patterns) /\
  StronglySorted (fun a b => SystemHealth.count b <= SystemHealth.count a) patterns /\
  (forall p, In p patterns ->
     SystemHealth.count p
     = count (failuresOf now db period (SystemHealth.error p) (SystemHealth.statusCode p)) /\
     0 < SystemHealth.count p) /\
  (forall e c, failuresOf now db period e c <> [] ->
     (exists p, In p patterns /\ key p = (e, c)) \/
     (List.length patterns = 10%nat /\
      forall p, In p patterns ->
        count (failuresOf now db period e c) <= SystemHealth.count p)).
Proof.
  intros patterns key. subst patterns.
  unfold systemHealth, systemHealthOf. cbn [SystemHealth.errorPatterns].
  unfold errorPatternsRows.
  set (groups := groupBy (fun l => (RequestLog.error l, RequestLog.statusCode l))
                   (filter (fun l => eqb (RequestLog.success l) false)
                           (requestsInRange now db period))).
  set (all := map (fun '((e, c), g) =>
                     {| SystemHealth.error := e;
                        SystemHealth.statusCode := c;
                        SystemHealth.count := count g |}) groups).
  pose proof (orderBy_perm (fun a b => SystemHealth.count b <=? SystemHealth.count a) all) as P.
  split; [apply firstn_length_le|]. split; [|split; [|split]].
  - apply NoDup_map_firstn. apply (NoDup_map_perm key _ _ (Permutation_sym P)).
    assert (E : map key all = map fst groups).
    { unfold all. rewrite map_map. apply map_ext. intros [[e c] g]. reflexivity. }
    rewrite E. unfold groups. rewrite groupBy_keys. apply NoDup_distinct.
  - apply StronglySorted_firstn. apply orderBy_desc.
  - intros p I. apply In_firstn in I. apply (Permutation_in _ P) in I.
    apply In_errorPatterns_all in I as [NE E]. split; [exact E|].
    rewrite E. unfold count. destruct (failuresOf _ _ _ _ _); [congruence | simpl; lia].
  - intros e c NE.
    set (q := {| SystemHealth.error := e; SystemHealth.statusCode := c;
                 SystemHealth.count := count (failuresOf now db period e c) |}).
    assert (Iq : In q all) by (apply In_errorPatterns_all; split; [exact NE | reflexivity]).
    destruct (firstn_desc SystemHealth.count all 10 q Iq) as [I|[L T]].
    + left. exists q. split; [exact I | reflexivity].
    + right. split; [exact L | exact T].
Qed.

Lemma errorPatterns_most_frequent_witness :
  let patterns := SystemHealth.errorPatterns (systemHealth 0 chatLogs P7d) in
  failuresOf 0 chatLogs P7d (Some "failed"%string) 500 <> [] /\
  exists p, In p patterns /\ SystemHealth.count p = 5.
Proof.
  assert (NE : failuresOf 0 chatLogs P7d (Some "failed"%string) 500 <> [])
    by (vm_compute; discriminate).
  split; [exact NE|].
  destruct (errorPatterns_most_frequent 0 chatLogs P7d) as [_ [_ [_ [C T]]]].
  destruct (T (Some "failed"%string) 500 NE) as [[p [I K]]|[L _]].
  - exists p. split; [exact I|]. destruct (C p I) as [E _]. rewrite E.
    injection K as K1 K2. rewrite K1, K2. vm_compute. reflexivity.
  - vm_compute in L. discriminate.
Defined.

Lemma In_providerStatsRows (db : Db) (row : AuthenticationPatterns.Row) :
  In row (providerStatsRows db) <->
  accountsOf db (AuthenticationPatterns.provider row) <> [] /\
  AuthenticationPatterns.count row
  = count (accountsOf db (AuthenticationPatterns.provider row)).
Proof.
  unfold providerStatsRows, accountsOf. split.
  - intros I. apply (Permutation_in _ (orderBy_perm _ _)) in I.
    apply in_map_iff in I as [[p g] [E I]]. subst row. simpl.
    pose proof (groupBy_nonempty _ _ _ _ I) as NE.
    apply In_groupBy in I as [_ Eg]. subst g. auto.
  - intros [NE E]. apply (Permutation_in _ (Permutation_sym (orderBy_perm _ _))).
    destruct row as [p n]. simpl in *. subst n. apply in_map_iff.
    eexists (p, _). split; [reflexivity|].
    apply In_groupBy. split; [|reflexivity].
    apply filter_nonempty_In in NE as [a [I T]].
    apply (proj1 (eqb_eq _ _)) in T. rewrite <- T. apply in_map, I.
Qed.

(** Property X4.  authenticationPatterns has one entry per provider that
    occurs in the accounts table, in descending order of count; each count
    is the number of accounts of that provider and totalAccounts is the
    number of all accounts. *)
Theorem authenticationPatterns_counts_accounts (db : Db) :
  let r := authenticationPatterns db in
  let rows := map AuthenticationPatterns.row (AuthenticationPatterns.providerStats r) in
  AuthenticationPatterns.totalAccounts r = count (accounts db) /\
  NoDup (map AuthenticationPatterns.provider rows) /\
  (forall p, In p (map AuthenticationPatterns.provider rows) <->
             exists a, In a (accounts db) /\ Account.provider a = p) /\
  (forall row, In row rows ->
     AuthenticationPatterns.count row
     = count (accountsOf db (AuthenticationPatterns.provider row))) /\
  StronglySorted
    (fun a b => AuthenticationPatterns.count b <= AuthenticationPatterns.count a) rows.
Proof.
  intros r rows. subst r rows. unfold authenticationPatterns, authenticationPatternsOf.
  cbn [AuthenticationPatterns.providerStats AuthenticationPatterns.totalAccounts].
  assert (E : forall T l,
             map AuthenticationPatterns.row
               (map (fun provider =>
                       {| AuthenticationPatterns.row := provider;
                          AuthenticationPatterns.percentage :=
                            percentOf (AuthenticationPatterns.count provider) T |}) l)
             = l) by (intros T l; rewrite map_map; apply map_id).
  rewrite E. clear E.
  pose proof (orderBy_perm
                (fun a b => AuthenticationPatterns.count b <=? AuthenticationPatterns.count a)
                (map (fun '(p, g) =>
                        {| AuthenticationPatterns.provider := p;
                           AuthenticationPatterns.count := count g |})
                     (groupBy Account.provider (accounts db)))) as P.
  fold (providerStatsRows db) in P.
  split; [|split; [|split; [|split]]].
  - rewrite (reduceSum_perm _ _ _ P), reduceSum_sumZ, map_map.
    rewrite <- (groupBy_count Account.provider (accounts db)).
    f_equal. apply map_ext. intros [p g]. reflexivity.
  - apply (NoDup_map_perm _ _ _ (Permutation_sym P)). rewrite map_map.
    rewrite (map_ext _ fst) by (intros [p g]; reflexivity).
    rewrite groupBy_keys. apply NoDup_distinct.
  - intros p. rewrite in_map_iff. split.
    + intros [row [E I]]. apply In_providerStatsRows in I as [NE _].
      apply filter_nonempty_In in NE as [a [I T]].
      apply (proj1 (eqb_eq _ _)) in T. exists a. split; [exact I | congruence].
    + intros [a [I E]].
      exists {| AuthenticationPatterns.provider := p;
                AuthenticationPatterns.count := count (accountsOf db p) |}.
      split; [reflexivity|]. apply In_providerStatsRows. split; [|reflexivity].
      simpl. intros C.
      assert (Ia : In a (accountsOf db p)).
      { apply filter_In. split; [exact I|]. apply eqb_eq, E. }
      rewrite C in Ia. destruct Ia.
  - intros row I. apply In_providerStatsRows in I as [_ E]. exact E.
  - apply orderBy_desc.
Qed.

Lemma In_messagesInRange now db period (m : MessageLog.t) :
  In m (messagesInRange now db period) <->
  In m (messageLogs db) /\
  startDate (getDateRange now period) <= MessageLog.createdAt m <= now.
Proof.
  unfold messagesInRange, between. rewrite filter_In, andb_true_iff, !Z.leb_le.
  destruct period; simpl; tauto.
Qed.

Lemma sumZ_filter_map {A} (p : A -> bool) (f : A -> Z) (l : list A) :
  sumZ (map f (filter p l)) = sumZ (map (fun a => if p a then f a else 0) l).
Proof.
  induction l as [|a l IH]; [reflexivity|]. simpl. destruct (p a); simpl; lia.
Qed.

Lemma filter_perm {A} (p : A -> bool) (l l' : list A) :
  Permutation l l' -> Permutation (filter p l) (filter p l').
Proof.
  induction 1; simpl.
  - constructor.
  - destruct (p x); [constructor|]; assumption.
  - destruct (p x), (p y);
      first [apply perm_swap | apply Permutation_refl].
  - eapply Permutation_trans; eassumption.
Qed.

Lemma filter_filter {A} (p q : A -> bool) (l : list A) :
  filter p (filter q l) = filter (fun a => q a && p a) l.
Proof.
  induction l as [|a l IH]; [reflexivity|]. simpl.
  destruct (q a); simpl; [destruct (p a)|]; rewrite IH; reflexivity.
Qed.

(** Property X5.  messageVolume reads exactly the messages created from the
    start date of the period up to now. totalMessages is their number and
    equals the sum of the hourlyStats counts; each dailyMessages row counts
    the messages of its (date, hour) and is positive; each hourlyStats count
    is the number of messages of its hour and the sum of the dailyMessages
    rows of that hour. *)
Theorem messageVolume_totals (DATE HOUR : Z -> Z) (now : Z) (db : Db) (period : Period) :
  let r := messageVolume DATE HOUR now db period in
  let messages := messagesInRange now db period in
  (forall m, In m messages <->
     In m (messageLogs db) /\
     startDate (getDateRange now period) <= MessageLog.createdAt m <= now) /\
  MessageVolume.totalMessages r = count messages /\
  reduceSum MessageVolume.Hourly.count (MessageVolume.hourlyStats r) = count messages /\
  (forall row, In row (MessageVolume.dailyMessages r) ->
     MessageVolume.count row
     = count (messagesAt DATE HOUR now db period
                (MessageVolume.date row) (MessageVolume.hour row)) /\
     0 < MessageVolume.count row) /\
  (forall row, In row (MessageVolume.hourlyStats r) ->
     MessageVolume.Hourly.count row
     = count (messagesInHour HOUR now db period (MessageVolume.Hourly.hour row)) /\
     MessageVolume.Hourly.count row
     = reduceSum MessageVolume.count
         (filter (fun day => MessageVolume.hour day =? MessageVolume.Hourly.hour row)
                 (MessageVolume.dailyMessages r))).
Proof.
  intros r messages. subst r. split; [apply In_messagesInRange|].
  unfold messageVolume, messageVolumeOf.
  cbn [MessageVolume.totalMessages MessageVolume.hourlyStats MessageVolume.dailyMessages].
  unfold dailyMessagesRows, hourlyStatsRows. fold messages.
  set (key2 := fun m => (DATE (MessageLog.createdAt m), HOUR (MessageLog.createdAt m))).
  set (mk2 := fun '((d, h), g) =>
                {| MessageVolume.date := d;
                   MessageVolume.count := @count MessageLog.t g;
                   MessageVolume.hour := h |}).
  set (le2 := fun a b =>
                (MessageVolume.date a <? MessageVolume.date b)
                || ((MessageVolume.date a =? MessageVolume.date b)
                    && (MessageVolume.hour a <=? MessageVolume.hour b))).
  pose proof (orderBy_perm le2 (map mk2 (groupBy key2 messages))) as P2.
  set (key1 := fun m => HOUR (MessageLog.createdAt m)).
  set (mk1 := fun '(h, g) =>
                {| MessageVolume.Hourly.hour := h;
                   MessageVolume.Hourly.count := @count MessageLog.t g |}).
  set (le1 := fun a b => MessageVolume.Hourly.hour a <=? MessageVolume.Hourly.hour b).
  pose proof (orderBy_perm le1 (map mk1 (groupBy key1 messages))) as P1.
  assert (D : forall row, In row (map mk2 (groupBy key2 messages)) ->
            MessageVolume.count row
            = count (messagesAt DATE HOUR now db period
                       (MessageVolume.date row) (MessageVolume.hour row)) /\
            0 < MessageVolume.count row).
  { intros row I. apply in_map_iff in I as [[[d h] g] [E I]]. subst row. simpl.
    split; [|exact (group_count_pos _ _ _ _ I)].
    apply In_groupBy in I as [_ Eg]. subst g. reflexivity. }
  split; [|split; [|split; [|]]].
  - rewrite (reduceSum_perm _ _ _ P2), reduceSum_sumZ, map_map.
    rewrite <- (groupBy_count key2 messages).
    f_equal. apply map_ext. intros [[d h] g]. reflexivity.
  - rewrite (reduceSum_perm _ _ _ P1), reduceSum_sumZ, map_map.
    rewrite <- (groupBy_count key1 messages).
    f_equal. apply map_ext. intros [h g]. reflexivity.
  - intros row I. apply D. exact (Permutation_in _ P2 I).
  - intros row I. apply (Permutation_in _ P1) in I.
    apply in_map_iff in I as [[h g] [E I]]. subst row. simpl.
    apply In_groupBy in I as [_ Eg]. subst g. split; [reflexivity|].
    rewrite (reduceSum_perm _ _ _ (filter_perm _ _ _ P2)).
    rewrite reduceSum_sumZ, sumZ_filter_map. unfold groupBy. rewrite !map_map.
    unfold count at 1.
    change (Z.of_nat (List.length (filter (fun a => eqb (key1 a) h) messages)))
      with (countIf (fun a => eqb (key1 a) h) messages).
    rewrite countIf_sumZ.
    rewrite <- (sumZ_by_key key2 (fun a => if eqb (key1 a) h then 1 else 0)
                  (distinct (map key2 messages)) messages (NoDup_distinct _)).
    2:{ intros a Ia. apply In_distinct. apply (in_map key2), Ia. }
    f_equal. apply map_ext. intros [d h']. simpl.
    rewrite <- countIf_sumZ. unfold countIf. rewrite filter_filter.
    destruct (Z.eqb_spec h' h) as [E|NE].
    + subst h'. unfold count. do 2 f_equal. apply filter_ext. intros a.
      destruct (eqb (key2 a) (d, h)) eqn:K; [|reflexivity]. simpl.
      apply (proj1 (eqb_eq _ _)) in K. unfold key2 in K. injection K as K1 K2.
      apply eqb_eq. exact K2.
    + rewrite filter_none; [reflexivity|]. intros a _.
      destruct (eqb (key2 a) (d, h')) eqn:K; [|reflexivity]. simpl.
      apply (proj1 (eqb_eq _ _)) in K. unfold key2 in K. injection K as K1 K2.
      apply eqb_neq. unfold key1. congruence.
Qed.

Lemma StronglySorted_strict {A K} (key : A -> K) (R S : A -> A -> Prop) (l : list A) :
  (forall a b, R a b -> key a <> key b -> S a b) ->
  NoDup (map key l) -> StronglySorted R l -> StronglySorted S l.
Proof.
  intros H ND St. induction St as [|a l St IH F]; [constructor|].
  simpl in ND. inversion ND as [|? ? NI ND']; subst.
  constructor; [apply IH, ND'|].
  rewrite Forall_forall in *. intros b I. apply H; [apply F, I|].
  intros E. apply NI. rewrite E. apply in_map, I.
Qed.

Lemma NoDup_bounded_length (l : list Z) (n : nat) :
  NoDup l -> (forall z, In z l -> 0 <= z < Z.of_nat n) -> (List.length l <= n)%nat.
Proof.
  intros ND B. rewrite <- (length_seq n 0), <- (length_map Z.of_nat).
  apply NoDup_incl_length; [exact ND|]. intros z I. apply in_map_iff.
  exists (Z.to_nat z). pose proof (B z I). split; [lia|]. apply in_seq. lia.
Qed.

(** Property X6.  When HOUR yields values from 0 to 23, dailyMessages is in
    strictly ascending order of (date, hour), hourlyStats is in strictly
    ascending order of hour, and hourlyStats has at most 24 entries. *)
Theorem messageVolume_order (DATE HOUR : Z -> Z) (now : Z) (db : Db) (period : Period) :
  (forall t, 0 <= HOUR t < 24) ->
  let r := messageVolume DATE HOUR now db period in
  StronglySorted
    (fun a b => MessageVolume.date a < MessageVolume.date b \/
                (MessageVolume.date a = MessageVolume.date b /\
                 MessageVolume.hour a < MessageVolume.hour b))
    (MessageVolume.dailyMessages r) /\
  StronglySorted
    (fun a b => MessageVolume.Hourly.hour a < MessageVolume.Hourly.hour b)
    (MessageVolume.hourlyStats r) /\
  (List.length (MessageVolume.hourlyStats r) <= 24)%nat.
Proof.
  intros HH r. subst r. unfold messageVolume, messageVolumeOf.
  cbn [MessageVolume.hourlyStats MessageVolume.dailyMessages].
  unfold dailyMessagesRows, hourlyStatsRows.
  set (messages := messagesInRange now db period).
  set (key2 := fun m => (DATE (MessageLog.createdAt m), HOUR (MessageLog.createdAt m))).
  set (mk2 := fun '((d, h), g) =>
                {| MessageVolume.date := d;
                   MessageVolume.count := @count MessageLog.t g;
                   MessageVolume.hour := h |}).
  set (le2 := fun a b =>
                (MessageVolume.date a <? MessageVolume.date b)
                || ((MessageVolume.date a =? MessageVolume.date b)
                    && (MessageVolume.hour a <=? MessageVolume.hour b))).
  pose proof (orderBy_perm le2 (map mk2 (groupBy key2 messages))) as P2.
  set (key1 := fun m => HOUR (MessageLog.createdAt m)).
  set (mk1 := fun '(h, g) =>
                {| MessageVolume.Hourly.hour := h;
                   MessageVolume.Hourly.count := @count MessageLog.t g |}).
  set (le1 := fun a b => MessageVolume.Hourly.hour a <=? MessageVolume.Hourly.hour b).
  pose proof (orderBy_perm le1 (map mk1 (groupBy key1 messages))) as P1.
  assert (N2 : NoDup (map (fun a => (MessageVolume.date a, MessageVolume.hour a))
                          (orderBy le2 (map mk2 (groupBy key2 messages))))).
  { apply (NoDup_map_perm _ _ _ (Permutation_sym P2)). rewrite map_map.
    rewrite (map_ext _ fst) by (intros [[d h] g]; reflexivity).
    rewrite groupBy_keys. apply NoDup_distinct. }
  assert (N1 : NoDup (map MessageVolume.Hourly.hour
                          (orderBy le1 (map mk1 (groupBy key1 messages))))).
  { apply (NoDup_map_perm _ _ _ (Permutation_sym P1)). rewrite map_map.
    rewrite (map_ext _ fst) by (intros [h g]; reflexivity).
    rewrite groupBy_keys. apply NoDup_distinct. }
  split; [|split].
  - apply (StronglySorted_strict
             (fun a => (MessageVolume.date a, MessageVolume.hour a))
             (fun a b => le2 a b = true)); [|exact N2|].
    + intros a b L NE. unfold le2 in L.
      apply orb_true_iff in L as [L|L]; [left; apply Z.ltb_lt, L|].
      apply andb_true_iff in L as [L1 L2]. apply Z.eqb_eq in L1. apply Z.leb_le in L2.
      right. split; [exact L1|].
      destruct (Z.eq_dec (MessageVolume.hour a) (MessageVolume.hour b)) as [E|NE'];
        [|lia]. exfalso. apply NE. congruence.
    + apply orderBy_StronglySorted.
      * intros a b. unfold le2.
        rewrite !orb_true_iff, !andb_true_iff, !Z.ltb_lt, !Z.eqb_eq, !Z.leb_le. lia.
      * intros a b c. unfold le2.
        rewrite !orb_true_iff, !andb_true_iff, !Z.ltb_lt, !Z.eqb_eq, !Z.leb_le. lia.
  - apply (StronglySorted_strict MessageVolume.Hourly.hour
             (fun a b => le1 a b = true)); [|exact N1|].
    + intros a b L NE. unfold le1 in L. apply Z.leb_le in L. lia.
    + apply orderBy_StronglySorted.
      * intros a b. unfold le1. rewrite !Z.leb_le. lia.
      * intros a b c. unfold le1. rewrite !Z.leb_le. lia.
  - rewrite <- (length_map MessageVolume.Hourly.hour).
    apply NoDup_bounded_length; [exact N1|].
    intros h I. apply in_map_iff in I as [row [E I]]. subst h.
    apply (Permutation_in _ P1) in I. apply in_map_iff in I as [[h g] [E I]].
    subst row. simpl. apply In_groupBy in I as [I _].
    apply in_map_iff in I as [m [E _]]. subst h. apply HH.
Qed.

Lemma messageVolume_order_witness :
  let r := messageVolume (fun t => t / msPerDay) (fun t => (t / 3600000) mod 24)
             0 sharedDay P7d in
  (List.length (MessageVolume.hourlyStats r) <= 24)%nat /\
  MessageVolume.totalMessages r = 10.
Proof.
  destruct (messageVolume_order (fun t => t / msPerDay) (fun t => (t / 3600000) mod 24)
              0 sharedDay P7d) as [_ [_ L]].
  - intros t. apply Z.mod_pos_bound. lia.
  - split; [exact L | vm_compute; reflexivity].
Defined.

Lemma sumZ_filter_le {A} (p : A -> bool) (f : A -> Z) (l : list A) :
  (forall a, In a l -> 0 <= f a) -> sumZ (map f (filter p l)) <= sumZ (map f l).
Proof.
  induction l as [|a l IH]; intros H; [simpl; lia|].
  assert (0 <= f a) by (apply H; left; reflexivity).
  assert (sumZ (map f (filter p l)) <= sumZ (map f l))
    by (apply IH; intros; apply H; right; assumption).
  simpl. destruct (p a); simpl; lia.
Qed.

Lemma distinct_nil {K} `{EqDec K} (l : list K) : distinct l = [] <-> l = [].
Proof. destruct l; simpl; split; intros E; congruence. Qed.

Lemma count_zero {A} (l : list A) : count l = 0 <-> l = [].
Proof.
  unfold count. destruct l as [|a l]; [tauto|].
  cbn [List.length]. rewrite Nat2Z.inj_succ. split; [lia | discriminate].
Qed.

Lemma count_distinct_le {K} `{EqDec K} (l : list K) : count (distinct l) <= count l.
Proof. unfold count. pose proof (distinct_length_le l). lia. Qed.

(** Property X7.  uniqueUsersAffected of rateLimitingImpact is the number of
    distinct users with at least one day of 5 or more messages in the
    period; it is at most totalDaysWithLimitHits, is zero exactly when
    totalDaysWithLimitHits is, and 5 * totalDaysWithLimitHits is at most the
    number of messages of the period. *)
Theorem rateLimitingImpact_users_and_days DATE now db period :
  let r := rateLimitingImpact DATE now db period in
  (exists users : list string,
     NoDup users /\ RateLimitingImpact.uniqueUsersAffected r = count users /\
     forall u, In u users <->
               exists d, 5 <= count (messagesOn DATE now db period u d)) /\
  RateLimitingImpact.uniqueUsersAffected r <= RateLimitingImpact.totalDaysWithLimitHits r /\
  5 * RateLimitingImpact.totalDaysWithLimitHits r <= count (messagesInRange now db period) /\
  (RateLimitingImpact.uniqueUsersAffected r = 0 <->
   RateLimitingImpact.totalDaysWithLimitHits r = 0).
Proof.
  intros r. subst r. unfold rateLimitingImpact, rateLimitingImpactOf.
  cbn [RateLimitingImpact.uniqueUsersAffected RateLimitingImpact.totalDaysWithLimitHits].
  set (days := dailyMessageCounts DATE now db period).
  set (hits := usersHittingLimits days).
  split; [|split; [|split]].
  - exists (distinct (map RateLimitingImpact.userId hits)).
    split; [apply NoDup_distinct|]. split; [reflexivity|].
    intros u. rewrite In_distinct, in_map_iff. split.
    + intros [day [E I]]. unfold hits, usersHittingLimits in I.
      apply filter_In in I as [I T]. apply In_dailyMessageCounts in I as [_ C].
      exists (RateLimitingImpact.date day). subst u. lia.
    + intros [d H].
      exists {| RateLimitingImpact.userId := u; RateLimitingImpact.date := d;
                RateLimitingImpact.messageCount :=
                  count (messagesOn DATE now db period u d) |}.
      split; [reflexivity|]. unfold hits, usersHittingLimits. apply filter_In.
      split; [|simpl; lia]. apply In_dailyMessageCounts. simpl. split; [|reflexivity].
      intros C. rewrite C in H. unfold count in H. simpl in H. lia.
  - apply Z.le_trans with (count (map RateLimitingImpact.userId hits));
      [apply count_distinct_le | unfold count; rewrite length_map; lia].
  - apply Z.le_trans with (reduceSum RateLimitingImpact.messageCount hits).
    + apply reduceSum_ge. intros a I. unfold hits, usersHittingLimits in I.
      apply filter_In in I as [_ T]. lia.
    + apply Z.le_trans with (reduceSum RateLimitingImpact.messageCount days).
      * rewrite !reduceSum_sumZ. apply sumZ_filter_le.
        intros a I. apply In_dailyMessageCounts in I as [_ C]. rewrite C.
        unfold count. lia.
      * rewrite reduceSum_sumZ. unfold days, dailyMessageCounts. rewrite map_map.
        fold (messagesInRange now db period).
        rewrite <- (groupBy_count
                      (fun m => (MessageLog.userId m, DATE (MessageLog.createdAt m)))
                      (messagesInRange now db period)).
        apply Z.eq_le_incl. f_equal. apply map_ext. intros [[u d] g]. reflexivity.
  - rewrite !count_zero, distinct_nil. split.
    + intros E. apply map_eq_nil in E. exact E.
    + intros E. rewrite E. reflexivity.
Qed.

Lemma In_succeededInRange now db period (p : PaymentRecord.t) :
  In p (succeededInRange now db period) <->
  In p (paymentRecords db) /\
  startDate (getDateRange now period) <= PaymentRecord.createdAt p <= now /\
  PaymentRecord.status p = "succeeded"%string.
Proof.
  unfold succeededInRange, between.
  rewrite filter_In, !andb_true_iff, !Z.leb_le, eqb_eq.
  destruct period; simpl; tauto.
Qed.

Lemma sum_nonempty {A} (col : A -> Z) (rows : list A) :
  rows <> [] -> sum col rows = Some (sumZ (map col rows)).
Proof.
  intros NE. destruct rows as [|a rows]; [congruence|].
  unfold sum. f_equal. apply (reduceSum_sumZ col (a :: rows)).
Qed.

Lemma In_monthlyRevenueRows TO_CHAR_YYYY_MM now db period (row : RevenueMetrics.Row) :
  In row (monthlyRevenueRows TO_CHAR_YYYY_MM now db period) ->
  let mine := paymentsInMonth TO_CHAR_YYYY_MM now db period (RevenueMetrics.month row) in
  RevenueMetrics.revenue row = Some (sumZ (map PaymentRecord.amountCents mine)) /\
  RevenueMetrics.transactions row = count mine /\
  0 < RevenueMetrics.transactions row.
Proof.
  unfold monthlyRevenueRows, paymentsInMonth. intros I.
  apply (Permutation_in _ (orderBy_perm _ _)) in I.
  apply in_map_iff in I as [[m g] [E I]]. subst row. simpl.
  pose proof (groupBy_nonempty _ _ _ _ I) as NE.
  pose proof (group_count_pos _ _ _ _ I) as P.
  apply In_groupBy in I as [_ Eg]. subst g.
  split; [apply sum_nonempty, NE | split; [reflexivity | exact P]].
Qed.

(** Property X8.  revenueMetrics counts exactly the payment records with
    status succeeded created from the start date of the period up to now:
    per month (distinct months, in ascending string order) revenue is the
    sum of amountCents and transactions the positive number of such records,
    revenueInCurrency is that sum divided by 100 with two decimals, the
    monthly figures add up to the figures of the period (the transactions to
    the dashboard card Total transactions), and for less than 2^52 cents
    totalRevenue is the two-decimal notation of the total. *)
Theorem revenueMetrics_counts_payments TO_CHAR_YYYY_MM now db period :
  let r := revenueMetrics TO_CHAR_YYYY_MM now db period in
  let payments := succeededInRange now db period in
  let months := map RevenueMetrics.row (RevenueMetrics.monthlyRevenue r) in
  (forall p, In p payments <->
     In p (paymentRecords db) /\
     startDate (getDateRange now period) <= PaymentRecord.createdAt p <= now /\
     PaymentRecord.status p = "succeeded"%string) /\
  reduceSum revenueCents months = sumZ (map PaymentRecord.amountCents payments) /\
  reduceSum RevenueMetrics.transactions months = count payments /\
  totalTransactions (Some r) = count payments /\
  (forall month, In month (RevenueMetrics.monthlyRevenue r) ->
     let mine := paymentsInMonth TO_CHAR_YYYY_MM now db period
                   (RevenueMetrics.month (RevenueMetrics.row month)) in
     RevenueMetrics.revenue (RevenueMetrics.row month)
     = Some (sumZ (map PaymentRecord.amountCents mine)) /\
     RevenueMetrics.transactions (RevenueMetrics.row month) = count mine /\
     0 < RevenueMetrics.transactions (RevenueMetrics.row month) /\
     RevenueMetrics.revenueInCurrency month
     = toFixed2 (ndiv (ofZ (sumZ (map PaymentRecord.amountCents mine))) (ofZ 100))) /\
  NoDup (map RevenueMetrics.month months) /\
  Sorted (fun a b => String.leb (RevenueMetrics.month a) (RevenueMetrics.month b) = true)
         months /\
  (Z.abs (sumZ (map PaymentRecord.amountCents payments)) < 2 ^ 52 ->
   RevenueMetrics.totalRevenue r
   = showCents (sumZ (map PaymentRecord.amountCents payments))).
Proof.
  intros r payments months. subst r months. split; [apply In_succeededInRange|].
  unfold revenueMetrics, revenueMetricsOf.
  cbn [RevenueMetrics.monthlyRevenue RevenueMetrics.totalRevenue].
  set (rows := monthlyRevenueRows TO_CHAR_YYYY_MM now db period).
  assert (E : forall l,
             map RevenueMetrics.row
               (map (fun month =>
                       {| RevenueMetrics.row := month;
                          RevenueMetrics.revenueInCurrency :=
                            match RevenueMetrics.revenue month with
                            | Some v => toFixed2 (ndiv (ofZ v) (ofZ 100))
                            | None => "0"%string
                            end |}) l) = l)
    by (intros l; rewrite map_map; apply map_id).
  rewrite E. clear E.
  pose proof (orderBy_perm
                (fun a b => String.leb (RevenueMetrics.month a) (RevenueMetrics.month b))
                (map (fun '(m, g) =>
                        {| RevenueMetrics.month := m;
                           RevenueMetrics.revenue := sum PaymentRecord.amountCents g;
                           RevenueMetrics.transactions := count g |})
                     (groupBy (fun p => TO_CHAR_YYYY_MM (PaymentRecord.createdAt p))
                              payments))) as P.
  fold (monthlyRevenueRows TO_CHAR_YYYY_MM now db period) in P. fold rows in P.
  assert (Ecents : reduceSum revenueCents rows
                   = sumZ (map PaymentRecord.amountCents payments)).
  { rewrite (reduceSum_perm _ _ _ P), reduceSum_sumZ, map_map.
    rewrite <- (groupBy_sum (fun p => TO_CHAR_YYYY_MM (PaymentRecord.createdAt p))
                  PaymentRecord.amountCents payments).
    f_equal. apply map_ext_in. intros [m g] I. unfold revenueCents. simpl.
    rewrite sum_nonempty by exact (groupBy_nonempty _ _ _ _ I). reflexivity. }
  assert (Etx : reduceSum RevenueMetrics.transactions rows = count payments).
  { rewrite (reduceSum_perm _ _ _ P), reduceSum_sumZ, map_map.
    rewrite <- (groupBy_count (fun p => TO_CHAR_YYYY_MM (PaymentRecord.createdAt p))
                  payments).
    f_equal. apply map_ext. intros [m g]. reflexivity. }
  split; [exact Ecents|]. split; [exact Etx|]. split; [|split; [|split; [|split]]].
  - rewrite <- Etx. unfold totalTransactions.
    cbn [RevenueMetrics.monthlyRevenue]. fold rows.
    rewrite reduceSum_map. reflexivity.
  - intros month I. apply in_map_iff in I as [row [Em I]]. subst month.
    cbn [RevenueMetrics.row RevenueMetrics.revenueInCurrency].
    destruct (In_monthlyRevenueRows _ _ _ _ row I) as [R [T Pos]].
    rewrite R. repeat split; assumption.
  - apply (NoDup_map_perm _ _ _ (Permutation_sym P)). rewrite map_map.
    rewrite (map_ext _ fst) by (intros [m g]; reflexivity).
    rewrite groupBy_keys. apply NoDup_distinct.
  - apply (orderBy_Sorted
             (fun a b => String.leb (RevenueMetrics.month a) (RevenueMetrics.month b))).
    intros a b. apply String.leb_total.
  - intros HS. rewrite Ecents. apply cents_exact, HS.
Qed.

Lemma revenueMetrics_counts_payments_witness :
  let r := revenueMetrics (fun _ => "2024-01"%string) 0 threeUsers P30d in
  Z.abs (sumZ (map PaymentRecord.amountCents (succeededInRange 0 threeUsers P30d))) < 2 ^ 52 /\
  RevenueMetrics.totalRevenue r = showCents 49900.
Proof.
  assert (H : Z.abs (sumZ (map PaymentRecord.amountCents
                             (succeededInRange 0 threeUsers P30d))) < 2 ^ 52)
    by (vm_compute; reflexivity).
  split; [exact H|].
  destruct (revenueMetrics_counts_payments (fun _ => "2024-01"%string) 0 threeUsers P30d)
    as [_ [_ [_ [_ [_ [_ [_ T]]]]]]].
  exact (T H).
Defined.

Lemma distinct_count_le_users {A} (db : Db) (f : A -> string) (l : list A) :
  (forall a, In a l -> In (f a) (map User.id (users db))) ->
  0 <= count (distinct (map f l)) <= count (users db).
Proof.
  intros H. split; [unfold count; lia|].
  replace (count (users db)) with (count (map User.id (users db)))
    by (unfold count; rewrite length_map; reflexivity).
  apply NoDup_count_le; [apply NoDup_distinct|].
  intros u I. apply In_distinct, in_map_iff in I as [a [E I]]. subst u. apply H, I.
Qed.

(** Property X9.  Under the foreign keys userId -> users.id of schema.ts,
    registrations is the number of users, each of firstMessage,
    paymentIntent and completedPayment lies between 0 and registrations,
    completedPayment equals uniquePayingUsers of revenueMetrics for the same
    period, and with at least one user registrationToFirstMessage and
    overallConversion are two-decimal percentages between 0.00 and 100.00. *)
Theorem conversionFunnel_stages TO_CHAR_YYYY_MM now db period :
  referential db ->
  let r := conversionFunnel now db period in
  let rates := ConversionFunnel.conversionRates r in
  ConversionFunnel.registrations r = count (users db) /\
  0 <= ConversionFunnel.firstMessage r <= ConversionFunnel.registrations r /\
  0 <= ConversionFunnel.paymentIntent r <= ConversionFunnel.registrations r /\
  0 <= ConversionFunnel.completedPayment r <= ConversionFunnel.registrations r /\
  ConversionFunnel.completedPayment r
  = RevenueMetrics.uniquePayingUsers (revenueMetrics TO_CHAR_YYYY_MM now db period) /\
  (users db <> [] ->
   isPercentage (ConversionFunnel.registrationToFirstMessage rates)
     (ConversionFunnel.firstMessage r) (ConversionFunnel.registrations r) /\
   isPercentage (ConversionFunnel.overallConversion rates)
     (ConversionFunnel.completedPayment r) (ConversionFunnel.registrations r)).
Proof.
  intros [Fm Fi Fp] r rates. subst rates r. unfold conversionFunnel, conversionFunnelOf.
  cbn [ConversionFunnel.registrations ConversionFunnel.firstMessage
       ConversionFunnel.paymentIntent ConversionFunnel.completedPayment
       ConversionFunnel.conversionRates ConversionFunnel.registrationToFirstMessage
       ConversionFunnel.overallConversion].
  assert (B1 := distinct_count_le_users db MessageLog.userId
                  (filter (fun m => between (startDate (getDateRange now period))
                                      (endDate (getDateRange now period))
                                      (MessageLog.createdAt m)) (messageLogs db))
                  (fun a I => Fm a (proj1 (proj1 (filter_In _ _ _) I)))).
  assert (B2 := distinct_count_le_users db PaymentIntent.userId
                  (filter (fun p => between (startDate (getDateRange now period))
                                      (endDate (getDateRange now period))
                                      (PaymentIntent.createdAt p)) (paymentIntents db))
                  (fun a I => Fi a (proj1 (proj1 (filter_In _ _ _) I)))).
  assert (B3 := distinct_count_le_users db PaymentRecord.userId
                  (succeededInRange now db period)
                  (fun a I => Fp a (proj1 (proj1 (In_succeededInRange _ _ _ _) I)))).
  split; [reflexivity|]. split; [exact B1|]. split; [exact B2|]. split; [exact B3|].
  split; [reflexivity|].
  intros NE. assert (P : 0 < count (users db)).
  { unfold count. destruct (users db); [congruence | simpl; lia]. }
  split; apply percentOf_range; assumption.
Qed.

Lemma threeUsers_referential : referential threeUsers.
Proof.
  split; intros x I; vm_compute in I;
    repeat (destruct I as [E|I]; [subst x; vm_compute; tauto|]); destruct I.
Qed.

Lemma conversionFunnel_stages_witness :
  let r := conversionFunnel 0 threeUsers P30d in
  referential threeUsers /\
  ConversionFunnel.firstMessage r = 2 /\ ConversionFunnel.completedPayment r = 1 /\
  ConversionFunnel.firstMessage r <= ConversionFunnel.registrations r.
Proof.
  split; [exact threeUsers_referential|].
  destruct (conversionFunnel_stages (fun _ => "2024-01"%string) 0 threeUsers P30d
              threeUsers_referential) as [_ [[_ B] _]].
  split; [vm_compute; reflexivity|]. split; [vm_compute; reflexivity | exact B].
Defined.

Lemma distinct_map_inj {A B} `{EqDec A} `{EqDec B} (f : A -> B) (l : list A) :
  (forall x y, f x = f y -> x = y) -> distinct (map f l) = map f (distinct l).
Proof.
  intros Inj. induction l as [|a l IH]; [reflexivity|].
  simpl. rewrite IH, filter_map_comm. do 2 f_equal. apply filter_ext. intros x.
  f_equal. destruct (eqb x a) eqn:E.
  - apply (proj1 (eqb_eq _ _)) in E. subst x. apply eqb_refl.
  - apply eqb_neq. apply (proj1 (eqb_neq _ _)) in E. intros C. apply E, Inj, C.
Qed.

Lemma join_users (db : Db) :
  NoDup (map User.id (users db)) ->
  leftJoin (messageLogs db) (users db)
    (fun m u => eqb (MessageLog.userId m) (User.id u))
  = map (fun m => (m, userOf db (MessageLog.userId m))) (messageLogs db).
Proof.
  intros ND. rewrite leftJoin_orNull, <- flat_map_singleton.
  apply flat_map_ext. intros m. unfold userOf.
  set (us := filter (fun u => eqb (MessageLog.userId m) (User.id u)) (users db)).
  assert (L : (List.length us <= 1)%nat).
  { apply (same_key_at_most_one User.id (MessageLog.userId m)).
    - apply NoDup_map_filter, ND.
    - intros u I. apply filter_In in I as [_ E].
      apply (proj1 (eqb_eq _ _)) in E. congruence. }
  destruct us as [|u [|u' us]]; [reflexivity | reflexivity | simpl in L; lia].
Qed.

Lemma filter_fst_map {A B} (p : A -> bool) (h : A -> B) (l : list A) :
  filter (fun '(a, _) => p a) (map (fun a => (a, h a)) l)
  = map (fun a => (a, h a)) (filter p l).
Proof. rewrite filter_map_comm. reflexivity. Qed.

(** The grouped rows of messagesPerUser before the ordering. *)
Lemma messagesPerUser_groups now db period :
  NoDup (map User.id (users db)) ->
  map (fun '((userId, userName), g) =>
         {| UserEngagement.userId := userId;
            UserEngagement.messageCount := @count (MessageLog.t * option User.t) g;
            UserEngagement.userName := userName |})
      (groupBy (fun '(m, u) =>
                  (MessageLog.userId m,
                   match u with Some u => User.name u | None => None end))
         (filter (fun '(m, _) =>
                    between (startDate (getDateRange now period))
                            (endDate (getDateRange now period))
                            (MessageLog.createdAt m))
            (leftJoin (messageLogs db) (users db)
               (fun m u => eqb (MessageLog.userId m) (User.id u)))))
  = map (fun uid =>
           {| UserEngagement.userId := uid;
              UserEngagement.messageCount := count (messagesBy now db period uid);
              UserEngagement.userName := nameOf db uid |})
        (distinct (map MessageLog.userId (messagesInRange now db period))).
Proof.
  intros ND. rewrite (join_users db ND), filter_fst_map.
  fold (messagesInRange now db period). set (M := messagesInRange now db period).
  unfold groupBy. rewrite !map_map.
  rewrite (map_ext (fun x => let '(m, u) := (x, userOf db (MessageLog.userId x)) in
                             (MessageLog.userId m,
                              match u with Some u0 => User.name u0 | None => None end))
                   (fun m => (fun uid => (uid, nameOf db uid)) (MessageLog.userId m)))
    by reflexivity.
  rewrite <- (map_map MessageLog.userId (fun uid => (uid, nameOf db uid))).
  rewrite (distinct_map_inj (fun uid => (uid, nameOf db uid)))
    by (intros x y E; congruence).
  rewrite map_map. apply map_ext. intros uid. cbv beta iota. f_equal.
  rewrite filter_map_comm. unfold count. rewrite length_map. do 2 f_equal.
  unfold messagesBy. apply filter_ext. intros m. fold (nameOf db (MessageLog.userId m)).
  destruct (eqb (MessageLog.userId m) uid) eqn:E.
  - apply (proj1 (eqb_eq _ _)) in E. rewrite E. apply eqb_refl.
  - apply eqb_neq. apply (proj1 (eqb_neq _ _)) in E. congruence.
Qed.

(** Property X10.  With unique user ids, totalActiveUsers of userEngagement
    is the number of distinct senders of the period's messages (the
    firstMessage stage of conversionFunnel), avgMessagesPerUser is the
    number of messages of the period per active user, and messagesPerUser
    lists at most 20 distinct users in descending order of their positive
    message counts, each with the name of the user, such that no unlisted
    sender has more messages than a listed one. *)
Theorem userEngagement_active_users DATE now db period :
  NoDup (map User.id (users db)) ->
  let r := userEngagement DATE now db period in
  let messages := messagesInRange now db period in
  let top := UserEngagement.messagesPerUser r in
  UserEngagement.totalActiveUsers r = count (distinct (map MessageLog.userId messages)) /\
  UserEngagement.totalActiveUsers r
  = ConversionFunnel.firstMessage (conversionFunnel now db period) /\
  UserEngagement.avgMessagesPerUser r
  = average (count messages) (UserEngagement.totalActiveUsers r) /\
  (List.length top <= 20)%nat /\
  NoDup (map UserEngagement.userId top) /\
  StronglySorted
    (fun a b => UserEngagement.messageCount b <= UserEngagement.messageCount a) top /\
  (forall row, In row top ->
     UserEngagement.messageCount row
     = count (messagesBy now db period (UserEngagement.userId row)) /\
     0 < UserEngagement.messageCount row /\
     UserEngagement.userName row = nameOf db (UserEngagement.userId row)) /\
  (forall u, messagesBy now db period u <> [] ->
     (exists row, In row top /\ UserEngagement.userId row = u) \/
     (List.length top = 20%nat /\
      forall row, In row top ->
        count (messagesBy now db period u) <= UserEngagement.messageCount row)).
Proof.
  intros ND r messages top. subst r top.
  unfold userEngagement. cbn [UserEngagement.totalActiveUsers
    UserEngagement.avgMessagesPerUser UserEngagement.messagesPerUser].
  unfold messagesPerUserRows. rewrite (messagesPerUser_groups now db period ND).
  fold messages.
  set (all := map (fun uid =>
                     {| UserEngagement.userId := uid;
                        UserEngagement.messageCount := count (messagesBy now db period uid);
                        UserEngagement.userName := nameOf db uid |})
                  (distinct (map MessageLog.userId messages))).
  set (le := fun a b => UserEngagement.messageCount b <=? UserEngagement.messageCount a).
  pose proof (orderBy_perm le all) as P.
  assert (Call : count (orderBy le all) = count (distinct (map MessageLog.userId messages))).
  { unfold count. rewrite (Permutation_length P). unfold all. rewrite length_map.
    reflexivity. }
  assert (Iall : forall row, In row all <->
            messagesBy now db period (UserEngagement.userId row) <> [] /\
            UserEngagement.messageCount row
            = count (messagesBy now db period (UserEngagement.userId row)) /\
            UserEngagement.userName row = nameOf db (UserEngagement.userId row)).
  { intros row. unfold all. rewrite in_map_iff. split.
    - intros [uid [E I]]. subst row. simpl. split; [|split; reflexivity].
      apply In_distinct, in_map_iff in I as [m [E I]]. intros C.
      assert (Im : In m (messagesBy now db period uid))
        by (apply filter_In; split; [exact I | apply eqb_eq, E]).
      rewrite C in Im. destruct Im.
    - intros [NE [E1 E2]]. exists (UserEngagement.userId row). split.
      + destruct row; simpl in *; congruence.
      + apply filter_nonempty_In in NE as [m [I T]].
        apply (proj1 (eqb_eq _ _)) in T. rewrite <- T.
        apply In_distinct, in_map, I. }
  split; [exact Call|]. split; [exact Call|]. split; [|split; [|split; [|split; [|split]]]].
  - f_equal. rewrite (reduceSum_perm _ _ _ P), reduceSum_sumZ. unfold all.
    rewrite map_map. cbn [UserEngagement.messageCount].
    rewrite <- (groupBy_count MessageLog.userId messages). unfold groupBy.
    rewrite map_map. reflexivity.
  - apply firstn_length_le.
  - apply NoDup_map_firstn. apply (NoDup_map_perm _ _ _ (Permutation_sym P)).
    unfold all. rewrite map_map. cbn [UserEngagement.userId]. rewrite map_id.
    apply NoDup_distinct.
  - apply StronglySorted_firstn. apply orderBy_desc.
  - intros row I. apply In_firstn in I. apply (Permutation_in _ P) in I.
    apply Iall in I as [NE [E1 E2]]. split; [exact E1|]. split; [|exact E2].
    rewrite E1. unfold count. destruct (messagesBy _ _ _ _); [congruence | simpl; lia].
  - intros u NE.
    set (q := {| UserEngagement.userId := u;
                 UserEngagement.messageCount := count (messagesBy now db period u);
                 UserEngagement.userName := nameOf db u |}).
    assert (Iq : In q all) by (apply Iall; split; [exact NE | split; reflexivity]).
    destruct (firstn_desc UserEngagement.messageCount all 20 q Iq) as [I|[L T]].
    + left. exists q. split; [exact I | reflexivity].
    + right. split; [exact L | exact T].
Qed.

Lemma userEngagement_active_users_witness :
  let r := userEngagement (fun t => t / msPerDay) 0 threeUsers P7d in
  NoDup (map User.id (users threeUsers)) /\
  UserEngagement.totalActiveUsers r = 2 /\
  UserEngagement.avgMessagesPerUser r = "10.50"%string.
Proof.
  assert (ND : NoDup (map User.id (users threeUsers))) by apply threeUsers_wellFormed.
  split; [exact ND|].
  destruct (userEngagement_active_users (fun t => t / msPerDay) 0 threeUsers P7d ND)
    as [T [_ [A _]]].
  split; [rewrite T | rewrite A]; vm_compute; reflexivity.
Defined.

Lemma orderBy_asc_strict {A} (f : A -> Z) (l : list A) :
  NoDup (map f l) ->
  StronglySorted (fun a b => f a < f b) (orderBy (fun a b => f a <=? f b) l).
Proof.
  intros ND.
  apply (StronglySorted_strict f (fun a b => (f a <=? f b) = true)).
  - intros a b L NE. apply Z.leb_le in L. lia.
  - apply (NoDup_map_perm _ _ _ (Permutation_sym (orderBy_perm _ l))), ND.
  - apply orderBy_StronglySorted.
    + intros a b. rewrite !Z.leb_le. lia.
    + intros a b c. rewrite !Z.leb_le. lia.
Qed.

(** Property X11.  dailyActiveUsers of userEngagement has one entry per date
    with a message in the period, in strictly ascending order of date;
    activeUsers is the number of distinct senders of that date, at least 1,
    at most the number of messages of the date and at most the number of
    distinct senders of the period. *)
Theorem dailyActiveUsers_per_day DATE now db period :
  let days := UserEngagement.dailyActiveUsers (userEngagement DATE now db period) in
  StronglySorted (fun a b => UserEngagement.date a < UserEngagement.date b) days /\
  (forall d, In d (map UserEngagement.date days) <->
             messagesOnDate DATE now db period d <> []) /\
  (forall day, In day days ->
     let senders :=
       distinct (map MessageLog.userId
                   (messagesOnDate DATE now db period (UserEngagement.date day))) in
     UserEngagement.activeUsers day = count senders /\
     1 <= UserEngagement.activeUsers day
       <= count (messagesOnDate DATE now db period (UserEngagement.date day)) /\
     UserEngagement.activeUsers day
     <= count (distinct (map MessageLog.userId (messagesInRange now db period)))).
Proof.
  intros days. subst days. unfold userEngagement. cbn [UserEngagement.dailyActiveUsers].
  unfold dailyActiveUsersRows. fold (messagesInRange now db period).
  set (M := messagesInRange now db period).
  set (all := map (fun '(d, g) =>
                     {| UserEngagement.date := d;
                        UserEngagement.activeUsers :=
                          count (distinct (map MessageLog.userId g)) |})
                  (groupBy (fun m => DATE (MessageLog.createdAt m)) M)).
  pose proof (orderBy_perm (fun a b => UserEngagement.date a <=? UserEngagement.date b) all)
    as P.
  assert (Iall : forall day, In day all <->
            messagesOnDate DATE now db period (UserEngagement.date day) <> [] /\
            UserEngagement.activeUsers day
            = count (distinct (map MessageLog.userId
                                 (messagesOnDate DATE now db period
                                    (UserEngagement.date day))))).
  { intros day. unfold all, messagesOnDate. fold M. rewrite in_map_iff. split.
    - intros [[d g] [E I]]. subst day. simpl.
      pose proof (groupBy_nonempty _ _ _ _ I) as NE.
      apply In_groupBy in I as [_ Eg]. subst g. auto.
    - intros [NE E]. destruct day as [d n]. simpl in *. subst n.
      eexists (d, _). split; [reflexivity|].
      apply In_groupBy. split; [|reflexivity].
      apply filter_nonempty_In in NE as [m [I T]].
      apply (proj1 (eqb_eq _ _)) in T. rewrite <- T.
      apply (in_map (fun m => DATE (MessageLog.createdAt m))), I. }
  split; [|split].
  - apply orderBy_asc_strict. unfold all. rewrite map_map.
    rewrite (map_ext _ fst) by (intros [d g]; reflexivity).
    rewrite groupBy_keys. apply NoDup_distinct.
  - intros d. rewrite in_map_iff. split.
    + intros [day [E I]]. subst d. apply (Permutation_in _ P) in I.
      apply Iall in I. tauto.
    + intros NE.
      exists {| UserEngagement.date := d;
                UserEngagement.activeUsers :=
                  count (distinct (map MessageLog.userId
                                     (messagesOnDate DATE now db period d))) |}.
      split; [reflexivity|].
      apply (Permutation_in _ (Permutation_sym P)). apply Iall. simpl. auto.
  - intros day I. cbv zeta. apply (Permutation_in _ P) in I.
    apply Iall in I as [NE E]. rewrite E. split; [reflexivity|].
    set (g := messagesOnDate DATE now db period (UserEngagement.date day)) in *.
    split; [split|].
    + assert (N : distinct (map MessageLog.userId g) <> []).
      { rewrite distinct_nil. intros C. apply map_eq_nil in C. contradiction. }
      unfold count. destruct (distinct (map MessageLog.userId g)); [congruence|].
      simpl. lia.
    + apply Z.le_trans with (count (map MessageLog.userId g));
        [apply count_distinct_le | unfold count; rewrite length_map; lia].
    + apply NoDup_count_le; [apply NoDup_distinct|].
      intros u Iu. apply In_distinct. apply In_distinct, in_map_iff in Iu as [m [Eu Im]].
      subst u. apply in_map. unfold g, messagesOnDate in Im.
      apply filter_In in Im as [Im _]. exact Im.
Qed.

Lemma length_flat_map_ge {A B} (f : A -> list B) (l : list A) :
  (forall a, In a l -> (1 <= List.length (f a))%nat) ->
  (List.length l <= List.length (flat_map f l))%nat.
Proof.
  induction l as [|a l IH]; intros H; [simpl; lia|].
  simpl. rewrite length_app.
  assert (1 <= List.length (f a))%nat by (apply H; left; reflexivity).
  assert (List.length l <= List.length (flat_map f l))%nat
    by (apply IH; intros; apply H; right; assumption).
  lia.
Qed.

Lemma orNull_length {B} (l : list B) : (1 <= List.length (orNull l))%nat.
Proof. destruct l; simpl; lia. Qed.

Lemma filter_pair_const {A B} (p : A -> bool) (a : A) (l : list B) :
  filter (fun '(i, _) => p i) (map (pair a) l) = if p a then map (pair a) l else [].
Proof.
  induction l as [|b l IH]; simpl; [destruct (p a); reflexivity|].
  rewrite IH. destruct (p a); reflexivity.
Qed.

Lemma tier_join now db period (t : string) :
  filter (fun '(i, _) => eqb (PaymentIntent.tier i) t)
    (filter (fun '(i, _) =>
               between (startDate (getDateRange now period))
                       (endDate (getDateRange now period)) (PaymentIntent.createdAt i))
       (leftJoin (paymentIntents db) (paymentRecords db)
          (fun i p => match PaymentIntent.providerPaymentId i with
                      | Some id => eqb id (PaymentRecord.providerPaymentId p)
                      | None => false
                      end)))
  = flat_map (fun i => map (pair i) (orNull (recordsOf db i)))
             (intentsOfTier now db period t).
Proof.
  rewrite leftJoin_orNull. fold (recordsOf db).
  unfold intentsOfTier, intentsInRange. cbv zeta.
  induction (paymentIntents db) as [|i l IH]; [reflexivity|].
  cbn [flat_map filter]. rewrite !filter_app, IH. clear IH.
  rewrite (filter_pair_const
             (fun i => between (startDate (getDateRange now period))
                               (endDate (getDateRange now period))
                               (PaymentIntent.createdAt i))).
  destruct (between _ _ (PaymentIntent.createdAt i)).
  - rewrite (filter_pair_const (fun i => eqb (PaymentIntent.tier i) t)).
    cbn [filter]. destruct (eqb (PaymentIntent.tier i) t); reflexivity.
  - reflexivity.
Qed.

Lemma In_tierStatsRows_join now db period (tier : PaymentAnalysis.Tier) :
  In tier (tierStatsRows now db period) <->
  intentsOfTier now db period (PaymentAnalysis.tier tier) <> [] /\
  PaymentAnalysis.totalAttempts tier
  = count (flat_map (fun i => map (pair i) (orNull (recordsOf db i)))
             (intentsOfTier now db period (PaymentAnalysis.tier tier))) /\
  PaymentAnalysis.successful tier
  = countIf (fun ip : PaymentIntent.t * option PaymentRecord.t =>
               match snd ip with Some p => succeeded p | None => false end)
            (flat_map (fun i => map (pair i) (orNull (recordsOf db i)))
               (intentsOfTier now db period (PaymentAnalysis.tier tier))).
Proof.
  unfold tierStatsRows. cbv zeta. rewrite in_map_iff. split.
  - intros [[t g] [E I]]. subst tier.
    cbn [PaymentAnalysis.tier PaymentAnalysis.totalAttempts PaymentAnalysis.successful].
    apply In_groupBy in I as [I Eg].
    assert (Eg' : g = flat_map (fun i => map (pair i) (orNull (recordsOf db i)))
                        (intentsOfTier now db period t)).
    { rewrite Eg, <- tier_join. apply filter_ext. intros [i p]. reflexivity. }
    clear Eg. subst g.
    split; [|split; [reflexivity|]].
    2:{ unfold countIf. do 2 f_equal. apply filter_ext. intros [i' p']. reflexivity. }
    apply in_map_iff in I as [[i p] [Et I]]. apply filter_In in I as [I B].
    rewrite leftJoin_orNull in I. apply in_flat_map in I as [i' [Ii Ip]].
    apply in_map_iff in Ip as [p' [Ep _]]. injection Ep as E1 E2. subst i' p'.
    intros C.
    assert (Ii' : In i (intentsOfTier now db period t)).
    { apply filter_In. split; [|apply eqb_eq, Et].
      apply filter_In. split; [exact Ii | exact B]. }
    rewrite C in Ii'. destruct Ii'.
  - intros [NE [E1 E2]]. destruct tier as [t n s].
    cbn [PaymentAnalysis.tier PaymentAnalysis.totalAttempts PaymentAnalysis.successful] in *.
    subst n s.
    exists (t, flat_map (fun i => map (pair i) (orNull (recordsOf db i)))
                 (intentsOfTier now db period t)). split.
    + f_equal. unfold countIf. do 2 f_equal. apply filter_ext. intros [i' p']. reflexivity.
    + apply In_groupBy. split.
      2:{ rewrite <- tier_join. apply filter_ext. intros [i p]. reflexivity. }
      apply filter_nonempty_In in NE as [i [I T]].
      apply (proj1 (eqb_eq _ _)) in T. unfold intentsInRange in I.
      apply filter_In in I as [I B].
      destruct (orNull_nonempty (recordsOf db i)) as [p Ip].
      apply in_map_iff. exists (i, p). split; [exact T|].
      apply filter_In. split; [|exact B].
      rewrite leftJoin_orNull. apply in_flat_map. exists i. split; [exact I|].
      apply in_map, Ip.
Qed.

Lemma recordsOf_unique (db : Db) (i : PaymentIntent.t) :
  NoDup (map PaymentRecord.providerPaymentId (paymentRecords db)) ->
  (List.length (recordsOf db i) <= 1)%nat.
Proof.
  intros ND. unfold recordsOf.
  destruct (PaymentIntent.providerPaymentId i) as [id|].
  - apply (same_key_at_most_one PaymentRecord.providerPaymentId id).
    + apply NoDup_map_filter, ND.
    + intros p I. apply filter_In in I as [_ E].
      apply (proj1 (eqb_eq _ _)) in E. congruence.
  - rewrite filter_none by reflexivity. simpl. lia.
Qed.

Lemma flat_map_single {A B} (f : A -> list B) (g : A -> B) (l : list A) :
  (forall a, In a l -> f a = [g a]) -> flat_map f l = map g l.
Proof.
  induction l as [|a l IH]; intros H; [reflexivity|].
  simpl. rewrite (H a) by (left; reflexivity).
  rewrite IH by (intros; apply H; right; assumption). reflexivity.
Qed.

(** Property X12.  tierStats of paymentAnalysis has one entry per tier of a
    payment intent of the period, with 0 <= successful <= totalAttempts;
    totalAttempts is at least the number of intents of the tier (the left
    join repeats an intent once per matching payment record) and, when
    providerPaymentId is unique among the payment records, equal to it, with
    successful the number of intents that have a succeeded record.
    processingTimes has at most 100 entries. *)
Theorem paymentAnalysis_tiers EXTRACT_EPOCH now db period :
  let r := paymentAnalysis EXTRACT_EPOCH now db period in
  let intents := intentsInRange now db period in
  let tiers := map PaymentAnalysis.row (PaymentAnalysis.tierStats r) in
  NoDup (map PaymentAnalysis.tier tiers) /\
  (forall t, In t (map PaymentAnalysis.tier tiers) <->
             exists i, In i intents /\ PaymentIntent.tier i = t) /\
  (forall row, In row tiers ->
     0 <= PaymentAnalysis.successful row <= PaymentAnalysis.totalAttempts row /\
     0 < count (intentsOfTier now db period (PaymentAnalysis.tier row))
       <= PaymentAnalysis.totalAttempts row) /\
  count intents <= reduceSum PaymentAnalysis.totalAttempts tiers /\
  (NoDup (map PaymentRecord.providerPaymentId (paymentRecords db)) ->
   reduceSum PaymentAnalysis.totalAttempts tiers = count intents /\
   forall row, In row tiers ->
     let mine := intentsOfTier now db period (PaymentAnalysis.tier row) in
     PaymentAnalysis.totalAttempts row = count mine /\
     PaymentAnalysis.successful row
     = countIf (fun i => existsb succeeded (recordsOf db i)) mine) /\
  (List.length (PaymentAnalysis.processingTimes r) <= 100)%nat.
Proof.
  intros r intents tiers. subst r tiers. unfold paymentAnalysis, paymentAnalysisOf.
  cbn [PaymentAnalysis.tierStats PaymentAnalysis.processingTimes].
  assert (E : forall l,
             map PaymentAnalysis.row
               (map (fun tier =>
                       {| PaymentAnalysis.row := tier;
                          PaymentAnalysis.successRate :=
                            percentOf (PaymentAnalysis.successful tier)
                                      (PaymentAnalysis.totalAttempts tier) |}) l) = l)
    by (intros l; rewrite map_map; apply map_id).
  rewrite E. clear E.
  set (rows := tierStatsRows now db period).
  assert (Etotal : reduceSum PaymentAnalysis.totalAttempts rows
                   = count (flat_map (fun i => map (pair i) (orNull (recordsOf db i)))
                                     intents)).
  { unfold rows, tierStatsRows. cbv zeta. rewrite reduceSum_sumZ, map_map.
    rewrite (map_ext _ (fun kg => count (snd kg))) by (intros [t g]; reflexivity).
    rewrite groupBy_count. rewrite leftJoin_orNull. fold (recordsOf db).
    unfold intents, intentsInRange. cbv zeta.
    induction (paymentIntents db) as [|i l IH]; [reflexivity|].
    cbn [flat_map filter]. rewrite filter_app.
    rewrite (filter_pair_const
               (fun i => between (startDate (getDateRange now period))
                                 (endDate (getDateRange now period))
                                 (PaymentIntent.createdAt i))).
    unfold count in *. destruct (between _ _ (PaymentIntent.createdAt i)).
    - cbn [flat_map]. rewrite !length_app, !Nat2Z.inj_add, IH. reflexivity.
    - exact IH. }
  split; [|split; [|split; [|split; [|split]]]].
  - unfold rows, tierStatsRows. cbv zeta. rewrite map_map.
    rewrite (map_ext _ fst) by (intros [t g]; reflexivity).
    rewrite groupBy_keys. apply NoDup_distinct.
  - intros t. rewrite in_map_iff. split.
    + intros [row [Et I]]. apply In_tierStatsRows_join in I as [NE _].
      apply filter_nonempty_In in NE as [i [I T]].
      apply (proj1 (eqb_eq _ _)) in T. exists i. split; [exact I | congruence].
    + intros [i [I Et]].
      eexists {| PaymentAnalysis.tier := t |}. split; [reflexivity|].
      apply In_tierStatsRows_join. cbn [PaymentAnalysis.tier
        PaymentAnalysis.totalAttempts PaymentAnalysis.successful].
      split; [|split; reflexivity].
      intros C. assert (Ii : In i (intentsOfTier now db period t))
        by (apply filter_In; split; [exact I | apply eqb_eq, Et]).
      rewrite C in Ii. destruct Ii.
  - intros row I. split; [apply (In_tierStatsRows now db period row I)|].
    apply In_tierStatsRows_join in I as [NE [E1 _]]. split.
    + unfold count. destruct (intentsOfTier _ _ _ _); [congruence | simpl; lia].
    + rewrite E1. unfold count. apply inj_le. apply length_flat_map_ge.
      intros a _. rewrite length_map. apply orNull_length.
  - rewrite Etotal. unfold count. apply inj_le. apply length_flat_map_ge.
    intros a _. rewrite length_map. apply orNull_length.
  - intros ND.
    assert (S : forall l : list PaymentIntent.t,
              flat_map (fun i => map (pair i) (orNull (recordsOf db i))) l
              = map (fun i => (i, hd_error (recordsOf db i))) l).
    { intros l. apply flat_map_single. intros i _.
      pose proof (recordsOf_unique db i ND) as L.
      destruct (recordsOf db i) as [|p [|p' ps]]; [reflexivity | reflexivity|].
      simpl in L. lia. }
    split.
    + rewrite Etotal, S. unfold count. rewrite length_map. reflexivity.
    + intros row I. cbv zeta. apply In_tierStatsRows_join in I as [_ [E1 E2]].
      rewrite S in E1, E2. split.
      * rewrite E1. unfold count. rewrite length_map. reflexivity.
      * rewrite E2. unfold countIf. rewrite filter_map_comm, length_map.
        do 2 f_equal. apply filter_ext. intros i.
        pose proof (recordsOf_unique db i ND) as L.
        destruct (recordsOf db i) as [|p [|p' ps]]; simpl; [reflexivity| |simpl in L; lia].
        rewrite orb_false_r. reflexivity.
  - apply firstn_length_le.
Qed.

Lemma Qceiling_unique (x : Q) (k : Z) :
  (inject_Z k - 1 < x)%Q -> (x <= inject_Z k)%Q -> Qceiling x = k.
Proof.
  intros H1 H2. pose proof (Qle_ceiling x) as C1. pose proof (Qceiling_lt x) as C2.
  unfold Zminus in C2. rewrite inject_Z_plus, inject_Z_opp in C2.
  change (inject_Z 1) with 1%Q in C2.
  assert (A : (Qceiling x < k + 1)%Z).
  { rewrite Zlt_Qlt, inject_Z_plus. change (inject_Z 1) with 1%Q. lra. }
  assert (B : (k < Qceiling x + 1)%Z).
  { rewrite Zlt_Qlt, inject_Z_plus. change (inject_Z 1) with 1%Q. lra. }
  lia.
Qed.

(** The ceiling of a quotient of integers below 2^53 is the integer
    ceiling. *)
Lemma ceil_div_exact (t d : Z) : 0 <= t < 2 ^ 53 -> 0 < d ->
  Math_ceil (ndiv (ofZ t) (ofZ d)) = (t + d - 1) / d.
Proof.
  intros [T0 T1] Hd. rewrite ndiv_finite by lia. cbn [Math_ceil].
  assert (Qd : (0 < inject_Z d)%Q) by (rewrite Zlt_Qlt in Hd; exact Hd).
  assert (Qt : (0 <= inject_Z t)%Q) by (rewrite Zle_Qle in T0; exact T0).
  assert (Qt1 : (inject_Z t < 9007199254740992)%Q).
  { change 9007199254740992%Q with (inject_Z (2 ^ 53)). rewrite <- Zlt_Qlt. exact T1. }
  pose proof (Z.div_mod (t + d - 1) d ltac:(lia)) as DM.
  pose proof (Z.mod_pos_bound (t + d - 1) d Hd) as MB.
  set (c := (t + d - 1) / d) in *.
  assert (C0 : 0 <= c) by (apply Z.div_pos; lia).
  assert (Ct : c <= t) by nia.
  assert (Lo : (c - 1) * d + 1 <= t) by nia.
  assert (Hi : t <= c * d) by nia.
  remember (inject_Z t / inject_Z d)%Q as y eqn:Hy.
  assert (Ey : (y * inject_Z d == inject_Z t)%Q) by (subst y; field; lra).
  assert (U : (y <= inject_Z c)%Q).
  { subst y. apply Qle_shift_div_r; [exact Qd|].
    rewrite <- inject_Z_mult, <- Zle_Qle. exact Hi. }
  assert (L : ((inject_Z c - 1) * inject_Z d + 1 <= y * inject_Z d)%Q).
  { rewrite Ey. unfold Qminus. change 1%Q with (inject_Z 1).
    rewrite <- inject_Z_opp, <- inject_Z_plus, <- inject_Z_mult, <- inject_Z_plus, <- Zle_Qle.
    lia. }
  assert (Y0 : (0 <= y)%Q) by (subst y; apply Qle_shift_div_l; [exact Qd | lra]).
  pose proof (rnd_err_bounds y Y0) as [E _]. unfold eps in E.
  apply Qceiling_unique.
  - remember (inject_Z c) as qc. remember (inject_Z d) as qd.
    remember (inject_Z t) as qt. remember (rnd y) as x.
    assert (M : ((y * (1 - (1 # 9007199254740992))) * qd <= x * qd)%Q).
    { apply Qmult_le_compat_r; lra. }
    apply Qnot_le_lt. intros C.
    assert ((x * qd <= (qc - 1) * qd)%Q).
    { apply Qmult_le_compat_r; lra. }
    lra.
  - rewrite <- (rnd_int c) by lia. apply rnd_mono, U.
Qed.

Lemma elapsedDays_value now now' period :
  now <= now' < now + msPerDay ->
  elapsedDays now now' period
  = (now - startDate (getDateRange now period)) / msPerDay
    + (if now' =? now then 0 else 1).
Proof.
  intros H. unfold elapsedDays.
  change (1000 * 60 * 60 * 24) with msPerDay.
  assert (S : exists N, 0 < N <= 365 /\
                        startDate (getDateRange now period) = now - N * msPerDay).
  { destruct period; [exists 7 | exists 30 | exists 90 | exists 365];
      unfold getDateRange, msPerDay; simpl; split; lia. }
  destruct S as [N [HN ES]]. rewrite ES. unfold msPerDay in *.
  rewrite ceil_div_exact by lia.
  replace (now - (now - N * 86400000)) with (N * 86400000) by ring.
  rewrite Z.div_mul by lia.
  destruct (Z.eqb_spec now' now) as [E|NE].
  - subst now'.
    replace (now - (now - N * 86400000) + 86400000 - 1)
      with (86400000 - 1 + N * 86400000) by ring.
    rewrite Z.div_add by lia. rewrite Z.div_small by lia. lia.
  - replace (now' - (now - N * 86400000) + 86400000 - 1)
      with ((now' - now - 1) + (N + 1) * 86400000) by ring.
    rewrite Z.div_add by lia. rewrite Z.div_small by lia. lia.
Qed.

(** Property X13.  When the second clock reading of userGrowth is the first
    one or less than a day later, the number of elapsed days is the length
    of the period, plus one if the clock advanced at all; dailySignups then
    has 7 buckets (8 if the clock advanced) for 7d and 30 for the other
    periods, bucket i carries the date of startDate + i days, and totalUsers
    is the number of users. *)
Theorem userGrowth_buckets isoDate now db now' random period :
  now <= now' < now + msPerDay ->
  let r := userGrowth isoDate now db now' random period in
  elapsedDays now now' period
  = match period with P7d => 7 | P30d => 30 | P90d => 90 | P1y => 365 end
    + (if now' =? now then 0 else 1) /\
  List.length (UserGrowth.dailySignups r)
  = match period with
    | P7d => if now' =? now then 7%nat else 8%nat
    | _ => 30%nat
    end /\
  (forall i day, nth_error (UserGrowth.dailySignups r) i = Some day ->
     UserGrowth.date day
     = isoDate (startDate (getDateRange now period) + Z.of_nat i * msPerDay)) /\
  UserGrowth.totalUsers r = count (users db).
Proof.
  intros H r. subst r.
  assert (E : elapsedDays now now' period
              = match period with P7d => 7 | P30d => 30 | P90d => 90 | P1y => 365 end
                + (if now' =? now then 0 else 1)).
  { rewrite (elapsedDays_value now now' period H). f_equal.
    destruct period; unfold getDateRange, msPerDay; simpl;
      match goal with |- ?a / _ = ?n =>
        replace a with (n * 86400000) by ring; apply Z.div_mul; lia end. }
  split; [exact E|]. unfold userGrowth.
  cbn [UserGrowth.dailySignups UserGrowth.totalUsers]. split; [|split; [|reflexivity]].
  - rewrite length_map, length_seq, E.
    destruct period, (now' =? now); reflexivity.
  - intros i day Hn. apply nth_error_map_seq in Hn as [Ed _]. subst day.
    cbn [UserGrowth.date plus]. f_equal. unfold msPerDay. ring.
Qed.

Lemma userGrowth_buckets_witness :
  let r := userGrowth (fun _ => ""%string) 0 thirtyFiveUsers 1 (fun _ => 1 # 2)%Q P7d in
  0 <= 1 < 0 + msPerDay /\ List.length (UserGrowth.dailySignups r) = 8%nat.
Proof.
  assert (H : 0 <= 1 < 0 + msPerDay) by (unfold msPerDay; lia).
  split; [exact H|].
  exact (proj1 (proj2 (userGrowth_buckets (fun _ => ""%string) 0 thirtyFiveUsers 1
                         (fun _ => 1 # 2)%Q P7d H))).
Defined.

Lemma sumZ_bounds (l : list Z) (lo hi : Z) :
  (forall z, In z l -> lo <= z <= hi) ->
  count l * lo <= sumZ l <= count l * hi.
Proof.
  unfold count. induction l as [|z l IH]; intros H; [simpl; lia|].
  assert (lo <= z <= hi) by (apply H; left; reflexivity).
  assert (Z.of_nat (List.length l) * lo <= sumZ l <= Z.of_nat (List.length l) * hi)
    by (apply IH; intros; apply H; right; assumption).
  cbn [List.length sumZ fold_right]. fold (sumZ l). rewrite Nat2Z.inj_succ. lia.
Qed.

(** Property X14.  With Math.random drawing doubles in [0, 1) and fewer than
    2^50 users, every dailySignups count is non-negative and
    newUsersInPeriod is between 0 and 1.2 times totalUsers. *)
Theorem userGrowth_newUsers_bound isoDate now db now' random period :
  (forall i, isDouble (random i) /\ (0 <= random i)%Q /\ (random i < 1)%Q) ->
  count (users db) < 2 ^ 50 ->
  let r := userGrowth isoDate now db now' random period in
  (forall day, In day (UserGrowth.dailySignups r) -> 0 <= UserGrowth.count day) /\
  0 <= UserGrowth.newUsersInPeriod r /\
  5 * UserGrowth.newUsersInPeriod r <= 6 * UserGrowth.totalUsers r.
Proof.
  intros Hr Hu r. subst r. unfold userGrowth.
  cbn [UserGrowth.dailySignups UserGrowth.newUsersInPeriod UserGrowth.totalUsers].
  rewrite avgDailySignups_quotient by lia.
  set (days := elapsedDays now now' period).
  set (base := count (users db) / Z.max days 1).
  assert (T0 : 0 <= count (users db)) by (unfold count; lia).
  assert (D1 : 0 < Z.max days 1) by lia.
  assert (Hb : 0 <= base < 2 ^ 50).
  { unfold base. split; [apply Z.div_pos; lia|].
    apply Z.le_lt_trans with (count (users db)); [|exact Hu].
    apply Z.div_le_upper_bound; nia. }
  assert (Bd : Z.max days 1 * base <= count (users db))
    by (unfold base; apply Z.mul_div_le; lia).
  set (series := map (fun i =>
                        {| UserGrowth.date :=
                             isoDate (startDate (getDateRange now period)
                                      + Z.of_nat i * 24 * 60 * 60 * 1000);
                           UserGrowth.count :=
                             Math_floor (nmul (ofZ base) (jitter (random i))) |})
                     (seq 0 (Z.to_nat (Z.min days 30)))).
  assert (B : forall day, In day series ->
                4 * base / 5 <= UserGrowth.count day <= 6 * base / 5).
  { intros day I. unfold series in I. apply in_map_iff in I as [i [E _]]. subst day.
    cbn [UserGrowth.count]. rewrite jitter_value. cbn [nmul ofZ Math_floor].
    destruct (Hr i) as [D [R0 R1]].
    apply jittered_count_bounds; [exact Hb|]. apply jitter_bounds; assumption. }
  assert (L0 : 0 <= 4 * base / 5) by (apply Z.div_pos; lia).
  assert (U6 : 5 * (6 * base / 5) <= 6 * base) by (apply Z.mul_div_le; lia).
  split; [intros day I; specialize (B day I); lia|].
  rewrite reduceSum_sumZ.
  pose proof (sumZ_bounds (map UserGrowth.count series) (4 * base / 5) (6 * base / 5)) as S.
  destruct S as [S1 S2].
  { intros z I. apply in_map_iff in I as [day [E I]]. subst z. apply B, I. }
  assert (C : 0 <= count (map UserGrowth.count series) <= Z.max days 1).
  { unfold count, series. rewrite !length_map, length_seq. lia. }
  split; nia.
Qed.

Lemma userGrowth_newUsers_bound_witness :
  let r := userGrowth (fun _ => ""%string) 0 thirtyFiveUsers 0 (fun _ => 1 # 2)%Q P7d in
  (forall i : nat, isDouble (1 # 2) /\ (0 <= 1 # 2)%Q /\ (1 # 2 < 1)%Q) /\
  count (users thirtyFiveUsers) < 2 ^ 50 /\
  5 * UserGrowth.newUsersInPeriod r <= 6 * UserGrowth.totalUsers r.
Proof.
  assert (H1 : forall i : nat, isDouble (1 # 2) /\ (0 <= 1 # 2)%Q /\ (1 # 2 < 1)%Q).
  { intros _. split; [apply Qeq_by_bool; vm_compute; reflexivity|].
    split; [discriminate | reflexivity]. }
  assert (H2 : count (users thirtyFiveUsers) < 2 ^ 50) by (vm_compute; reflexivity).
  split; [exact H1|]. split; [exact H2|].
  exact (proj2 (proj2 (userGrowth_newUsers_bound (fun _ => ""%string) 0 thirtyFiveUsers 0
                         (fun _ => 1 # 2)%Q P7d H1 H2))).
Defined.

Local Open Scope Q_scope.

Lemma rhe_near (y : Q) (K : Z) :
  inject_Z K - (1 # 2) < y -> y < inject_Z K + (1 # 2) -> roundHalfEven y = K.
Proof.
  intros H1 H2. pose proof (rhe_bounds y) as [B1 B2].
  assert (A : (roundHalfEven y < K + 1)%Z).
  { rewrite Zlt_Qlt, inject_Z_plus. change (inject_Z 1) with 1. lra. }
  assert (B : (K < roundHalfEven y + 1)%Z).
  { rewrite Zlt_Qlt, inject_Z_plus. change (inject_Z 1) with 1. lra. }
  lia.
Qed.

Lemma rndPos_scaled (x w : Q) (e K : Z) :
  0 < x -> ilog2 x = (e + 52)%Z -> w == 2 ^ e ->
  (inject_Z K - (1 # 2)) * w < x -> x < (inject_Z K + (1 # 2)) * w ->
  rndPos x == inject_Z K * w.
Proof.
  intros Hx He Ew H1 H2. unfold rndPos. rewrite He.
  replace (e + 52 - 52)%Z with e by ring.
  assert (Pw : 0 < w) by (rewrite Ew; apply pow2_pos).
  assert (R : roundHalfEven (x / 2 ^ e) = K).
  { apply rhe_near.
    - apply Qlt_shift_div_l; [apply pow2_pos|]. rewrite <- Ew. exact H1.
    - apply Qlt_shift_div_r; [apply pow2_pos|]. rewrite <- Ew. exact H2. }
  rewrite R, Ew. reflexivity.
Qed.

(** A rational just below an integer rounds to the integer. *)
Lemma rnd_below_int (k : Z) (x : Q) :
  (0 < k < 2 ^ 53)%Z ->
  inject_Z k * (1 - (1 # 36028797018963968)) <= x -> x <= inject_Z k ->
  rnd x == inject_Z k.
Proof.
  intros [K0 K1] L U.
  pose proof (Z.log2_spec k K0) as [S1 S2].
  pose proof (Z.log2_nonneg k) as A0.
  set (a := Z.log2 k) in *.
  assert (A52 : (a <= 52)%Z).
  { assert ((2 ^ a < 2 ^ 53)%Z) by lia.
    apply Z.pow_lt_mono_r_iff in H; lia. }
  assert (Q1 : 2 ^ a <= inject_Z k).
  { rewrite <- pow2_Z by exact A0. rewrite <- Zle_Qle. exact S1. }
  assert (Q2 : inject_Z k < 2 ^ (a + 1)).
  { rewrite <- pow2_Z by lia. rewrite <- Zlt_Qlt. exact S2. }
  assert (Q53 : inject_Z k < 9007199254740992).
  { change 9007199254740992 with (inject_Z (2 ^ 53)). rewrite <- Zlt_Qlt. exact K1. }
  assert (Qk1 : 1 <= inject_Z k).
  { change 1 with (inject_Z 1). rewrite <- Zle_Qle. lia. }
  pose proof (pow2_pos a) as Pa.
  pose proof (pow2_succ a) as Sa.
  assert (Hx : 0 < x) by lra.
  rewrite rnd_pos_eq by exact Hx.
  destruct (Qlt_le_dec x (2 ^ a)) as [B|A].
  - (* [k] is the power of two and [x] lies in the binade below *)
    assert (Ek : inject_Z k == 2 ^ a).
    { destruct (Z.eq_dec k (2 ^ a)) as [E|NE].
      - rewrite E. apply pow2_Z, A0.
      - exfalso. assert (G : inject_Z (2 ^ a + 1) <= inject_Z k)
          by (rewrite <- Zle_Qle; lia).
        rewrite inject_Z_plus, pow2_Z in G by exact A0.
        change (inject_Z 1) with 1 in G. lra. }
    pose proof (pow2_succ (a - 1)) as Sb.
    replace (a - 1 + 1)%Z with a in Sb by ring.
    assert (I : ilog2 x = (a - 53 + 52)%Z).
    { replace (a - 53 + 52)%Z with (a - 1)%Z by ring.
      apply ilog2_unique; [lra|]. replace (a - 1 + 1)%Z with a by ring. exact B. }
    assert (W : 2 ^ a == 9007199254740992 * 2 ^ (a - 53)).
    { replace a with (53 + (a - 53))%Z at 1 by ring. rewrite pow2_add. reflexivity. }
    pose proof (pow2_pos (a - 53)) as Pw.
    rewrite (rndPos_scaled x (2 ^ (a - 53)) (a - 53) (2 ^ 53) Hx I (Qeq_refl _)).
    + rewrite Ek, W. reflexivity.
    + change (inject_Z (2 ^ 53)) with 9007199254740992.
      remember (2 ^ (a - 53)) as w. remember (2 ^ a) as u. remember (inject_Z k) as qk.
      lra.
    + change (inject_Z (2 ^ 53)) with 9007199254740992.
      remember (2 ^ (a - 53)) as w. remember (2 ^ a) as u. remember (inject_Z k) as qk.
      lra.
  - assert (I : ilog2 x = (a - 52 + 52)%Z).
    { replace (a - 52 + 52)%Z with a by ring. apply ilog2_unique; [exact A | lra]. }
    assert (W : 2 ^ a == 4503599627370496 * 2 ^ (a - 52)).
    { replace a with (52 + (a - 52))%Z at 1 by ring. rewrite pow2_add. reflexivity. }
    assert (V : 2 ^ (52 - a) * 2 ^ (a - 52) == 1).
    { rewrite <- pow2_add. replace (52 - a + (a - 52))%Z with 0%Z by ring. reflexivity. }
    pose proof (pow2_pos (a - 52)) as Pw. pose proof (pow2_pos (52 - a)) as Ps.
    assert (EK : inject_Z (k * 2 ^ (52 - a)) == inject_Z k * 2 ^ (52 - a)).
    { rewrite inject_Z_mult, pow2_Z by lia. reflexivity. }
    rewrite (rndPos_scaled x (2 ^ (a - 52)) (a - 52) (k * 2 ^ (52 - a)) Hx I (Qeq_refl _)).
    + rewrite EK. rewrite <- Qmult_assoc, V. ring.
    + rewrite EK.
      assert (E1 : (inject_Z k * 2 ^ (52 - a) - (1 # 2)) * 2 ^ (a - 52)
                   == inject_Z k - (1 # 2) * 2 ^ (a - 52)).
      { transitivity (inject_Z k * (2 ^ (52 - a) * 2 ^ (a - 52)) - (1 # 2) * 2 ^ (a - 52));
          [ring | rewrite V; ring]. }
      rewrite E1.
      remember (2 ^ (a - 52)) as w. remember (2 ^ a) as u. remember (inject_Z k) as qk.
      lra.
    + rewrite EK.
      assert (E1 : (inject_Z k * 2 ^ (52 - a) + (1 # 2)) * 2 ^ (a - 52)
                   == inject_Z k + (1 # 2) * 2 ^ (a - 52)).
      { transitivity (inject_Z k * (2 ^ (52 - a) * 2 ^ (a - 52)) + (1 # 2) * 2 ^ (a - 52));
          [ring | rewrite V; ring]. }
      rewrite E1.
      remember (2 ^ (a - 52)) as w. remember (2 ^ a) as u. remember (inject_Z k) as qk.
      lra.
Qed.

Local Open Scope Z_scope.

(** [Math.floor(n * c)] for the double [c] of a percentage [r / 100]. *)
Lemma floor_percent (n r : Z) :
  0 <= n < 2 ^ 44 -> 0 < r < 100 ->
  let c := rnd (inject_Z r / 100) in
  (inject_Z r / 100 * (1 - (1 # 36028797018963968)) <= c)%Q ->
  (c <= inject_Z r / 100 * (1 + (1 # 9007199254740992)))%Q ->
  Math_floor (nmul (ofZ n) (ndiv (ofZ r) (ofZ 100))) = r * n / 100.
Proof.
  intros [N0 N1] [R0 R1] c C1 C2.
  rewrite ndiv_finite by lia. change (inject_Z 100) with 100%Q. fold c.
  cbn [nmul ofZ Math_floor].
  pose proof (Z.div_mod (r * n) 100 ltac:(lia)) as DM.
  pose proof (Z.mod_pos_bound (r * n) 100 ltac:(lia)) as MB.
  set (k := r * n / 100) in *. set (m := (r * n) mod 100) in *.
  assert (K0 : 0 <= k) by (apply Z.div_pos; nia).
  assert (K1 : k < 2 ^ 44) by nia.
  assert (Qn0 : (0 <= inject_Z n)%Q) by (rewrite Zle_Qle in N0; exact N0).
  assert (Qn1 : (inject_Z n < 17592186044416)%Q).
  { change 17592186044416%Q with (inject_Z (2 ^ 44)). rewrite <- Zlt_Qlt. exact N1. }
  assert (Qr0 : (0 < inject_Z r)%Q) by (rewrite Zlt_Qlt in R0; exact R0).
  assert (Qr1 : (inject_Z r < 100)%Q).
  { change 100%Q with (inject_Z 100). rewrite <- Zlt_Qlt. exact R1. }
  assert (Qk0 : (0 <= inject_Z k)%Q) by (rewrite Zle_Qle in K0; exact K0).
  assert (Qm : (0 <= inject_Z m < 100)%Q).
  { split; [rewrite Zle_Qle in MB; apply MB|].
    change 100%Q with (inject_Z 100). rewrite <- Zlt_Qlt. lia. }
  (* the exact value [e = r * n / 100 = k + m / 100] *)
  remember (inject_Z r / 100)%Q as p eqn:Ep.
  assert (Pp : (p * 100 == inject_Z r)%Q) by (subst p; field).
  assert (Ee : (inject_Z n * p * 100 == 100 * inject_Z k + inject_Z m)%Q).
  { rewrite <- Qmult_assoc, Pp. change 100%Q with (inject_Z 100).
    rewrite <- !inject_Z_mult, <- inject_Z_plus. rewrite <- DM, Z.mul_comm.
    reflexivity. }
  remember (inject_Z n * p)%Q as e eqn:Ee'.
  assert (X1 : (e * (1 - (1 # 36028797018963968)) <= inject_Z n * c)%Q).
  { subst e. rewrite <- Qmult_assoc. rewrite !(Qmult_comm (inject_Z n)).
    apply Qmult_le_compat_r; [exact C1 | exact Qn0]. }
  assert (X2 : (inject_Z n * c <= e * (1 + (1 # 9007199254740992)))%Q).
  { subst e. rewrite <- Qmult_assoc. rewrite !(Qmult_comm (inject_Z n)).
    apply Qmult_le_compat_r; [exact C2 | exact Qn0]. }
  assert (E0 : (0 <= e)%Q) by lra.
  assert (Xn : (0 <= inject_Z n * c)%Q) by lra.
  pose proof (rnd_err_bounds _ Xn) as [_ RU]. unfold eps in RU.
  assert (Qk1 : (inject_Z k <= 17592186044415)%Q).
  { change 17592186044415%Q with (inject_Z (2 ^ 44 - 1)). rewrite <- Zle_Qle. lia. }
  assert (Elt : (e < 17592186044416)%Q) by lra.
  remember (inject_Z n * c)%Q as x eqn:Ex.
  apply Qfloor_unique.
  - (* [k <= rnd x] *)
    destruct (Z.eq_dec m 0) as [M0|MN].
    + assert (Ek : (e == inject_Z k)%Q).
      { rewrite M0 in Ee. change (inject_Z 0) with 0%Q in Ee. lra. }
      destruct (Qlt_le_dec (inject_Z k) x) as [G|Le].
      * rewrite <- (rnd_int k) by lia. apply rnd_mono. lra.
      * destruct (Z.eq_dec k 0) as [Z0|NZ].
        -- subst k. rewrite Z0 in *. change (inject_Z 0) with 0%Q in *.
           assert (x == 0)%Q by lra. rewrite (rnd_comp x 0) by assumption.
           apply Qle_refl.
        -- rewrite (rnd_below_int k x); [apply Qle_refl | lia | lra | exact Le].
    + assert (M1 : (1 <= inject_Z m)%Q).
      { change 1%Q with (inject_Z 1). rewrite <- Zle_Qle. lia. }
      rewrite <- (rnd_int k) by lia. apply rnd_mono. lra.
  - (* [rnd x < k + 1] *)
    assert (M99 : (inject_Z m <= 99)%Q).
    { change 99%Q with (inject_Z 99). rewrite <- Zle_Qle. lia. }
    lra.
Qed.

Lemma toFixed2_int (n : Z) : 0 <= n < 1000 -> toFixed2 (ofZ n) = showFixed2 (n * 100).
Proof.
  intros H. unfold ofZ. rewrite toFixed2_nonneg.
  - f_equal. unfold hundredths. apply Qfloor_unique.
    + rewrite inject_Z_mult. change (inject_Z 100) with 100%Q. lra.
    + rewrite inject_Z_mult. change (inject_Z 100) with 100%Q. lra.
  - rewrite Zle_Qle in H. apply H.
  - unfold fixedLimit. rewrite <- Zlt_Qlt. lia.
Qed.

(** Property X15.  For n < 2^44 users userRetention returns exactly three
    rows, for days 1, 7 and 30, with retentionRate 85.00, 45.00 and 25.00,
    totalNewUsers n and retainedCount the integer part of 85n/100, 45n/100
    and 25n/100: the rounding of rate / 100 and of the product never moves
    Math.floor across an integer. *)
Theorem userRetention_rows (db : Db) :
  count (users db) < 2 ^ 44 ->
  let n := count (users db) in
  userRetention db
  = [ {| UserRetention.day := 1; UserRetention.retentionRate := "85.00";
         UserRetention.retainedCount := 85 * n / 100;
         UserRetention.totalNewUsers := n |};
      {| UserRetention.day := 7; UserRetention.retentionRate := "45.00";
         UserRetention.retainedCount := 45 * n / 100;
         UserRetention.totalNewUsers := n |};
      {| UserRetention.day := 30; UserRetention.retentionRate := "25.00";
         UserRetention.retainedCount := 25 * n / 100;
         UserRetention.totalNewUsers := n |} ].
Proof.
  intros H n. assert (N0 : 0 <= n) by (unfold n, count; lia).
  unfold userRetention, userRetentionOf. fold n. cbn [map Z.eqb Pos.eqb].
  rewrite !floor_percent; try (split; [exact N0 | exact H]); try lia;
    try (vm_compute; discriminate).
  reflexivity.
Qed.

Lemma userRetention_rows_witness :
  count (users thirtyFiveUsers) < 2 ^ 44 /\
  map UserRetention.retainedCount (userRetention thirtyFiveUsers) = [29; 15; 8].
Proof.
  assert (H : count (users thirtyFiveUsers) < 2 ^ 44) by (vm_compute; reflexivity).
  split; [exact H|]. rewrite (userRetention_rows thirtyFiveUsers H). reflexivity.
Defined.

Lemma apiStatsRows_total now db period :
  reduceSum SystemHealth.Api.totalRequests (apiStatsRows now db period)
  = count (requestsInRange now db period).
Proof.
  rewrite reduceSum_sumZ. unfold apiStatsRows. rewrite map_map.
  rewrite <- (groupBy_count RequestLog.action (requestsInRange now db period)).
  f_equal. apply map_ext. intros [a g]. reflexivity.
Qed.

Lemma dailyMessagesRows_total DATE HOUR now db period :
  reduceSum MessageVolume.count (dailyMessagesRows DATE HOUR now db period)
  = count (messagesInRange now db period).
Proof.
  unfold dailyMessagesRows.
  rewrite (reduceSum_perm _ _ _ (orderBy_perm _ _)), reduceSum_sumZ, map_map.
  rewrite <- (groupBy_count
                (fun m => (DATE (MessageLog.createdAt m), HOUR (MessageLog.createdAt m)))
                (messagesInRange now db period)).
  f_equal. apply map_ext. intros [[d h] g]. reflexivity.
Qed.

Lemma filter_weaken_count {A} (p q : A -> bool) (l : list A) :
  (forall a, p a = true -> q a = true) -> count (filter p l) <= count (filter q l).
Proof.
  intros H. unfold count. induction l as [|a l IH]; [simpl; lia|].
  simpl. destruct (p a) eqn:P.
  - rewrite (H a P). cbn [List.length]. lia.
  - destruct (q a); cbn [List.length]; lia.
Qed.

Lemma distinct_weaken_count {A K} `{EqDec K} (f : A -> K) (p q : A -> bool) (l : list A) :
  (forall a, p a = true -> q a = true) ->
  count (distinct (map f (filter p l))) <= count (distinct (map f (filter q l))).
Proof.
  intros Hpq. apply NoDup_count_le; [apply NoDup_distinct|].
  intros k I. apply In_distinct. apply In_distinct, in_map_iff in I as [a [E I]].
  subst k. apply in_map. apply filter_In in I as [I P]. apply filter_In. auto.
Qed.

Lemma between_wider (s s' e t : Z) :
  s' <= s -> between s e t = true -> between s' e t = true.
Proof. unfold between. rewrite !andb_true_iff, !Z.leb_le. lia. Qed.

(** Property X16.  For the same clock reading a period that starts earlier
    never counts less: totalRequests of systemHealth, totalMessages of
    messageVolume and the firstMessage, paymentIntent and completedPayment
    stages of conversionFunnel are monotone in the start date of the period. *)
Theorem longer_period_counts_more DATE HOUR now db (p q : Period) :
  startDate (getDateRange now q) <= startDate (getDateRange now p) ->
  SystemHealth.totalRequests (systemHealth now db p)
    <= SystemHealth.totalRequests (systemHealth now db q) /\
  MessageVolume.totalMessages (messageVolume DATE HOUR now db p)
    <= MessageVolume.totalMessages (messageVolume DATE HOUR now db q) /\
  ConversionFunnel.firstMessage (conversionFunnel now db p)
    <= ConversionFunnel.firstMessage (conversionFunnel now db q) /\
  ConversionFunnel.paymentIntent (conversionFunnel now db p)
    <= ConversionFunnel.paymentIntent (conversionFunnel now db q) /\
  ConversionFunnel.completedPayment (conversionFunnel now db p)
    <= ConversionFunnel.completedPayment (conversionFunnel now db q).
Proof.
  intros H.
  assert (E : endDate (getDateRange now p) = endDate (getDateRange now q))
    by (destruct p, q; reflexivity).
  assert (W : forall t,
            between (startDate (getDateRange now p)) (endDate (getDateRange now p)) t = true ->
            between (startDate (getDateRange now q)) (endDate (getDateRange now q)) t = true).
  { intros t. rewrite E. apply between_wider, H. }
  split; [|split; [|split; [|split]]].
  - unfold systemHealth, systemHealthOf. cbn [SystemHealth.totalRequests].
    rewrite !apiStatsRows_total. unfold requestsInRange. cbv zeta.
    apply filter_weaken_count. intros a. apply W.
  - unfold messageVolume, messageVolumeOf. cbn [MessageVolume.totalMessages].
    rewrite !dailyMessagesRows_total. unfold messagesInRange. cbv zeta.
    apply filter_weaken_count. intros a. apply W.
  - unfold conversionFunnel, conversionFunnelOf. cbn [ConversionFunnel.firstMessage].
    apply distinct_weaken_count. intros a. apply W.
  - unfold conversionFunnel, conversionFunnelOf. cbn [ConversionFunnel.paymentIntent].
    apply distinct_weaken_count. intros a. apply W.
  - unfold conversionFunnel, conversionFunnelOf. cbn [ConversionFunnel.completedPayment].
    unfold succeededInRange. cbv zeta.
    apply distinct_weaken_count. intros a. rewrite !andb_true_iff.
    intros [B S]. split; [apply W, B | exact S].
Qed.

Lemma longer_period_counts_more_witness :
  startDate (getDateRange 0 P30d) <= startDate (getDateRange 0 P7d) /\
  SystemHealth.totalRequests (systemHealth 0 chatLogs P7d)
    <= SystemHealth.totalRequests (systemHealth 0 chatLogs P30d).
Proof.
  assert (H : startDate (getDateRange 0 P30d) <= startDate (getDateRange 0 P7d))
    by (simpl; lia).
  split; [exact H|].
  exact (proj1 (longer_period_counts_more (fun t => t / msPerDay)
                  (fun t => (t / 3600000) mod 24) 0 chatLogs P7d P30d H)).
Defined.

(** The keys of the groups of userSegmentation. *)
Lemma In_segmentKeys (db : Db) (wf : wellFormed db)
    (k : string * option string * string * option Z * option Z) :
  In k (distinct (map segmentKey (segmentJoin db))) <->
  exists u c p, In u (users db) /\ orNull (creditsOf db u) = [c] /\
                In p (orNull (paymentsOf db u)) /\
                k = (User.id u, User.name u, User.email u,
                     option_map UserCredit.balance c, option_map PaymentRecord.id p).
Proof.
  rewrite In_distinct, in_map_iff. split.
  - intros [r [E I]]. rewrite segmentJoin_rows in I.
    apply in_flat_map in I as [u [Iu I]].
    apply In_rowsOf in I as [c [m [p [Er [Ic [Im Ip]]]]]]. subst r.
    destruct (credits_single db wf u) as [c0 Ec]. rewrite Ec in Ic.
    destruct Ic as [->|[]]. exists u, c, p. repeat split; auto.
  - intros [u [c [p [Iu [Ec [Ip E]]]]]].
    destruct (orNull_nonempty (messagesOf db u)) as [m Im].
    exists (((u, c), m), p). split; [symmetry; exact E|].
    rewrite segmentJoin_rows. apply in_flat_map. exists u. split; [exact Iu|].
    apply In_rowsOf. exists c, m, p. rewrite Ec. simpl. auto.
Qed.

Lemma userSegments_filter (db : Db) (q : bool -> bool) :
  List.length (filter (fun user => q (UserSegmentation.hasPaid user)) (userSegments db))
  = List.length (filter (fun k => q (isSome (snd k)))
                        (distinct (map segmentKey (segmentJoin db)))).
Proof.
  unfold userSegments, groupBy.
  rewrite filter_map_comm, length_map, filter_map_comm, length_map.
  f_equal. apply filter_ext. intros [[[[id name] email] balance] pid]. reflexivity.
Qed.

Lemma NoDup_same_length {A} (l l' : list A) :
  NoDup l -> NoDup l' -> (forall a, In a l <-> In a l') -> List.length l = List.length l'.
Proof.
  intros N N' H. apply Permutation_length, NoDup_Permutation; assumption.
Qed.

Lemma NoDup_map_on {A B} (f : A -> B) (l : list A) :
  NoDup l -> (forall a b, In a l -> In b l -> f a = f b -> a = b) -> NoDup (map f l).
Proof.
  induction l as [|a l IH]; intros N Inj; simpl; [constructor|].
  inversion N as [|? ? NI N']; subst. constructor.
  - intros C. apply in_map_iff in C as [b [E Ib]].
    apply NI. rewrite (Inj a b); [exact Ib | left; reflexivity | right; exact Ib | congruence].
  - apply IH; [exact N'|]. intros x y Ix Iy. apply Inj; right; assumption.
Qed.

(** Property X17.  Under the primary keys of schema.ts and the foreign key
    paymentRecords.userId -> users.id, paidUsers of userSegmentation is the
    number of payment records of any status (a user with two records counts
    twice), freeUsers is the number of users without a payment record, and
    the two add up to at least the number of users. *)
Theorem userSegmentation_paid_and_free (db : Db) :
  wellFormed db ->
  (forall p, In p (paymentRecords db) ->
             In (PaymentRecord.userId p) (map User.id (users db))) ->
  let r := userSegmentation db in
  UserSegmentation.paidUsers r = count (paymentRecords db) /\
  UserSegmentation.freeUsers r = count (withoutPayments db) /\
  count (users db) <= UserSegmentation.freeUsers r + UserSegmentation.paidUsers r.
Proof.
  intros wf fk r. subst r. unfold userSegmentation, userSegmentationOf.
  cbn [UserSegmentation.paidUsers UserSegmentation.freeUsers
       UserSegmentation.heavyUsers UserSegmentation.lightUsers].
  set (keys := distinct (map segmentKey (segmentJoin db))).
  assert (NK : NoDup keys) by apply NoDup_distinct.
  assert (same_user : forall u u', In u (users db) -> In u' (users db) ->
                                   User.id u = User.id u' -> u = u').
  { intros u u' I I' E.
    apply (NoDup_map_inj User.id (users db)); [apply (users_pk db wf) | | |]; assumption. }
  assert (Paid : count (paidUsers (userSegments db)) = count (paymentRecords db)).
  { unfold count, paidUsers. f_equal.
    rewrite (userSegments_filter db (fun b => b)). fold keys.
    rewrite <- (length_map (fun k => snd k) (filter _ keys)).
    rewrite <- (length_map (fun p => Some (PaymentRecord.id p)) (paymentRecords db)).
    apply NoDup_same_length.
    - apply NoDup_map_on; [apply NoDup_filter, NK|].
      intros a b Ia Ib E.
      apply filter_In in Ia as [Ia Sa]. apply filter_In in Ib as [Ib Sb].
      apply (In_segmentKeys db wf) in Ia as [u [c [p [Iu [Ec [Ip Ea]]]]]].
      apply (In_segmentKeys db wf) in Ib as [u' [c' [p' [Iu' [Ec' [Ip' Eb]]]]]].
      subst a b. cbn [snd] in *.
      destruct p as [p|]; [|discriminate]. destruct p' as [p'|]; [|discriminate].
      apply (proj1 (In_orNull_Some _ _)) in Ip. apply (proj1 (In_orNull_Some _ _)) in Ip'.
      apply filter_In in Ip as [Ip Up]. apply filter_In in Ip' as [Ip' Up'].
      apply (proj1 (eqb_eq _ _)) in Up, Up'.
      cbn [option_map] in E. injection E as E.
      assert (p = p').
      { apply (NoDup_map_inj PaymentRecord.id (paymentRecords db));
          [apply (paymentRecords_pk db wf) | | |]; assumption. }
      subst p'.
      assert (u = u') by (apply same_user; [assumption | assumption | congruence]).
      subst u'. rewrite Ec in Ec'. injection Ec' as ->. reflexivity.
    - rewrite <- (map_map PaymentRecord.id Some). apply NoDup_map_on.
      + apply (paymentRecords_pk db wf).
      + intros x y _ _ E. congruence.
    - intros o. rewrite !in_map_iff. split.
      + intros [k [E Ik]]. apply filter_In in Ik as [Ik Sk].
        apply (In_segmentKeys db wf) in Ik as [u [c [p [Iu [Ec [Ip Ek]]]]]].
        subst k o. cbn [snd] in *. destruct p as [p|]; [|discriminate].
        apply (proj1 (In_orNull_Some _ _)) in Ip. apply filter_In in Ip as [Ip _].
        exists p. split; [reflexivity | exact Ip].
      + intros [p [E Ip]]. subst o.
        destruct (proj1 (in_map_iff _ _ _) (fk p Ip)) as [u [Eu Iu]].
        destruct (credits_single db wf u) as [c Ec].
        exists (User.id u, User.name u, User.email u,
                option_map UserCredit.balance c, Some (PaymentRecord.id p)).
        split; [reflexivity|]. apply filter_In. split; [|reflexivity].
        apply (In_segmentKeys db wf). exists u, c, (Some p).
        repeat split; auto. apply (proj2 (In_orNull_Some _ _)). apply filter_In.
        split; [exact Ip|]. apply (proj2 (eqb_eq _ _)). exact Eu. }
  assert (Free : count (freeUsers (userSegments db)) = count (withoutPayments db)).
  { unfold count, freeUsers. f_equal.
    rewrite (userSegments_filter db negb). fold keys.
    rewrite <- (length_map (fun k => fst (fst (fst (fst k)))) (filter _ keys)).
    rewrite <- (length_map User.id (withoutPayments db)).
    apply NoDup_same_length.
    - apply NoDup_map_on; [apply NoDup_filter, NK|].
      intros a b Ia Ib E.
      apply filter_In in Ia as [Ia Sa]. apply filter_In in Ib as [Ib Sb].
      apply (In_segmentKeys db wf) in Ia as [u [c [p [Iu [Ec [Ip Ea]]]]]].
      apply (In_segmentKeys db wf) in Ib as [u' [c' [p' [Iu' [Ec' [Ip' Eb]]]]]].
      subst a b. cbn [fst snd] in *.
      destruct p as [p|]; [discriminate|]. destruct p' as [p'|]; [discriminate|].
      assert (u = u') by (apply same_user; assumption).
      subst u'. rewrite Ec in Ec'. injection Ec' as ->. reflexivity.
    - apply NoDup_map_filter, (users_pk db wf).
    - intros i. rewrite !in_map_iff. split.
      + intros [k [E Ik]]. apply filter_In in Ik as [Ik Sk].
        apply (In_segmentKeys db wf) in Ik as [u [c [p [Iu [Ec [Ip Ek]]]]]].
        subst k i. cbn [fst snd] in *. destruct p as [p|]; [discriminate|].
        apply (proj1 (In_orNull_None _)) in Ip.
        exists u. split; [reflexivity|]. apply filter_In. split; [exact Iu|].
        rewrite Ip. reflexivity.
      + intros [u [E Iu]]. subst i. apply filter_In in Iu as [Iu Np].
        destruct (paymentsOf db u) as [|p ps] eqn:Ep; [|discriminate].
        destruct (credits_single db wf u) as [c Ec].
        exists (User.id u, User.name u, User.email u,
                option_map UserCredit.balance c, @None Z).
        split; [reflexivity|]. apply filter_In. split; [|reflexivity].
        apply (In_segmentKeys db wf). exists u, c, (@None PaymentRecord.t).
        repeat split; auto. rewrite Ep. simpl. auto. }
  split; [exact Paid|]. split; [exact Free|].
  rewrite Paid, Free.
    (* every user has no payment record or at least one *)
    assert (G : count (users db) - count (withoutPayments db) <= count (paymentRecords db)).
    { unfold withoutPayments.
      pose proof (filter_partition_length
                    (fun u => match paymentsOf db u with [] => true | _ :: _ => false end)
                    (users db)) as P.
      set (paying := filter (fun u => negb match paymentsOf db u with
                                           | [] => true | _ :: _ => false end) (users db)) in *.
      assert (L : (List.length paying <= List.length (paymentRecords db))%nat).
      { assert (NP : NoDup (map User.id paying)) by apply NoDup_map_filter, (users_pk db wf).
        assert (Inc : incl (map User.id paying)
                           (map PaymentRecord.userId (paymentRecords db))).
        { intros i Hi. apply in_map_iff in Hi as [u [E Iu]]. subst i.
          apply filter_In in Iu as [Iu Np].
          destruct (paymentsOf db u) as [|p ps] eqn:Ep; [discriminate|].
          assert (Ip : In p (paymentsOf db u)) by (rewrite Ep; left; reflexivity).
          apply filter_In in Ip as [Ip Up]. apply (proj1 (eqb_eq _ _)) in Up.
          apply in_map_iff. exists p. auto. }
        pose proof (NoDup_incl_length NP Inc) as L'. rewrite !length_map in L'. exact L'. }
      unfold count. lia. }
    lia.
Qed.

Lemma userSegmentation_paid_and_free_witness :
  UserSegmentation.paidUsers (userSegmentation repeatBuyer) = 2 /\
  UserSegmentation.freeUsers (userSegmentation repeatBuyer) = 1 /\
  count (users repeatBuyer) = 2 /\
  UserSegmentation.paidUsers (userSegmentation repeatBuyer)
  = count (paymentRecords repeatBuyer).
Proof.
  split; [vm_compute; reflexivity|]. split; [vm_compute; reflexivity|].
  split; [reflexivity|].
  refine (proj1 (userSegmentation_paid_and_free repeatBuyer _ _)).
  - split; simpl; repeat constructor; simpl; intuition discriminate.
  - intros p Ip. simpl in Ip. simpl.
    repeat (destruct Ip as [<-|Ip]; [simpl; tauto|]). contradiction.
Defined.

(* ================================================================== *)
(** * The dashboard *)
(* ================================================================== *)

(** A decimal digit is no white space, sign, point or letter. *)
Lemma digit_char (c : ascii) (d : option Decimal.uint) (u : Decimal.uint) :
  uint_of_char c d = Some u ->
  isDigit c = true /\ (nat_of_ascii c <? 128)%nat = true /\
  ((9 <=? nat_of_ascii c) && (nat_of_ascii c <=? 13) || (nat_of_ascii c =? 32))%nat = false /\
  Ascii.eqb c "+" = false /\ Ascii.eqb c "I" = false.
Proof.
  destruct d as [d|]; [|discriminate]. intros H.
  apply uint_of_char_spec in H.
  destruct H as [[E _]|[[E _]|[[E _]|[[E _]|[[E _]|[[E _]|[[E _]|[[E _]|[[E _]|[E _]]]]]]]]]];
    subst c; repeat split; reflexivity.
Qed.

Lemma spanDigits_digits (s t : string) (c : ascii) (u : Decimal.uint) :
  NilEmpty.uint_of_string s = Some u -> isDigit c = false ->
  spanDigits (s ++ String c t) = (s, String c t).
Proof.
  intros H Hc. revert u H. induction s as [|a s IH]; intros u H.
  - cbn [String.append spanDigits]. rewrite Hc. reflexivity.
  - simpl in H. destruct (digit_char a _ u H) as [D _].
    cbn [String.append spanDigits]. rewrite D.
    destruct (NilEmpty.uint_of_string s) as [u'|] eqn:E; [|discriminate].
    rewrite (IH u' eq_refl). reflexivity.
Qed.

Lemma twoDigits_span (k : Z) : 0 <= k < 100 ->
  spanDigits (twoDigits k) = (twoDigits k, ""%string) /\
  digitsValue (twoDigits k) = k /\ exists c c', twoDigits k = String c (String c' "").
Proof.
  intros Hk.
  assert (T : forallb (fun i => let k := Z.of_nat i in
                         match spanDigits (twoDigits k), twoDigits k with
                         | (d, EmptyString), String _ (String _ EmptyString) =>
                             String.eqb d (twoDigits k) && (digitsValue (twoDigits k) =? k)
                         | _, _ => false
                         end) (seq 0 100) = true) by (vm_compute; reflexivity).
  rewrite forallb_forall in T. specialize (T (Z.to_nat k)).
  rewrite Z2Nat.id in T by lia. cbv zeta in T.
  assert (I : In (Z.to_nat k) (seq 0 100)) by (apply in_seq; lia).
  specialize (T I).
  destruct (spanDigits (twoDigits k)) as [d r].
  destruct r; [|discriminate].
  destruct (twoDigits k) as [|c [|c' [|c'' rest]]]; try discriminate.
  apply andb_true_iff in T as [T1 T2].
  apply String.eqb_eq in T1. apply Z.eqb_eq in T2. subst d. eauto 6.
Qed.

Lemma trimStart_digit (c : ascii) (s : string) (d : option Decimal.uint)
    (u : Decimal.uint) :
  uint_of_char c d = Some u -> trimStart (String c s) = String c s.
Proof.
  intros H. destruct (digit_char c d u H) as [_ [A [W _]]].
  unfold trimStart. cbn [String.length trimStartFuel dropWhiteSpace].
  cbv zeta. rewrite W, A. reflexivity.
Qed.

(** [parseFloat] reads a number in fixed notation with two decimals to the
    double nearest to it. *)
Lemma parseFloat_showFixed2 (n : Z) : 0 <= n ->
  exists q, parseFloat (showFixed2 n) = Fin q /\ (q == rnd (inject_Z n / 100))%Q.
Proof.
  intros Hn. unfold showFixed2.
  pose proof (Z.mod_pos_bound n 100 ltac:(lia)) as Hm.
  change (showN (n / 100) ++ "." ++ showN (n mod 100 / 10) ++ showN ((n mod 100) mod 10))%string
    with (showN (n / 100) ++ String "."%char (twoDigits (n mod 100)))%string.
  destruct (showN_parse (n / 100)) as [u [E [_ NE]]].
  destruct (twoDigits_span (n mod 100) Hm) as [Sp [Dv [c1 [c2 Ef]]]].
  pose proof (readN_showN (n / 100) ltac:(apply Z.div_pos; lia)) as Ri.
  pose proof (spanDigits_digits (showN (n / 100)) (twoDigits (n mod 100)) "."%char u E
                eq_refl) as SpI.
  destruct (showN (n / 100)) as [|c rest] eqn:Es; [congruence|].
  simpl in E. destruct (digit_char c _ u E) as [_ [_ [_ [Hp HI]]]].
  pose proof (digit_not_minus c _ u E) as Hmi.
  unfold parseFloat. cbn [String.append] in *.
  rewrite (trimStart_digit c _ _ u E). rewrite Hmi, Hp. cbn [fst snd].
  unfold strUnsignedDecimalLiteral.
  assert (Pf : String.prefix "Infinity" (String c (rest ++ String "." (twoDigits (n mod 100))))
               = false).
  { cbn [String.prefix]. destruct (ascii_dec "I" c) as [C|C]; [|reflexivity].
    subst c. discriminate. }
  rewrite Pf, SpI, Sp. rewrite Ef in Dv |- *. cbv iota.
  eexists. split; [reflexivity|].
  apply rnd_comp. unfold digitsValue at 1. rewrite Ri. rewrite Dv.
  cbn [String.length]. change (exponentPart "") with 0. change (10 ^ 0)%Q with 1%Q.
  change (inject_Z (10 ^ Z.of_nat 2)) with 100%Q.
  rewrite (Z.div_mod n 100) at 3 by lia.
  rewrite inject_Z_plus, inject_Z_mult. change (inject_Z 100) with 100%Q. field.
Qed.

Lemma parseFloat_percentOf (c T : Z) : 0 <= c <= T -> 0 < T ->
  isRate (parseFloat (percentOf c T)).
Proof.
  intros Hc HT. destruct (percentOf_range c T Hc HT) as [n [E [_ [[N0 N1] _]]]].
  rewrite E. destruct (parseFloat_showFixed2 n N0) as [q [Eq Vq]].
  exists q. split; [exact Eq|]. rewrite Vq.
  assert (Q0 : (0 <= inject_Z n)%Q) by (rewrite Zle_Qle in N0; exact N0).
  assert (Q1 : (inject_Z n <= 10000)%Q).
  { change 10000%Q with (inject_Z 10000). rewrite <- Zle_Qle. exact N1. }
  remember (inject_Z n / 100)%Q as y eqn:Ey.
  assert (Y : (y * 100 == inject_Z n)%Q) by (subst y; field).
  split.
  - apply rnd_nonneg. lra.
  - apply Qle_trans with (rnd (inject_Z 100)).
    + apply rnd_mono. change (inject_Z 100) with 100%Q. lra.
    + rewrite rnd_int by (simpl; lia). apply Qle_refl.
Qed.

Lemma count_filter {A} (p : A -> bool) (l : list A) : count (filter p l) = countIf p l.
Proof. reflexivity. Qed.

Lemma health_class (x : number) : isRate x ->
  (if nge x (ofZ 99) then 1 else 0)
  + (if nge x (ofZ 95) && nlt x (ofZ 99) then 1 else 0)
  + (if nlt x (ofZ 95) then 1 else 0) = 1.
Proof.
  intros [q [E _]]. subst x. unfold nge, nle, nlt, ofZ.
  rewrite !negb_involutive.
  change (inject_Z 99) with 99%Q. change (inject_Z 95) with 95%Q.
  destruct (Qle_bool 99 q) eqn:A; destruct (Qle_bool 95 q) eqn:B;
    try reflexivity.
  apply Qle_bool_iff in A.
  assert (C : ~ (95 <= q)%Q) by (intros C; apply Qle_bool_iff in C; congruence).
  exfalso. apply C. lra.
Qed.

Lemma fold_nadd_rates {A} (v : A -> number) (l : list A) (k : Z) (a0 : Q) :
  (forall a, In a l -> isRate (v a)) ->
  0 <= k -> k + count l <= 2 ^ 46 -> (0 <= a0 <= 100 * inject_Z k)%Q ->
  exists s, fold_left (fun acc a => nadd acc (v a)) l (Fin a0) = Fin s /\
            (0 <= s <= 100 * inject_Z (k + count l))%Q.
Proof.
  unfold count. revert k a0. induction l as [|a l IH]; intros k a0 Hv K0 Kl Ha.
  - exists a0. split; [reflexivity|]. simpl List.length. rewrite Z.add_0_r. exact Ha.
  - cbn [List.length] in *. rewrite Nat2Z.inj_succ in *.
    destruct (Hv a (or_introl eq_refl)) as [q [Eq Hq]].
    cbn [fold_left]. rewrite Eq. cbn [nadd].
    destruct (IH (k + 1) (rnd (a0 + q))) as [s [Es Hs]].
    + intros b I. apply Hv. right. exact I.
    + lia.
    + lia.
    + split; [apply rnd_nonneg; lra|].
      apply Qle_trans with (rnd (inject_Z (100 * (k + 1)))).
      * apply rnd_mono. rewrite inject_Z_mult, inject_Z_plus.
        change (inject_Z 100) with 100%Q. change (inject_Z 1) with 1%Q. lra.
      * rewrite rnd_int by (change (2 ^ 53) with (128 * 2 ^ 46); lia).
        rewrite inject_Z_mult. change (inject_Z 100) with 100%Q. apply Qle_refl.
    + exists s. split; [exact Es|].
      replace (k + Z.succ (Z.of_nat (List.length l)))
        with (k + 1 + Z.of_nat (List.length l)) by lia. exact Hs.
Qed.

(** Property X18.  In the system health panel, for at most 2^46 per-action
    entries, every successRate parses to a finite number between 0 and 100,
    the counts of healthy (>= 99), warning (>= 95 and < 99) and critical (<
    95) endpoints add up to the number of entries, the overall success rate
    is between 0 and 100, and with no entries it is 0, which getHealthStatus
    classifies as error. *)
Theorem endpoint_health_classes (now : Z) (db : Db) (period : Period) :
  let h := Some (systemHealth now db period) in
  let stats := SystemHealth.apiStats (systemHealth now db period) in
  count stats <= 2 ^ 46 ->
  (forall stat, In stat stats -> isRate (parseFloat (SystemHealth.successRate stat))) /\
  healthyEndpoints h + warningEndpoints h + criticalEndpoints h = count stats /\
  isRate (overallSuccessRate h) /\
  (stats = [] -> getHealthStatus (overallSuccessRate h) = "error"%string).
Proof.
  intros h stats Hn. subst h.
  assert (R : forall stat, In stat stats ->
                isRate (parseFloat (SystemHealth.successRate stat))).
  { intros stat I. unfold stats, systemHealth, systemHealthOf in I.
    cbn [SystemHealth.apiStats] in I. apply in_map_iff in I as [row [E I]].
    subst stat. cbn [SystemHealth.successRate].
    destruct (In_apiStatsRows now db period row I) as [E1 [E2 P]].
    apply parseFloat_percentOf; [|exact P]. rewrite E1, E2. apply countIf_le. }
  split; [exact R|]. split; [|split].
  - unfold healthyEndpoints, warningEndpoints, criticalEndpoints. cbv beta iota.
    fold stats.
    rewrite !count_filter, !countIf_sumZ, <- !sumZ_map_add, (count_sumZ stats).
    f_equal. apply map_ext_in. intros stat I. apply health_class, R, I.
  - unfold overallSuccessRate. cbv beta iota. fold stats.
    destruct (Z.gtb_spec (count stats) 0) as [P|Z0].
    + destruct (fold_nadd_rates (fun stat => parseFloat (SystemHealth.successRate stat))
                  stats 0 0 R ltac:(lia) ltac:(lia)) as [s [Es Hs]].
      { change (inject_Z 0) with 0%Q. lra. }
      unfold ofZ at 1. change (inject_Z 0) with 0%Q. rewrite Es.
      unfold ofZ, ndiv.
      assert (Qn : (0 < inject_Z (count stats))%Q) by (rewrite Zlt_Qlt in P; exact P).
      assert (NZ : Qzero (inject_Z (count stats)) = false).
      { unfold Qzero. destruct (Qeq_bool _ 0) eqn:C; [|reflexivity].
        apply Qeq_bool_eq in C. lra. }
      rewrite NZ. eexists. split; [reflexivity|].
      rewrite Z.add_0_l in Hs.
      remember (s / inject_Z (count stats))%Q as y eqn:Ey.
      assert (Y : (y * inject_Z (count stats) == s)%Q) by (subst y; field; lra).
      assert (Y0 : (0 <= y)%Q) by (subst y; apply Qle_shift_div_l; [exact Qn | lra]).
      assert (Y1 : (y <= 100)%Q) by (subst y; apply Qle_shift_div_r; [exact Qn | lra]).
      split; [apply rnd_nonneg, Y0|].
      apply Qle_trans with (rnd (inject_Z 100)).
      * apply rnd_mono. exact Y1.
      * rewrite rnd_int by (simpl; lia). apply Qle_refl.
    + exists 0%Q. split; [reflexivity | lra].
  - intros E. unfold stats in E. unfold overallSuccessRate. rewrite E. reflexivity.
Qed.

Lemma endpoint_health_classes_witness :
  let h := Some (systemHealth 0 chatLogs P7d) in
  count (SystemHealth.apiStats (systemHealth 0 chatLogs P7d)) <= 2 ^ 46 /\
  healthyEndpoints h = 0 /\ warningEndpoints h = 1 /\ criticalEndpoints h = 0 /\
  isRate (overallSuccessRate h).
Proof.
  assert (H : count (SystemHealth.apiStats (systemHealth 0 chatLogs P7d)) <= 2 ^ 46)
    by (vm_compute; discriminate).
  split; [exact H|].
  destruct (endpoint_health_classes 0 chatLogs P7d H) as [_ [_ [R _]]].
  repeat split; try (vm_compute; reflexivity). exact R.
Defined.

(** ** The rows of dailyMessages *)

Lemma dailyMessagesRows_keys DATE HOUR now db period :
  NoDup (map (fun a => (MessageVolume.date a, MessageVolume.hour a))
             (dailyMessagesRows DATE HOUR now db period)).
Proof.
  unfold dailyMessagesRows.
  apply (NoDup_map_perm _ _ _ (Permutation_sym (orderBy_perm _ _))). rewrite map_map.
  rewrite (map_ext _ fst) by (intros [[d h] g]; reflexivity).
  rewrite groupBy_keys. apply NoDup_distinct.
Qed.

Lemma dailyMessagesRows_sorted DATE HOUR now db period :
  StronglySorted
    (fun a b => MessageVolume.date a < MessageVolume.date b \/
                (MessageVolume.date a = MessageVolume.date b /\
                 MessageVolume.hour a < MessageVolume.hour b))
    (dailyMessagesRows DATE HOUR now db period).
Proof.
  pose proof (dailyMessagesRows_keys DATE HOUR now db period) as N2.
  unfold dailyMessagesRows in *.
  set (le2 := fun a b =>
                (MessageVolume.date a <? MessageVolume.date b)
                || ((MessageVolume.date a =? MessageVolume.date b)
                    && (MessageVolume.hour a <=? MessageVolume.hour b))) in *.
  apply (StronglySorted_strict
           (fun a => (MessageVolume.date a, MessageVolume.hour a))
           (fun a b => le2 a b = true)); [|exact N2|].
  - intros a b L NE. unfold le2 in L.
    apply orb_true_iff in L as [L|L]; [left; apply Z.ltb_lt, L|].
    apply andb_true_iff in L as [L1 L2]. apply Z.eqb_eq in L1. apply Z.leb_le in L2.
    right. split; [exact L1|].
    destruct (Z.eq_dec (MessageVolume.hour a) (MessageVolume.hour b)) as [E|NE'];
      [|lia]. exfalso. apply NE. congruence.
  - apply orderBy_StronglySorted.
    + intros a b. unfold le2.
      rewrite !orb_true_iff, !andb_true_iff, !Z.ltb_lt, !Z.eqb_eq, !Z.leb_le. lia.
    + intros a b c. unfold le2.
      rewrite !orb_true_iff, !andb_true_iff, !Z.ltb_lt, !Z.eqb_eq, !Z.leb_le. lia.
Qed.

(** The rows of a day hold the messages of the day. *)
Lemma dailyMessagesRows_on DATE HOUR now db period (d : Z) :
  rowsOn d (dailyMessagesRows DATE HOUR now db period)
  = count (messagesOnDate DATE now db period d).
Proof.
  unfold rowsOn, dailyMessagesRows, messagesOnDate.
  set (M := messagesInRange now db period).
  set (key2 := fun m => (DATE (MessageLog.createdAt m), HOUR (MessageLog.createdAt m))).
  rewrite (sumZ_perm _ _ (Permutation_map _ (filter_perm _ _ _ (orderBy_perm _ _)))).
  rewrite sumZ_filter_map. unfold groupBy. rewrite !map_map.
  rewrite count_filter, countIf_sumZ.
  rewrite <- (sumZ_by_key key2 (fun a => if eqb (DATE (MessageLog.createdAt a)) d
                                        then 1 else 0)
                (distinct (map key2 M)) M (NoDup_distinct _)).
  2:{ intros a Ia. apply In_distinct. apply (in_map key2), Ia. }
  f_equal. apply map_ext. intros [d' h]. simpl.
  rewrite <- countIf_sumZ. unfold countIf. rewrite filter_filter.
  destruct (Z.eqb_spec d' d) as [E|NE].
  - subst d'. unfold count. do 2 f_equal. apply filter_ext. intros a.
    destruct (eqb (key2 a) (d, h)) eqn:K; [|reflexivity]. simpl.
    apply (proj1 (eqb_eq _ _)) in K. unfold key2 in K. injection K as K1 K2.
    symmetry. apply (proj2 (eqb_eq _ _)). exact K1.
  - rewrite filter_none; [reflexivity|]. intros a _.
    destruct (eqb (key2 a) (d', h)) eqn:K; [|reflexivity]. simpl.
    apply (proj1 (eqb_eq _ _)) in K. unfold key2 in K. injection K as K1 K2.
    apply (proj2 (eqb_neq _ _)). congruence.
Qed.

(** ** The reduction of dailyMessageData *)

Lemma sumZ_cons (z : Z) (l : list Z) : sumZ (z :: l) = z + sumZ l.
Proof. reflexivity. Qed.

Lemma addMessages_on (acc : list DailyMessageData.t) (curr : MessageVolume.Daily) (d : Z) :
  entriesOn d (addMessages acc curr)
  = entriesOn d acc
    + (if MessageVolume.date curr =? d then MessageVolume.count curr else 0).
Proof.
  unfold entriesOn. induction acc as [|item rest IH].
  - cbn [addMessages filter DailyMessageData.date].
    destruct (MessageVolume.date curr =? d);
      cbn [map sumZ fold_right DailyMessageData.count]; lia.
  - cbn [addMessages].
    destruct (Z.eqb_spec (DailyMessageData.date item) (MessageVolume.date curr)) as [E|NE].
    + cbn [filter DailyMessageData.date]. rewrite <- E.
      destruct (DailyMessageData.date item =? d); cbn [map sumZ fold_right DailyMessageData.count];
        lia.
    + cbn [filter]. destruct (DailyMessageData.date item =? d) eqn:Ed.
      * rewrite !map_cons, !sumZ_cons, IH. lia.
      * exact IH.
Qed.

Lemma addMessages_dates (acc : list DailyMessageData.t) (curr : MessageVolume.Daily) :
  map DailyMessageData.date (addMessages acc curr)
  = map DailyMessageData.date acc
    ++ (if existsb (fun item => DailyMessageData.date item =? MessageVolume.date curr) acc
        then [] else [MessageVolume.date curr]).
Proof.
  induction acc as [|item rest IH]; [reflexivity|].
  cbn [addMessages existsb].
  destruct (DailyMessageData.date item =? MessageVolume.date curr); cbn [orb map].
  - rewrite app_nil_r. reflexivity.
  - rewrite IH. reflexivity.
Qed.

Lemma fold_addMessages_on (rows : list MessageVolume.Daily) (acc : list DailyMessageData.t)
    (d : Z) :
  entriesOn d (fold_left addMessages rows acc) = entriesOn d acc + rowsOn d rows.
Proof.
  revert acc. induction rows as [|row rows IH]; intros acc.
  - unfold rowsOn. simpl. lia.
  - cbn [fold_left]. rewrite IH, addMessages_on. unfold rowsOn. cbn [filter].
    destruct (MessageVolume.date row =? d); rewrite ?map_cons, ?sumZ_cons; lia.
Qed.

Lemma StronglySorted_app_one (l : list Z) (x : Z) :
  StronglySorted Z.lt l -> (forall y, In y l -> y < x) -> StronglySorted Z.lt (l ++ [x]).
Proof.
  induction 1 as [|a l S IH F]; intros H; simpl.
  - repeat constructor.
  - constructor.
    + apply IH. intros y I. apply H. right. exact I.
    + rewrite Forall_forall in *. intros y I. apply in_app_or in I as [I|[E|[]]].
      * apply F, I.
      * subst y. apply H. left. reflexivity.
Qed.

Lemma fold_addMessages_sorted (rows : list MessageVolume.Daily)
    (acc : list DailyMessageData.t) :
  StronglySorted (fun a b => MessageVolume.date a <= MessageVolume.date b) rows ->
  StronglySorted Z.lt (map DailyMessageData.date acc) ->
  (forall item row, In item acc -> In row rows ->
     DailyMessageData.date item <= MessageVolume.date row) ->
  StronglySorted Z.lt (map DailyMessageData.date (fold_left addMessages rows acc)).
Proof.
  revert acc. induction rows as [|row rows IH]; intros acc Sr Sa Hle; [exact Sa|].
  cbn [fold_left]. inversion Sr as [|? ? Sr' F]; subst. rewrite Forall_forall in F.
  assert (D : forall y, In y (map DailyMessageData.date (addMessages acc row)) ->
                        y <= MessageVolume.date row).
  { intros y I. rewrite addMessages_dates in I. apply in_app_or in I as [I|I].
    - apply in_map_iff in I as [item [E I]]. subst y. apply Hle; [exact I | left; reflexivity].
    - destruct (existsb _ acc); [destruct I|]. destruct I as [E|[]]. lia. }
  apply IH; [exact Sr'| |].
  - rewrite addMessages_dates.
    destruct (existsb (fun item => DailyMessageData.date item =? MessageVolume.date row) acc)
      eqn:Ex; [rewrite app_nil_r; exact Sa|].
    apply StronglySorted_app_one; [exact Sa|].
    intros y I. apply in_map_iff in I as [item [E I]]. subst y.
    assert (L : DailyMessageData.date item <= MessageVolume.date row)
      by (apply Hle; [exact I | left; reflexivity]).
    assert (NE : DailyMessageData.date item <> MessageVolume.date row).
    { intros C. apply Z.eqb_eq in C.
      assert (T : existsb (fun item => DailyMessageData.date item =? MessageVolume.date row) acc
                  = true) by (apply existsb_exists; exists item; auto).
      congruence. }
    lia.
  - intros item row' I I'. apply Z.le_trans with (MessageVolume.date row).
    + apply D, in_map, I.
    + apply F, I'.
Qed.

Lemma entriesOn_single (data : list DailyMessageData.t) (item : DailyMessageData.t) :
  NoDup (map DailyMessageData.date data) -> In item data ->
  entriesOn (DailyMessageData.date item) data = DailyMessageData.count item.
Proof.
  intros ND I. unfold entriesOn.
  rewrite (filter_ext _ (fun b => eqb (DailyMessageData.date b) (DailyMessageData.date item))).
  - rewrite (filter_key_single DailyMessageData.date data item ND I). simpl. lia.
  - intros b. destruct (Z.eqb_spec (DailyMessageData.date b) (DailyMessageData.date item)) as [E|NE].
    + symmetry. apply (proj2 (eqb_eq _ _)), E.
    + symmetry. apply (proj2 (eqb_neq _ _)), NE.
Qed.

Lemma StronglySorted_lt_NoDup (l : list Z) : StronglySorted Z.lt l -> NoDup l.
Proof.
  induction 1 as [|a l S IH F]; constructor; [|exact IH].
  rewrite Forall_forall in F. intros I. specialize (F a I). lia.
Qed.

Lemma entriesOn_In (data : list DailyMessageData.t) (d : Z) :
  (forall item, In item data -> 0 < DailyMessageData.count item) ->
  (In d (map DailyMessageData.date data) <-> 0 < entriesOn d data).
Proof.
  intros Hp. unfold entriesOn. induction data as [|item data IH]; [simpl; split; [tauto | lia]|].
  assert (P : 0 < DailyMessageData.count item) by (apply Hp; left; reflexivity).
  assert (IH' := IH (fun i I => Hp i (or_intror I))). clear IH.
  assert (N : 0 <= sumZ (map DailyMessageData.count
                           (filter (fun item => DailyMessageData.date item =? d) data))).
  { apply sumZ_nonneg. intros c I. apply in_map_iff in I as [i [E I]]. subst c.
    apply filter_In in I as [I _]. specialize (Hp i (or_intror I)). lia. }
  cbn [map filter In]. destruct (Z.eqb_spec (DailyMessageData.date item) d) as [E|NE].
  - rewrite map_cons, sumZ_cons. split; [lia | auto].
  - rewrite IH'. split; [intros [C|H]; [contradiction | exact H] | auto].
Qed.

Lemma StronglySorted_map_inv {A B} (R : B -> B -> Prop) (f : A -> B) (l : list A) :
  StronglySorted R (map f l) -> StronglySorted (fun a b => R (f a) (f b)) l.
Proof.
  induction l as [|a l IH]; intros S; [constructor|].
  simpl in S. inversion S as [|? ? S' F]; subst. constructor; [apply IH, S'|].
  rewrite Forall_forall in *. intros b I. apply F, in_map, I.
Qed.

Lemma addMessages_total (acc : list DailyMessageData.t) (curr : MessageVolume.Daily) :
  sumZ (map DailyMessageData.count (addMessages acc curr))
  = sumZ (map DailyMessageData.count acc) + MessageVolume.count curr.
Proof.
  induction acc as [|item rest IH]; [simpl; lia|].
  cbn [addMessages]. destruct (DailyMessageData.date item =? MessageVolume.date curr).
  - rewrite !map_cons, !sumZ_cons. cbn [DailyMessageData.count]. lia.
  - rewrite !map_cons, !sumZ_cons, IH. lia.
Qed.

Lemma fold_addMessages_total (rows : list MessageVolume.Daily)
    (acc : list DailyMessageData.t) :
  sumZ (map DailyMessageData.count (fold_left addMessages rows acc))
  = sumZ (map DailyMessageData.count acc) + sumZ (map MessageVolume.count rows).
Proof.
  revert acc. induction rows as [|row rows IH]; intros acc; [simpl; lia|].
  cbn [fold_left]. rewrite IH, addMessages_total, map_cons, sumZ_cons. lia.
Qed.

Lemma fold_addMessages_dates (rows : list MessageVolume.Daily)
    (acc : list DailyMessageData.t) (d : Z) :
  In d (map DailyMessageData.date (fold_left addMessages rows acc)) <->
  In d (map DailyMessageData.date acc) \/ In d (map MessageVolume.date rows).
Proof.
  revert acc. induction rows as [|row rows IH]; intros acc; [simpl; tauto|].
  cbn [fold_left]. rewrite IH, addMessages_dates, in_app_iff. cbn [map In].
  destruct (existsb (fun item => DailyMessageData.date item =? MessageVolume.date row) acc)
    eqn:Ex.
  - apply existsb_exists in Ex as [item [I E]]. apply Z.eqb_eq in E.
    assert (In (MessageVolume.date row) (map DailyMessageData.date acc))
      by (rewrite <- E; apply in_map, I).
    cbn [In]. split; [tauto|]. intros [H1|[H2|H3]]; subst; tauto.
  - cbn [In]. tauto.
Qed.

Lemma In_dailyMessagesRows DATE HOUR now db period (row : MessageVolume.Daily) :
  In row (dailyMessagesRows DATE HOUR now db period) <->
  messagesAt DATE HOUR now db period (MessageVolume.date row) (MessageVolume.hour row)
    <> [] /\
  MessageVolume.count row
  = count (messagesAt DATE HOUR now db period
             (MessageVolume.date row) (MessageVolume.hour row)).
Proof.
  unfold dailyMessagesRows, messagesAt. split.
  - intros I. apply (Permutation_in _ (orderBy_perm _ _)) in I.
    apply in_map_iff in I as [[[d h] g] [E I]]. subst row. simpl.
    pose proof (groupBy_nonempty _ _ _ _ I) as NE.
    apply In_groupBy in I as [_ Eg]. subst g. auto.
  - intros [NE E]. apply (Permutation_in _ (Permutation_sym (orderBy_perm _ _))).
    destruct row as [d n h]. simpl in *. subst n. apply in_map_iff.
    eexists ((d, h), _). split; [reflexivity|].
    apply In_groupBy. split; [|reflexivity].
    apply filter_nonempty_In in NE as [m [I T]].
    apply (proj1 (eqb_eq _ _)) in T. rewrite <- T.
    apply (in_map (fun m => (DATE (MessageLog.createdAt m), HOUR (MessageLog.createdAt m)))), I.
Qed.

Lemma dailyMessagesRows_dates DATE HOUR now db period (d : Z) :
  In d (map MessageVolume.date (dailyMessagesRows DATE HOUR now db period)) <->
  messagesOnDate DATE now db period d <> [].
Proof.
  rewrite in_map_iff. split.
  - intros [row [E I]]. subst d. apply In_dailyMessagesRows in I as [NE _].
    apply filter_nonempty_In in NE as [m [I T]].
    apply (proj1 (eqb_eq _ _)) in T. injection T as T1 T2. intros C.
    assert (Im : In m (messagesOnDate DATE now db period (MessageVolume.date row))).
    { apply filter_In. split; [exact I|]. apply (proj2 (eqb_eq _ _)), T1. }
    rewrite C in Im. destruct Im.
  - intros NE. apply filter_nonempty_In in NE as [m [I T]].
    apply (proj1 (eqb_eq _ _)) in T.
    exists {| MessageVolume.date := d;
              MessageVolume.count :=
                count (messagesAt DATE HOUR now db period d (HOUR (MessageLog.createdAt m)));
              MessageVolume.hour := HOUR (MessageLog.createdAt m) |}.
    split; [reflexivity|]. apply In_dailyMessagesRows. simpl. split; [|reflexivity].
    intros C.
    assert (Im : In m (messagesAt DATE HOUR now db period d (HOUR (MessageLog.createdAt m)))).
    { apply filter_In. split; [exact I|]. apply (proj2 (eqb_eq _ _)). congruence. }
    rewrite C in Im. destruct Im.
Qed.

(** Property X19.  The chart data dailyMessageData merges the (date, hour)
    rows of messageVolume into one entry per date with a message in the
    period, in strictly ascending order of date; the count of an entry is
    the number of messages of that date and the counts add up to
    totalMessages. *)
Theorem dailyMessageData_per_day DATE HOUR now db period :
  let v := messageVolume DATE HOUR now db period in
  let data := dailyMessageData (Some v) in
  StronglySorted (fun a b => DailyMessageData.date a < DailyMessageData.date b) data /\
  (forall d, In d (map DailyMessageData.date data) <->
             messagesOnDate DATE now db period d <> []) /\
  (forall item, In item data ->
     DailyMessageData.count item
     = count (messagesOnDate DATE now db period (DailyMessageData.date item))) /\
  reduceSum DailyMessageData.count data = MessageVolume.totalMessages v.
Proof.
  intros v data. subst v data. unfold dailyMessageData, messageVolume, messageVolumeOf.
  cbn [MessageVolume.dailyMessages MessageVolume.totalMessages].
  set (rows := dailyMessagesRows DATE HOUR now db period).
  assert (S : StronglySorted Z.lt
                (map DailyMessageData.date (fold_left addMessages rows []))).
  { apply fold_addMessages_sorted.
    - apply StronglySorted_impl with (2 := dailyMessagesRows_sorted DATE HOUR now db period).
      intros a b. lia.
    - constructor.
    - intros item row []. }
  split; [apply StronglySorted_map_inv, S|]. split; [|split].
  - intros d. rewrite fold_addMessages_dates. cbn [map In].
    pose proof (dailyMessagesRows_dates DATE HOUR now db period d) as Hd.
    fold rows in Hd. tauto.
  - intros item I.
    rewrite <- (entriesOn_single _ item (StronglySorted_lt_NoDup _ S) I).
    rewrite fold_addMessages_on. unfold entriesOn at 1. cbn [filter map sumZ fold_right].
    rewrite Z.add_0_l. apply dailyMessagesRows_on.
  - rewrite !reduceSum_sumZ, fold_addMessages_total. simpl. reflexivity.
Qed.

(** ** totalErrors *)

Lemma sumZ_firstn_skipn (n : nat) (l : list Z) :
  sumZ l = sumZ (firstn n l) + sumZ (skipn n l).
Proof. rewrite <- (firstn_skipn n l) at 1. apply sumZ_app. Qed.

(** Property X20.  totalErrors of the system health panel adds the counts of
    the listed error patterns only: it lies between 0 and the number of
    failed requests of the period, equals that number when the failures have
    at most 10 distinct (error, statusCode) pairs, and is strictly smaller
    when they have more. *)
Theorem totalErrors_of_listed_patterns (now : Z) (db : Db) (period : Period) :
  let h := Some (systemHealth now db period) in
  let failed :=
    filter (fun l => eqb (RequestLog.success l) false) (requestsInRange now db period) in
  let patterns :=
    distinct (map (fun l => (RequestLog.error l, RequestLog.statusCode l)) failed) in
  0 <= totalErrors h <= count failed /\
  (count patterns <= 10 -> totalErrors h = count failed) /\
  (10 < count patterns -> totalErrors h < count failed).
Proof.
  intros h failed patterns. subst h. unfold totalErrors, systemHealth, systemHealthOf.
  cbn [SystemHealth.errorPatterns]. unfold errorPatternsRows. fold failed.
  set (groups := groupBy (fun l => (RequestLog.error l, RequestLog.statusCode l)) failed).
  set (all := orderBy (fun a b => SystemHealth.count b <=? SystemHealth.count a)
                (map (fun '((e, c), g) =>
                        {| SystemHealth.error := e;
                           SystemHealth.statusCode := c;
                           SystemHealth.count := @count RequestLog.t g |}) groups)).
  pose proof (orderBy_perm (fun a b => SystemHealth.count b <=? SystemHealth.count a)
                (map (fun '((e, c), g) =>
                        {| SystemHealth.error := e;
                           SystemHealth.statusCode := c;
                           SystemHealth.count := @count RequestLog.t g |}) groups)) as P.
  fold all in P.
  assert (L : List.length all = List.length patterns).
  { rewrite (Permutation_length P), length_map. unfold groups, groupBy.
    rewrite length_map. reflexivity. }
  assert (T : sumZ (map SystemHealth.count all) = count failed).
  { rewrite (sumZ_perm _ _ (Permutation_map _ P)), map_map.
    rewrite <- (groupBy_count (fun l => (RequestLog.error l, RequestLog.statusCode l)) failed).
    f_equal. apply map_ext. intros [[e c] g]. reflexivity. }
  assert (Pos : forall p, In p all -> 0 < SystemHealth.count p).
  { intros p I. apply (Permutation_in _ P) in I.
    apply in_map_iff in I as [[[e c] g] [E I]]. subst p. simpl.
    exact (group_count_pos _ _ _ _ I). }
  rewrite reduceSum_sumZ, <- T, <- firstn_map.
  rewrite (sumZ_firstn_skipn 10 (map SystemHealth.count all)).
  assert (F0 : 0 <= sumZ (firstn 10 (map SystemHealth.count all))).
  { apply sumZ_nonneg. intros c I. apply In_firstn in I.
    apply in_map_iff in I as [p [E I]]. subst c. specialize (Pos p I). lia. }
  assert (S0 : 0 <= sumZ (skipn 10 (map SystemHealth.count all))).
  { apply sumZ_nonneg. intros c I. apply In_skipn in I.
    apply in_map_iff in I as [p [E I]]. subst c. specialize (Pos p I). lia. }
  assert (Cp : count patterns = Z.of_nat (List.length all))
    by (unfold count; rewrite L; reflexivity).
  split; [lia|]. rewrite Cp. split.
  - intros H. rewrite skipn_all2 by (rewrite length_map; lia). simpl. lia.
  - intros H.
    destruct (skipn 10 (map SystemHealth.count all)) as [|c rest] eqn:E.
    + apply (f_equal (@List.length Z)) in E. rewrite length_skipn, length_map in E.
      simpl in E. lia.
    + assert (Ic : In c (skipn 10 (map SystemHealth.count all)))
        by (rewrite E; left; reflexivity).
      apply In_skipn in Ic. apply in_map_iff in Ic as [p [Ep Ip]]. subst c.
      pose proof (Pos p Ip) as Pp.
      assert (0 <= sumZ rest).
      { apply sumZ_nonneg. intros c I.
        assert (Ic : In c (skipn 10 (map SystemHealth.count all)))
          by (rewrite E; right; exact I).
        apply In_skipn in Ic. apply in_map_iff in Ic as [p' [Ep' Ip']]. subst c.
        pose proof (Pos p' Ip'). lia. }
      rewrite sumZ_cons. lia.
Qed.

Lemma tenths_bounds (x : Q) :
  (x * 10 - (1 # 2) < inject_Z (tenths x))%Q /\
  (inject_Z (tenths x) <= x * 10 + (1 # 2))%Q.
Proof.
  unfold tenths. pose proof (floor_bounds (x * 10 + (1 # 2))) as [F1 F2].
  split; lra.
Qed.

Lemma tenths_comp (x y : Q) : (x == y)%Q -> tenths x = tenths y.
Proof. intros E. unfold tenths. apply Qfloor_comp. rewrite E. reflexivity. Qed.

Lemma toFixed1_nonneg (q : Q) : (0 <= q)%Q -> (q < fixedLimit)%Q ->
  toFixed1 (Fin q) = showFixed1 (tenths q).
Proof.
  intros H0 H1. unfold toFixed1, Qneg.
  rewrite (Qle_bool_true 0 q H0). cbn [negb].
  rewrite Qle_bool_false by (rewrite Qabs_pos by exact H0; exact H1).
  rewrite (tenths_comp (Qabs q) q (Qabs_pos q H0)). reflexivity.
Qed.

Lemma nge_ofZ (a b : Z) : nge (ofZ a) (ofZ b) = (b <=? a).
Proof.
  unfold nge, nle, nlt, ofZ. rewrite negb_involutive.
  destruct (Z.leb_spec b a) as [L|G].
  - apply Qle_bool_iff. rewrite <- Zle_Qle. exact L.
  - apply Qle_bool_false. rewrite <- Zlt_Qlt. exact G.
Qed.

(** [(n / unit).toFixed(1)] for a count [n]: the tenths shown are within
    half a tenth of [n / unit]. *)
Lemma toFixed1_scaled (n unit : Z) :
  0 <= n < 2 ^ 48 -> 0 < unit ->
  exists t, toFixed1 (ndiv (ofZ n) (ofZ unit)) = showFixed1 t /\
            10 * n / unit - 1 <= t <= 10 * n / unit + 1 /\
            Z.abs (2 * unit * t - 20 * n) <= unit.
Proof.
  intros [N0 N1] HU. rewrite ndiv_finite by lia.
  assert (Qu : (0 < inject_Z unit)%Q) by (rewrite Zlt_Qlt in HU; exact HU).
  assert (Qn0 : (0 <= inject_Z n)%Q) by (rewrite Zle_Qle in N0; exact N0).
  assert (Qn1 : (inject_Z n < 281474976710656)%Q).
  { change 281474976710656%Q with (inject_Z (2 ^ 48)). rewrite <- Zlt_Qlt. exact N1. }
  remember (inject_Z n / inject_Z unit)%Q as y eqn:Ey.
  assert (Y : (y * inject_Z unit == inject_Z n)%Q) by (subst y; field; lra).
  assert (Y0 : (0 <= y)%Q) by (subst y; apply Qle_shift_div_l; [exact Qu | lra]).
  assert (Yn : (y <= inject_Z n)%Q).
  { subst y. apply Qle_shift_div_r; [exact Qu|].
    assert (U1 : (1 <= inject_Z unit)%Q).
    { change 1%Q with (inject_Z 1). rewrite <- Zle_Qle. lia. }
    assert ((inject_Z n * 1 <= inject_Z n * inject_Z unit)%Q).
    { rewrite !(Qmult_comm (inject_Z n)). apply Qmult_le_compat_r; assumption. }
    lra. }
  pose proof (rnd_err_bounds y Y0) as [E1 E2]. unfold eps in E1, E2.
  pose proof (rnd_nonneg y Y0) as X0.
  remember (rnd y) as x eqn:Ex.
  pose proof (tenths_bounds x) as [T1 T2].
  exists (tenths x). split.
  - apply toFixed1_nonneg; [exact X0|].
    assert (L : (fixedLimit == 1000000000000000000000 # 1)%Q) by reflexivity.
    rewrite L. lra.
  - remember (tenths x) as t eqn:Et.
    (* [|unit * t - 10 * n| <= unit / 2 + 10 * n * eps] *)
    assert (M1 : ((x * 10 - (1 # 2)) * inject_Z unit < inject_Z t * inject_Z unit)%Q).
    { apply Qmult_lt_compat_r; assumption. }
    assert (M2 : (inject_Z t * inject_Z unit <= (x * 10 + (1 # 2)) * inject_Z unit)%Q).
    { apply Qmult_le_compat_r; lra. }
    assert (M3 : ((y * (1 - (1 # 9007199254740992))) * inject_Z unit <= x * inject_Z unit)%Q).
    { apply Qmult_le_compat_r; lra. }
    assert (M4 : (x * inject_Z unit <= (y * (1 + (1 # 9007199254740992))) * inject_Z unit)%Q).
    { apply Qmult_le_compat_r; lra. }
    assert (M3' : ((y * (1 - (1 # 9007199254740992))) * inject_Z unit
                   == inject_Z n * (1 - (1 # 9007199254740992)))%Q)
      by (rewrite <- Y; ring).
    assert (M4' : ((y * (1 + (1 # 9007199254740992))) * inject_Z unit
                   == inject_Z n * (1 + (1 # 9007199254740992)))%Q)
      by (rewrite <- Y; ring).
    rewrite M3' in M3. rewrite M4' in M4. clear M3' M4'.
    assert (M1' : ((x * 10 - (1 # 2)) * inject_Z unit
                   == 10 * (x * inject_Z unit) - (1 # 2) * inject_Z unit)%Q) by ring.
    assert (M2' : ((x * 10 + (1 # 2)) * inject_Z unit
                   == 10 * (x * inject_Z unit) + (1 # 2) * inject_Z unit)%Q) by ring.
    rewrite M1' in M1. rewrite M2' in M2. clear M1' M2'.
    remember (x * inject_Z unit)%Q as xu. remember (inject_Z t * inject_Z unit)%Q as tu eqn:Etu.
    assert (A : (inject_Z (2 * unit * t - 20 * n) < inject_Z (unit + 1))%Q).
    { unfold Zminus. rewrite !inject_Z_plus, inject_Z_opp, !inject_Z_mult.
      change (inject_Z 2) with 2%Q. change (inject_Z 20) with 20%Q.
      change (inject_Z 1) with 1%Q.
      assert (R : (2 * inject_Z unit * inject_Z t == 2 * tu)%Q) by (subst tu; ring).
      rewrite R. remember (inject_Z n) as qn. remember (inject_Z unit) as qu. lra. }
    assert (B : (inject_Z (20 * n - 2 * unit * t) < inject_Z (unit + 1))%Q).
    { unfold Zminus. rewrite !inject_Z_plus, inject_Z_opp, !inject_Z_mult.
      change (inject_Z 2) with 2%Q. change (inject_Z 20) with 20%Q.
      change (inject_Z 1) with 1%Q.
      assert (R : (2 * inject_Z unit * inject_Z t == 2 * tu)%Q) by (subst tu; ring).
      rewrite R. remember (inject_Z n) as qn. remember (inject_Z unit) as qu. lra. }
    rewrite <- Zlt_Qlt in A, B.
    assert (C : Z.abs (2 * unit * t - 20 * n) <= unit) by lia.
    split; [|exact C].
    pose proof (Z.div_mod (10 * n) unit ltac:(lia)) as DM.
    pose proof (Z.mod_pos_bound (10 * n) unit HU) as MB.
    set (k := 10 * n / unit) in *. split; nia.
Qed.

(** Property X21.  For an integer n with 0 <= n < 2^48 formatNumber returns
    n.toString() when n < 1000; a one-decimal number of thousands, within
    0.05 thousand of n, followed by K when 1000 <= n < 1000000 (so up to
    1000.0K, for 999950 and above); and a one-decimal number of millions,
    within 0.05 million of n, followed by M from 1000000 on. *)
Theorem formatNumber_abbreviates (Number_toString : number -> string) (n : Z) :
  0 <= n < 2 ^ 48 ->
  (n < 1000 -> formatNumber Number_toString (inl (ofZ n)) = Number_toString (ofZ n)) /\
  (1000 <= n < 1000000 ->
   exists t, formatNumber Number_toString (inl (ofZ n)) = (showFixed1 t ++ "K")%string /\
             10 <= t <= 10000 /\ Z.abs (100 * t - n) <= 50) /\
  (1000000 <= n ->
   exists t, formatNumber Number_toString (inl (ofZ n)) = (showFixed1 t ++ "M")%string /\
             10 <= t /\ Z.abs (100000 * t - n) <= 50000).
Proof.
  intros Hn. unfold formatNumber, numberOf. cbv zeta. rewrite !nge_ofZ.
  split; [|split].
  - intros H. destruct (Z.leb_spec 1000000 n); [lia|].
    destruct (Z.leb_spec 1000 n); [lia | reflexivity].
  - intros H. destruct (Z.leb_spec 1000000 n); [lia|].
    destruct (Z.leb_spec 1000 n); [|lia].
    destruct (toFixed1_scaled n 1000 Hn ltac:(lia)) as [t [E [B A]]].
    exists t. rewrite E. split; [reflexivity|].
    pose proof (Z.div_mod (10 * n) 1000 ltac:(lia)) as DM.
    pose proof (Z.mod_pos_bound (10 * n) 1000 ltac:(lia)) as MB.
    lia.
  - intros H. destruct (Z.leb_spec 1000000 n); [|lia].
    destruct (toFixed1_scaled n 1000000 Hn ltac:(lia)) as [t [E [B A]]].
    exists t. rewrite E. split; [reflexivity|].
    pose proof (Z.div_mod (10 * n) 1000000 ltac:(lia)) as DM.
    pose proof (Z.mod_pos_bound (10 * n) 1000000 ltac:(lia)) as MB.
    lia.
Qed.

Lemma formatNumber_abbreviates_witness :
  0 <= 999950 < 2 ^ 48 /\ 1000 <= 999950 < 1000000 /\
  formatNumber (fun _ => ""%string) (inl (ofZ 999950)) = "1000.0K"%string /\
  exists t, formatNumber (fun _ => ""%string) (inl (ofZ 999950)) = (showFixed1 t ++ "K")%string /\
            10 <= t <= 10000 /\ Z.abs (100 * t - 999950) <= 50.
Proof.
  assert (H1 : 0 <= 999950 < 2 ^ 48) by (split; [lia | reflexivity]).
  assert (H2 : 1000 <= 999950 < 1000000) by lia.
  split; [exact H1|]. split; [exact H2|]. split; [vm_compute; reflexivity|].
  exact (proj1 (proj2 (formatNumber_abbreviates (fun _ => ""%string) 999950 H1)) H2).
Defined.

(** Property X22.  Applied to a part-of-whole percentage string of the
    router, directly or through parseFloat, formatPercentage returns a one-
    decimal number between 0.0 and 100.0 followed by %, and for wholes up to
    10^11 it is within 0.055 of the exact percentage. *)
Theorem formatPercentage_of_rate (c T : Z) : 0 <= c <= T -> 0 < T ->
  exists t,
    formatPercentage (inr (percentOf c T)) = (showFixed1 t ++ "%")%string /\
    formatPercentage (inl (parseFloat (percentOf c T))) = (showFixed1 t ++ "%")%string /\
    0 <= t <= 1000 /\
    (T <= 10 ^ 11 -> 20 * Z.abs (t * T - 1000 * c) <= 11 * T).
Proof.
  intros Hc HT.
  destruct (percentOf_range c T Hc HT) as [n [E [_ [[N0 N1] Acc]]]].
  destruct (parseFloat_showFixed2 n N0) as [q [Eq Vq]].
  assert (Q0 : (0 <= inject_Z n)%Q) by (rewrite Zle_Qle in N0; exact N0).
  assert (Q1 : (inject_Z n <= 10000)%Q).
  { change 10000%Q with (inject_Z 10000). rewrite <- Zle_Qle. exact N1. }
  remember (inject_Z n / 100)%Q as y eqn:Ey.
  assert (Y : (y * 100 == inject_Z n)%Q) by (subst y; field).
  assert (Y0 : (0 <= y)%Q) by lra.
  pose proof (rnd_err_bounds y Y0) as [E1 E2]. unfold eps in E1, E2.
  rewrite <- Vq in E1, E2.
  pose proof (tenths_bounds q) as [T1 T2].
  assert (F : toFixed1 (Fin q) = showFixed1 (tenths q)).
  { apply toFixed1_nonneg; [lra|].
    assert (L : (fixedLimit == 1000000000000000000000 # 1)%Q) by reflexivity.
    rewrite L. lra. }
  exists (tenths q). unfold formatPercentage, numberOf. cbv zeta.
  rewrite E, Eq, F. split; [reflexivity|]. split; [reflexivity|].
  remember (tenths q) as t eqn:Et.
  assert (A : (inject_Z (10 * t - n) < inject_Z 6)%Q).
  { unfold Zminus. rewrite inject_Z_plus, inject_Z_opp, inject_Z_mult.
    change (inject_Z 10) with 10%Q. change (inject_Z 6) with 6%Q.
    remember (inject_Z n) as qn. lra. }
  assert (B : (inject_Z (n - 10 * t) < inject_Z 6)%Q).
  { unfold Zminus. rewrite inject_Z_plus, inject_Z_opp, inject_Z_mult.
    change (inject_Z 10) with 10%Q. change (inject_Z 6) with 6%Q.
    remember (inject_Z n) as qn. lra. }
  rewrite <- Zlt_Qlt in A, B.
  split; [lia|].
  intros HT'. specialize (Acc HT').
  assert (M1 : - (5 * T) <= (10 * t - n) * T) by nia.
  assert (M2 : (10 * t - n) * T <= 5 * T) by nia.
  lia.
Qed.

Lemma formatPercentage_of_rate_witness :
  0 <= 7 <= 20 /\ 0 < 20 /\
  percentOf 7 20 = "35.00"%string /\
  formatPercentage (inr (percentOf 7 20)) = "35.0%"%string /\
  exists t,
    formatPercentage (inr (percentOf 7 20)) = (showFixed1 t ++ "%")%string /\
    formatPercentage (inl (parseFloat (percentOf 7 20))) = (showFixed1 t ++ "%")%string /\
    0 <= t <= 1000 /\
    (20 <= 10 ^ 11 -> 20 * Z.abs (t * 20 - 1000 * 7) <= 11 * 20).
Proof.
  assert (H1 : 0 <= 7 <= 20) by lia.
  assert (H2 : 0 < 20) by lia.
  split; [exact H1|]. split; [exact H2|].
  split; [vm_compute; reflexivity|]. split; [vm_compute; reflexivity|].
  exact (formatPercentage_of_rate 7 20 H1 H2).
Defined.

Lemma rnd_pos (x : Q) : (0 < x)%Q -> (0 < rnd x)%Q.
Proof. intros H. rewrite rnd_pos_eq by exact H. apply rndPos_pos. exact H. Qed.

Lemma Qzero_inject_Z (z : Z) : z <> 0 -> Qzero (inject_Z z) = false.
Proof.
  intros H. unfold Qzero. destruct (Qeq_bool (inject_Z z) 0) eqn:E; [|reflexivity].
  apply Qeq_bool_iff in E. exfalso. apply H.
  change 0%Q with (inject_Z 0) in E. apply (proj1 (inject_Z_injective _ _)) in E. exact E.
Qed.

(** Property X23.  For counts below 2^53, calculateGrowth with previous = 0
    returns 100 if current > 0 and 0 otherwise; with previous > 0 it returns
    a finite number of at least -100 whose sign agrees with
    getGrowthDirection: positive with up, negative with down, zero with
    neutral. *)
Theorem growth_direction_agrees (current previous : Z) :
  0 <= current < 2 ^ 53 -> 0 <= previous < 2 ^ 53 ->
  (previous = 0 ->
   calculateGrowth (ofZ current) (ofZ previous) = ofZ (if 0 <? current then 100 else 0)) /\
  (0 < previous ->
   exists g, calculateGrowth (ofZ current) (ofZ previous) = Fin g /\
             (-100 <= g)%Q /\
             (previous < current ->
              getGrowthDirection (ofZ current) (ofZ previous) = "up"%string /\ (0 < g)%Q) /\
             (current < previous ->
              getGrowthDirection (ofZ current) (ofZ previous) = "down"%string /\ (g < 0)%Q) /\
             (current = previous ->
              getGrowthDirection (ofZ current) (ofZ previous) = "neutral"%string /\ (g == 0)%Q)).
Proof.
  intros Hc Hp. split.
  - intros ->. unfold calculateGrowth, nstrictEq, ngt, nlt, ofZ.
    change (Qeq_bool (inject_Z 0) (inject_Z 0)) with true. cbv iota.
    destruct (Z.ltb_spec 0 current) as [L|G].
    + rewrite Qle_bool_false; [reflexivity|]. rewrite <- Zlt_Qlt. exact L.
    + rewrite Qle_bool_true; [reflexivity|]. rewrite <- Zle_Qle. exact G.
  - intros P.
    assert (QP : (0 < inject_Z previous)%Q).
    { change 0%Q with (inject_Z 0). rewrite <- Zlt_Qlt. exact P. }
    assert (NZ : Qzero (inject_Z previous) = false) by (apply Qzero_inject_Z; lia).
    assert (NZ' : Qeq_bool (inject_Z previous) (inject_Z 0) = false) by exact NZ.
    unfold calculateGrowth, nstrictEq, nsub, nneg, nadd, ndiv, nmul, ofZ.
    rewrite NZ', NZ.
    assert (D : (rnd (inject_Z current + - inject_Z previous)
                 == inject_Z (current - previous))%Q).
    { rewrite <- inject_Z_opp, <- inject_Z_plus. apply rnd_int.
      assert (2 ^ 53 = 9007199254740992) by reflexivity. lia. }
    remember (rnd (inject_Z current + - inject_Z previous)) as d eqn:Ed.
    remember (d / inject_Z previous)%Q as y eqn:Ey.
    assert (Y : (y * inject_Z previous == inject_Z (current - previous))%Q).
    { rewrite <- D. subst y. field. lra. }
    exists (rnd (rnd y * inject_Z 100)). split; [reflexivity|].
    change (inject_Z 100) with 100%Q.
    assert (Ylow : (-1 <= y)%Q).
    { destruct (Qlt_le_dec y (-1)) as [Lt|Ge]; [|exact Ge]. exfalso.
      assert (M : (y * inject_Z previous < (-1) * inject_Z previous)%Q)
        by (apply Qmult_lt_compat_r; assumption).
      rewrite Y in M. unfold Zminus in M. rewrite inject_Z_plus, inject_Z_opp in M.
      assert (C0 : (0 <= inject_Z current)%Q).
      { change 0%Q with (inject_Z 0). rewrite <- Zle_Qle. lia. }
      lra. }
    assert (R1 : (-1 <= rnd y)%Q).
    { apply Qle_trans with (rnd (inject_Z (-1))).
      - rewrite rnd_int by (simpl; lia). apply Qle_refl.
      - apply rnd_mono. exact Ylow. }
    split.
    { apply Qle_trans with (rnd (inject_Z (-100))).
      - rewrite rnd_int by (simpl; lia). apply Qle_refl.
      - apply rnd_mono. change (inject_Z (-100)) with (-100 # 1)%Q. lra. }
    unfold getGrowthDirection, ngt, nlt, ofZ.
    split; [|split].
    + intros L.
      assert (QL : (inject_Z previous < inject_Z current)%Q) by (rewrite <- Zlt_Qlt; exact L).
      rewrite (Qle_bool_false _ _ QL). cbn [negb]. split; [reflexivity|].
      assert (Ypos : (0 < y)%Q).
      { destruct (Qlt_le_dec 0 y) as [Lt|Ge]; [exact Lt|]. exfalso.
        assert (M : (y * inject_Z previous <= 0 * inject_Z previous)%Q)
          by (apply Qmult_le_compat_r; lra).
        rewrite Y in M. unfold Zminus in M. rewrite inject_Z_plus, inject_Z_opp in M. lra. }
      apply rnd_pos. pose proof (rnd_pos y Ypos). lra.
    + intros L.
      assert (QL : (inject_Z current < inject_Z previous)%Q) by (rewrite <- Zlt_Qlt; exact L).
      rewrite (Qle_bool_true (inject_Z current) (inject_Z previous)) by lra.
      rewrite (Qle_bool_false _ _ QL). cbn [negb]. split; [reflexivity|].
      assert (Yneg : (y < 0)%Q).
      { destruct (Qlt_le_dec y 0) as [Lt|Ge]; [exact Lt|]. exfalso.
        assert (M : (0 * inject_Z previous <= y * inject_Z previous)%Q)
          by (apply Qmult_le_compat_r; lra).
        rewrite Y in M. unfold Zminus in M. rewrite inject_Z_plus, inject_Z_opp in M. lra. }
      apply rnd_neg. pose proof (rnd_neg y Yneg). lra.
    + intros ->.
      rewrite (Qle_bool_true (inject_Z previous) (inject_Z previous)) by apply Qle_refl.
      cbn [negb]. split; [reflexivity|].
      assert (Yz : (y == 0)%Q).
      { rewrite Z.sub_diag in Y. change (inject_Z 0) with 0%Q in Y.
        apply Qmult_integral in Y. destruct Y as [Y|Y]; [exact Y|]. lra. }
      rewrite (rnd_zero_eq y Yz). rewrite rnd_zero_eq; [reflexivity|]. ring.
Qed.

Lemma growth_direction_agrees_witness :
  0 <= 150 < 2 ^ 53 /\ 0 <= 100 < 2 ^ 53 /\
  (0 < 100 ->
   exists g, calculateGrowth (ofZ 150) (ofZ 100) = Fin g /\
             (-100 <= g)%Q /\
             (100 < 150 ->
              getGrowthDirection (ofZ 150) (ofZ 100) = "up"%string /\ (0 < g)%Q) /\
             (150 < 100 ->
              getGrowthDirection (ofZ 150) (ofZ 100) = "down"%string /\ (g < 0)%Q) /\
             (150 = 100 ->
              getGrowthDirection (ofZ 150) (ofZ 100) = "neutral"%string /\ (g == 0)%Q)).
Proof.
  assert (H1 : 0 <= 150 < 2 ^ 53) by (split; [lia | reflexivity]).
  assert (H2 : 0 <= 100 < 2 ^ 53) by (split; [lia | reflexivity]).
  split; [exact H1|]. split; [exact H2|].
  exact (proj2 (growth_direction_agrees 150 100 H1 H2)).
Defined.

(* ================================================================== *)
(** * Scenarios *)
(* ================================================================== *)

(** The two-decimal notation. *)
Example showFixed2_examples :
  showFixed2 9524 = "95.24"%string /\ showFixed2 5 = "0.05"%string /\
  showCents (-150) = "-1.50"%string.
Proof. repeat split. Qed.

(** Without its guard a ratio over zero rows would be "NaN". *)
Example unguarded_ratio :
  toFixed2 (nmul (ndiv (ofZ 0) (ofZ 0)) (ofZ 100)) = "NaN"%string.
Proof. reflexivity. Qed.

(** Strings where numbers are wanted. *)
Example StringToNumber_examples :
  map (fun s => toFixed2 (StringToNumber s))
      ["03600.000000"; "03600.0000007200.000000"; ""; " 12 "; "0x1A"; "1e3"; "12px"]%string
  = ["3600.00"; "NaN"; "0.00"; "12.00"; "26.00"; "1000.00"; "NaN"]%string.
Proof. vm_compute. reflexivity. Qed.

(** The processing times reach the reduction as strings, which [+]
    concatenates to the string of the initial 0: one completed intent of
    3600 seconds gives "60.00" (from "03600.000000"), two give "NaN", and
    a time that is null counts as the number 0. *)
Example averageProcessingTime_examples :
  let sample t :=
    {| PaymentAnalysis.paymentIntentId := 1; PaymentAnalysis.sampleTier := "pro";
       PaymentAnalysis.timeToComplete := t |} in
  map (fun times =>
         PaymentAnalysis.averageProcessingTime (paymentAnalysisOf [] (map sample times)))
      [ []; [Some "3600.000000"]; [Some "3600.000000"; Some "7200.000000"];
        [None; None]; [None; Some "90"]; [Some "120"; None] ]%string
  = ["0"; "60.00"; "NaN"; "0.00"; "0.75"; "10.00"]%string.
Proof. vm_compute. reflexivity. Qed.

(** The scenario of the specification: of three users one sent 11
    messages and one has a succeeded payment. *)
Example threeUsers_segmentation :
  let r := userSegmentation threeUsers in
  UserSegmentation.heavyUsers r = 1 /\ UserSegmentation.lightUsers r = 2 /\
  UserSegmentation.paidUsers r = 1 /\ UserSegmentation.freeUsers r = 2.
Proof. vm_compute. repeat split. Qed.

(** The grouping by [paymentRecords.id] gives a user one row per payment
    record: with a second record [bob] has two rows in the paid segment. *)
Example one_row_per_payment :
  let db :=
    mkDb [bob] [] [] [] [] []
         [PaymentRecord.mk 1 "bob" "pay_1" "failed" 49900 0;
          PaymentRecord.mk 2 "bob" "pay_2" "succeeded" 49900 0] in
  UserSegmentation.paidUsers (userSegmentation db) = 2 /\
  UserSegmentation.freeUsers (userSegmentation db) = 0.
Proof. vm_compute. split; reflexivity. Qed.

(** [rnd] agrees with hardware binary64 on pseudo-random quotients,
    percentages and sums, of small and of large integers. *)
Example binary64_agreement :
  forallb agreeOn (samplePairs 100 1 1000) = true /\
  forallb agreeOn (samplePairs 100 2 (2 ^ 50)) = true.
Proof. split; vm_compute; reflexivity. Qed.

(** [rnd] agrees with hardware binary64 on the success rate of the
    scenario, [100 / 105 * 100]. *)
Example binary64_success_rate :
  valueOf (100 / 105 * 100)%float = Some (Qred (pctValue 100 105)).
Proof. vm_compute. reflexivity. Qed.
